(** * sca_rhythm: the workflow engine of [sca_rhythm/__init__.py]

    A shallow embedding of class [Workflow]: the workflow document, the
    Celery application it talks to (document store, result backend,
    [send_task], [control.revoke]) and every method of the class, written
    as programs of a state-and-exception monad, followed by the properties
    of the engine that the design document states. *)

From Stdlib Require Import ZArith.
From stdpp Require Import base option list gmap strings.

Local Open Scope string_scope.
Local Open Scope list_scope.

(** ** Python values, exceptions and the monad of methods *)

(** Values that travel as task arguments, keyword arguments and results. *)
#[warnings="-register-all"]
Inductive pyval : Type :=
| VNone
| VBool (b : bool)
| VInt (z : Z)
| VStr (s : string)
| VList (l : list pyval)
| VDict (kv : list (string * pyval)).

(** A key of a dict whose presence the source tests: the key may be
    missing, may hold [None], or may hold a value. *)
Inductive field (A : Type) : Type :=
| Absent
| Null
| Val (a : A).
Arguments Absent {A}.
Arguments Null {A}.
Arguments Val {A} a.

(** The exceptions the engine can raise. [PyException] is the bare
    [Exception(msg)] of the constructor and of [refresh]. *)
Inductive exn : Type :=
| AssertionError
| KeyError (key : string)
| IndexError
| TypeError
| AttributeError
| JSONDecodeError
| DuplicateKeyError
| PyException (msg : string).

Inductive res (A : Type) : Type :=
| Ok (a : A)
| Raise (e : exn).
Arguments Ok {A} a.
Arguments Raise {A} e.

(** A method is a function of the state that returns a value or raises,
    together with the state it leaves behind (what it mutated before the
    exception is kept). *)
Definition M (S A : Type) : Type := S -> res A * S.

Definition ret {S A} (a : A) : M S A := fun s => (Ok a, s).
Definition raise {S A} (e : exn) : M S A := fun s => (Raise e, s).
Definition bind {S A B} (m : M S A) (k : A -> M S B) : M S B :=
  fun s => match m s with
           | (Ok a, s') => k a s'
           | (Raise e, s') => (Raise e, s')
           end.
Definition gets {S A} (f : S -> A) : M S A := fun s => (Ok (f s), s).
Definition modify {S} (f : S -> S) : M S unit := fun s => (Ok tt, f s).
(** [try: m except Exception: h] *)
Definition try_except {S A} (m : M S A) (h : exn -> M S A) : M S A :=
  fun s => match m s with
           | (Ok a, s') => (Ok a, s')
           | (Raise e, s') => h e s'
           end.
(** a pure computation that may raise *)
Definition lift_res {S A} (r : res A) : M S A := fun s => (r, s).
(** [assert b] *)
Definition assert_ {S} (b : bool) : M S unit :=
  if b then ret tt else raise AssertionError.

Declare Scope py_scope.
Delimit Scope py_scope with py.
Notation "x <- m ;; k" := (bind m (fun x => k))
  (at level 100, m at next level, right associativity) : py_scope.
Notation "m ;;; k" := (bind m (fun _ => k))
  (at level 100, right associativity) : py_scope.
Local Open Scope py_scope.

(** [d[key]] on a key that may be missing *)
Definition getitem {A} (key : string) (o : option A) : res A :=
  match o with Some a => Ok a | None => Raise (KeyError key) end.
(** [d.get(key, default)]: [None] stands for Python's [None]. *)
Definition dict_get {A} (f : field A) (default : A) : option A :=
  match f with Absent => Some default | Null => None | Val a => Some a end.
(** [len(x)] where [x] is a list or [None] *)
Definition len {A} (x : option (list A)) : res nat :=
  match x with Some l => Ok (length l) | None => Raise TypeError end.
(** [l[0]] and [l[-1]] *)
Definition first_item {A} (l : list A) : res A :=
  match l with a :: _ => Ok a | [] => Raise IndexError end.
Definition last_item {A} (l : list A) : res A :=
  match last l with Some a => Ok a | None => Raise IndexError end.

(** ** celery.states *)

Definition PENDING : string := "PENDING".
Definition STARTED : string := "STARTED".
Definition RETRY : string := "RETRY".
Definition REVOKED : string := "REVOKED".
Definition FAILURE : string := "FAILURE".
Definition SUCCESS : string := "SUCCESS".
Definition PROGRESS : string := "PROGRESS".

(** [x in [a, b, ...]] on strings *)
Definition str_in (x : string) (l : list string) : bool :=
  existsb (String.eqb x) l.

(** ** The data model *)

(** One element of a step's [task_runs]. *)
Record TaskRun : Type := mkTaskRun {
  task_id : string;
  date_start : option Z;
  end_time : option Z
}.

(** One element of [workflow['steps']]: the keys [name] and [task] are the
    ones the constructor checks for; [task_runs] is read with
    [step.get('task_runs', [])] and tested against [None]. *)
Record Step : Type := mkStep {
  name : option string;
  task : option string;
  task_runs : field (list TaskRun)
}.

(** The workflow document, [self.workflow]. *)
Record Doc : Type := mkDoc {
  _id : string;
  created_at : option Z;
  updated_at : option Z;
  steps : list Step;
  wf_name : option string
}.

(** A record of the result backend's collection, and what
    [get_task_instance] makes of it: [t_date_start] is the key it adds. *)
Record TaskDoc : Type := mkTaskDoc {
  t_id : string;
  t_args : option (list pyval);
  t_result : option pyval;
  t_date_start : field Z
}.

(** A call [app.send_task(task, args, kwargs)]; [args] is a sequence or
    Python's [None]. *)
Record SendTask : Type := mkSendTask {
  s_task : string;
  s_args : option (list pyval);
  s_kwargs : gmap string pyval
}.

(** A call [app.control.revoke(task_id, terminate=...)]. *)
Record Revoke : Type := mkRevoke {
  r_task_id : string;
  r_terminate : bool
}.

(** The Celery application as the engine sees it: the [workflow_meta]
    collection, the backend's result collection and status query, the log
    of the calls sent to the broker (oldest first), and the sources of
    [datetime.utcnow()] and [uuid.uuid4()] with the number of readings
    taken so far. *)
Record App : Type := mkApp {
  wf_col : gmap string Doc;
  backend_col : gmap string TaskDoc;
  get_status : string -> string;
  sent : list SendTask;
  revoked : list Revoke;
  clock : nat -> Z;
  clock_n : nat;
  uuids : nat -> string;
  uuids_n : nat
}.

(** An instance of class [Workflow]: [self.app] and [self.workflow]. *)
Record Workflow : Type := mkWorkflow {
  app : App;
  workflow : Doc
}.

Definition set_task_runs (rs : field (list TaskRun)) (s : Step) : Step :=
  {| name := name s; task := task s; task_runs := rs |}.
Definition set_end_time (t : option Z) (r : TaskRun) : TaskRun :=
  {| task_id := task_id r; date_start := date_start r; end_time := t |}.
Definition set_steps (l : list Step) (d : Doc) : Doc :=
  {| _id := _id d; created_at := created_at d; updated_at := updated_at d;
     steps := l; wf_name := wf_name d |}.
Definition set_updated_at (t : option Z) (d : Doc) : Doc :=
  {| _id := _id d; created_at := created_at d; updated_at := t;
     steps := steps d; wf_name := wf_name d |}.
Definition set_wf_col (c : gmap string Doc) (a : App) : App :=
  {| wf_col := c; backend_col := backend_col a; get_status := get_status a;
     sent := sent a; revoked := revoked a; clock := clock a;
     clock_n := clock_n a; uuids := uuids a; uuids_n := uuids_n a |}.
Definition set_sent (l : list SendTask) (a : App) : App :=
  {| wf_col := wf_col a; backend_col := backend_col a;
     get_status := get_status a; sent := l; revoked := revoked a;
     clock := clock a; clock_n := clock_n a; uuids := uuids a;
     uuids_n := uuids_n a |}.
Definition set_revoked (l : list Revoke) (a : App) : App :=
  {| wf_col := wf_col a; backend_col := backend_col a;
     get_status := get_status a; sent := sent a; revoked := l;
     clock := clock a; clock_n := clock_n a; uuids := uuids a;
     uuids_n := uuids_n a |}.
Definition tick_clock (a : App) : App :=
  {| wf_col := wf_col a; backend_col := backend_col a;
     get_status := get_status a; sent := sent a; revoked := revoked a;
     clock := clock a; clock_n := S (clock_n a); uuids := uuids a;
     uuids_n := uuids_n a |}.
Definition tick_uuids (a : App) : App :=
  {| wf_col := wf_col a; backend_col := backend_col a;
     get_status := get_status a; sent := sent a; revoked := revoked a;
     clock := clock a; clock_n := clock_n a; uuids := uuids a;
     uuids_n := S (uuids_n a) |}.
Definition set_app (a : App) (w : Workflow) : Workflow :=
  {| app := a; workflow := workflow w |}.
Definition set_workflow (d : Doc) (w : Workflow) : Workflow :=
  {| app := app w; workflow := d |}.

(** ** The application's operations *)

Module AppOps.

(** [datetime.datetime.utcnow()] *)
Definition utcnow : M App Z :=
  fun a => (Ok (clock a (clock_n a)), tick_clock a).

(** [str(uuid.uuid4())] *)
Definition uuid4 : M App string :=
  fun a => (Ok (uuids a (uuids_n a)), tick_uuids a).

(** [wf_col.find_one({'_id': id})] *)
Definition find_one (id : string) : M App (option Doc) :=
  gets (fun a => wf_col a !! id).

(** [wf_col.insert_one(doc)]: a second document under a key that is
    taken is refused by the store. *)
Definition insert_one (d : Doc) : M App unit :=
  fun a => match wf_col a !! _id d with
           | Some _ => (Raise DuplicateKeyError, a)
           | None => (Ok tt, set_wf_col (<[_id d := d]> (wf_col a)) a)
           end.

(** [wf_col.update_one({'_id': id}, {'$set': doc})]: every key of [doc]
    is written over the stored document; nothing is inserted when no
    document matches. *)
Definition update_one (id : string) (d : Doc) : M App unit :=
  fun a => match wf_col a !! id with
           | Some _ => (Ok tt, set_wf_col (<[id := d]> (wf_col a)) a)
           | None => (Ok tt, a)
           end.

(** [app.backend.collection.find_one({'_id': task_id})] *)
Definition backend_find_one (tid : string) : M App (option TaskDoc) :=
  gets (fun a => backend_col a !! tid).

(** [app.backend.get_status(task_id)] *)
Definition backend_get_status (tid : string) : M App string :=
  gets (fun a => get_status a tid).

(** [app.send_task(task, args, kwargs)] *)
Definition send_task (t : string) (args : option (list pyval))
    (kwargs : gmap string pyval) : M App unit :=
  modify (fun a => set_sent (sent a ++ [mkSendTask t args kwargs]) a).

(** [app.control.revoke(task_id, terminate=terminate)] *)
Definition revoke (tid : string) (terminate : bool) : M App unit :=
  modify (fun a => set_revoked (revoked a ++ [mkRevoke tid terminate]) a).

End AppOps.

(** A call on [self.app] from inside a method. *)
Definition on_app {A} (m : M App A) : M Workflow A :=
  fun w => match m (app w) with (r, a') => (r, set_app a' w) end.

(** ** Helpers of the module *)

(** A [Counter]: the keys in the order they were first counted, each with
    its count. *)
Fixpoint counter_incr (k : string) (c : list (string * nat)) : list (string * nat) :=
  match c with
  | [] => [(k, 1)]
  | (k', n) :: rest =>
      if String.eqb k k' then (k', S n) :: rest
      else (k', n) :: counter_incr k rest
  end.

Definition Counter (items : list string) : list (string * nat) :=
  fold_left (fun c k => counter_incr k c) items [].

(** [c[k]], which is 0 for a key that was never counted *)
Fixpoint counter_get (k : string) (c : list (string * nat)) : nat :=
  match c with
  | [] => 0
  | (k', n) :: rest => if String.eqb k k' then n else counter_get k rest
  end.

(** [c1 - c2]: counts are subtracted and only positive ones are kept. The
    keys of [c2] that [c1] lacks would enter with the negated count when
    that is positive, which never happens for the counts of a [Counter]
    built from a list. *)
Definition counter_sub (c1 c2 : list (string * nat)) : list (string * nat) :=
  filter (fun p => 0 <? p.2)%nat
         (map (fun p => (p.1, p.2 - counter_get p.1 c2)%nat) c1).

(** [set(items)], as the list of its elements *)
Definition set_of (items : list string) : list string := remove_dups items.

(** [duplicates(items)] *)
Definition duplicates (items : list string) : list string :=
  map fst (counter_sub (Counter items) (Counter (set_of items))).

(** [itertools.dropwhile(p, l)] consumed up to its first element: the
    predicate may raise on an element it is applied to. *)
Fixpoint dropwhile {A} (p : A -> res bool) (l : list A) : res (list A) :=
  match l with
  | [] => Ok []
  | x :: rest =>
      match p x with
      | Raise e => Raise e
      | Ok true => dropwhile p rest
      | Ok false => Ok (x :: rest)
      end
  end.

(** [enumerate(l)] *)
Fixpoint enumerate_from {A} (i : nat) (l : list A) : list (nat * A) :=
  match l with
  | [] => []
  | x :: rest => (i, x) :: enumerate_from (S i) rest
  end.
Definition enumerate {A} (l : list A) : list (nat * A) := enumerate_from 0 l.

(** a list comprehension or [for] loop whose body may raise *)
Fixpoint for_each {S A B} (f : A -> M S B) (l : list A) : M S (list B) :=
  match l with
  | [] => ret []
  | x :: rest => y <- f x ;; ys <- for_each f rest ;; ret (y :: ys)
  end.

(** [l[i]] *)
Definition list_getitem {A} (l : list A) (i : nat) : res A :=
  match l !! i with Some a => Ok a | None => Raise IndexError end.

(** [l[:-1]] *)
Definition all_but_last {A} (l : list A) : list A := removelast l.

(** the list with its last element replaced by [f] of it *)
Fixpoint alter_last {A} (f : A -> A) (l : list A) : list A :=
  match l with
  | [] => []
  | [x] => [f x]
  | x :: rest => x :: alter_last f rest
  end.

(** a dict is false when it has no key at all *)
Definition step_truthy (s : Step) : bool :=
  match name s, task s, task_runs s with
  | None, None, Absent => false
  | _, _, _ => true
  end.

(** ** What the methods return *)

Record RevokedStep : Type := mkRevokedStep {
  rv_task_id : string;
  rv_task : string;
  rv_name : string
}.
Record PauseResult : Type := mkPauseResult {
  paused : bool;
  revoked_step : option RevokedStep
}.
Record RestartedStep : Type := mkRestartedStep {
  rs_name : string;
  rs_task : string
}.
Record ResumeResult : Type := mkResumeResult {
  resumed : bool;
  restarted_step : option RestartedStep
}.
(** A step of the embellished view: the keys [last_task_run] and
    [prev_task_runs] are present when asked for. *)
Record EmbStep : Type := mkEmbStep {
  e_name : string;
  e_task : string;
  e_status : string;
  e_last_task_run : option (option TaskDoc);
  e_prev_task_runs : option (list (option TaskDoc))
}.
Record Embellished : Type := mkEmbellished {
  v_id : string;
  v_created_at : option Z;
  v_updated_at : option Z;
  v_status : string;
  v_steps_done : nat;
  v_total_steps : nat;
  v_steps : list EmbStep
}.

(** ** Class Workflow *)

(** [f'Workflow with id {workflow_id} is not found'] *)
Definition not_found_msg (workflow_id : string) : string :=
  String.append "Workflow with id " (String.append workflow_id " is not found").

Import AppOps.

Section Engine.

(** [json.loads] on a string: [None] when the string is not a JSON
    document. *)
Variable json_loads : string -> option pyval.

(** [json.loads(v)]: only strings are decoded. *)
Definition json_loads_val {S} (v : pyval) : M S pyval :=
  match v with
  | VStr s =>
      match json_loads s with
      | Some j => ret j
      | None => raise JSONDecodeError
      end
  | _ => raise TypeError
  end.

(** The loop of the constructor over [enumerate(steps)]. *)
Fixpoint check_steps {S} (steps : list Step) : M S unit :=
  match steps with
  | [] => ret tt
  | step :: rest =>
      assert_ (bool_decide (is_Some (name step))) ;;;
      step_name <- lift_res (getitem "name" (name step)) ;;
      assert_ (0 <? String.length step_name)%nat ;;;
      assert_ (bool_decide (is_Some (task step))) ;;;
      check_steps rest
  end.

(** [Workflow.__init__], after [self.app] and [self.wf_col] are set: what
    it leaves in [self.workflow]. A stored document always has its [_id]
    key, so that [if res] tests whether one was found. *)
Definition __init__ (workflow_id : option string)
    (steps : option (list Step)) (name_ : option string) : M App Doc :=
  match workflow_id with
  | Some workflow_id =>
      res <- find_one workflow_id ;;
      match res with
      | Some d => ret d
      | None =>
          raise (PyException (not_found_msg workflow_id))
      end
  | None =>
      match steps with
      | Some steps =>
          assert_ (0 <? length steps)%nat ;;;
          check_steps steps ;;;
          names <- for_each (fun step => lift_res (getitem "name" (name step))) steps ;;
          let duplicate_names := duplicates names in
          assert_ (length duplicate_names =? 0)%nat ;;;
          id <- uuid4 ;;
          now <- utcnow ;;
          let wf := {| _id := id; created_at := Some now; updated_at := None;
                       steps := steps; wf_name := name_ |} in
          insert_one wf ;;;
          ret wf
      | None => raise (PyException "Either workflow_id or steps should not be None")
      end
  end.

(** [Workflow(celery_app, workflow_id, steps, name)] *)
Definition new_Workflow (celery_app : App) (workflow_id : option string)
    (steps : option (list Step)) (name_ : option string) : res Workflow * App :=
  match __init__ workflow_id steps name_ celery_app with
  | (Ok d, a) => (Ok {| app := a; workflow := d |}, a)
  | (Raise e, a) => (Raise e, a)
  end.

(** [Workflow.start]: launches the task of the first step with the given
    args and kwargs and the keyword arguments [workflow_id] and [step]. *)
Definition start (args : list pyval) (kwargs : gmap string pyval) : M Workflow unit :=
  wf <- gets workflow ;;
  first_step <- lift_res (first_item (steps wf)) ;;
  let kwargs := <["workflow_id" := VStr (_id wf)]> kwargs in
  step_name <- lift_res (getitem "name" (name first_step)) ;;
  let kwargs := <["step" := VStr step_name]> kwargs in
  step_task <- lift_res (getitem "task" (task first_step)) ;;
  on_app (send_task step_task (Some args) kwargs).

(** [Workflow.get_step_status]: the status of the last task run of the
    step, PENDING when it has none. *)
Definition get_step_status (step : Step) : M Workflow string :=
  let task_runs := dict_get (task_runs step) [] in
  n <- lift_res (len task_runs) ;;
  if (0 <? n)%nat then
    last_run <- lift_res (last_item (default [] task_runs)) ;;
    on_app (backend_get_status (task_id last_run))
  else ret PENDING.

(** [Workflow.get_pending_step]: the index and status of the first step
    whose status is not SUCCESS; the statuses of all steps are read first. *)
Definition get_pending_step : M Workflow (option (nat * string)) :=
  wf <- gets workflow ;;
  statuses <- for_each (fun '(i, step) =>
                          status <- get_step_status step ;; ret (i, status))
                       (enumerate (steps wf)) ;;
  ret (find (fun s => negb (String.eqb s.2 SUCCESS)) statuses).

(** [Workflow.get_workflow_status] *)
Definition get_workflow_status : M Workflow string :=
  first_step_not_succeeded <- get_pending_step ;;
  match first_step_not_succeeded with
  | Some (step_idx, task_status) =>
      if (step_idx =? 0)%nat && String.eqb task_status PENDING then ret PENDING
      else if str_in task_status [STARTED; RETRY; PENDING] then ret STARTED
      else ret task_status
  | None => ret SUCCESS
  end.

(** The predicate of [dropwhile]: [step['name'] != step_name]. *)
Definition name_differs (step_name : string) (step : Step) : res bool :=
  match getitem "name" (name step) with
  | Ok n => Ok (negb (String.eqb n step_name))
  | Raise e => Raise e
  end.

(** [Workflow.get_step] returns the step object itself, which its callers
    update in place: here, the position of that step in
    [workflow['steps']], or [None]. *)
Definition get_step (step_name : string) : M Workflow (option nat) :=
  wf <- gets workflow ;;
  it <- lift_res (dropwhile (name_differs step_name) (steps wf)) ;;
  match it with
  | [] => ret None
  | _ :: _ => ret (Some (length (steps wf) - length it))
  end.

(** [Workflow.get_next_step]: the step after the first one of that name. *)
Definition get_next_step (step_name : string) : M Workflow (option Step) :=
  wf <- gets workflow ;;
  it <- lift_res (dropwhile (name_differs step_name) (steps wf)) ;;
  let skip_one_it := drop 1 it in
  ret (head skip_one_it).

(** [Workflow.get_task_instance]: the backend record of the task with
    [date_start] added and the result decoded when it can be. *)
Definition get_task_instance (task_id : string) (date_start : option Z)
    : M Workflow (option TaskDoc) :=
  task <- on_app (backend_find_one task_id) ;;
  match task with
  | Some task =>
      let task := {| t_id := t_id task; t_args := t_args task;
                     t_result := t_result task;
                     t_date_start := from_option Val Null date_start |} in
      match t_result task with
      | None | Some VNone => ret (Some task)
      | Some v =>
          try_except
            (j <- json_loads_val v ;;
             ret (Some {| t_id := t_id task; t_args := t_args task;
                          t_result := Some j;
                          t_date_start := t_date_start task |}))
            (fun e => ret (Some task))
      end
  | None => ret None
  end.

(** [Workflow.get_last_run_task_instance] *)
Definition get_last_run_task_instance (step : Step) : M Workflow (option TaskDoc) :=
  match dict_get (task_runs step) [] with
  | Some task_runs =>
      if (0 <? length task_runs)%nat then
        last_run <- lift_res (last_item task_runs) ;;
        get_task_instance (task_id last_run) (date_start last_run)
      else ret None
  | None => ret None
  end.

(** Reading and writing the step object at a position of
    [self.workflow['steps']]. *)
Definition step_at (i : nat) : M Workflow Step :=
  wf <- gets workflow ;;
  lift_res (list_getitem (steps wf) i).

Definition set_step_at (i : nat) (s : Step) : M Workflow unit :=
  modify (fun w => set_workflow (set_steps (<[i := s]> (steps (workflow w)))
                                           (workflow w)) w).

(** [Workflow.pause]: revokes the running task. The [print] is kept for
    the key it reads. *)
Definition pause : M Workflow PauseResult :=
  first_step_not_succeeded <- get_pending_step ;;
  match first_step_not_succeeded with
  | Some (i, status) =>
      if negb (str_in status [SUCCESS; FAILURE]) then
        step <- step_at i ;;
        match dict_get (task_runs step) [] with
        | Some task_runs =>
            if (0 <? length task_runs)%nat then
              last_run <- lift_res (last_item task_runs) ;;
              let task_id := task_id last_run in
              on_app (revoke task_id true) ;;;
              (* print(f'... {step["name"]}') *)
              _ <- lift_res (getitem "name" (name step)) ;;
              step_task <- lift_res (getitem "task" (task step)) ;;
              step_name <- lift_res (getitem "name" (name step)) ;;
              ret {| paused := true;
                     revoked_step := Some {| rv_task_id := task_id;
                                             rv_task := step_task;
                                             rv_name := step_name |} |}
            else ret {| paused := false; revoked_step := None |}
        | None => ret {| paused := false; revoked_step := None |}
        end
      else ret {| paused := false; revoked_step := None |}
  | None => ret {| paused := false; revoked_step := None |}
  end.

(** [Workflow.resume]: submits a new task for the step that failed or
    was revoked. *)
Definition resume (force : bool) (args : option (list pyval)) : M Workflow ResumeResult :=
  first_step_not_succeeded <- get_pending_step ;;
  match first_step_not_succeeded with
  | Some (i, status) =>
      if str_in status [FAILURE; REVOKED] || force then
        step <- step_at i ;;
        task_inst <- get_last_run_task_instance step ;;
        assert_ (negb (bool_decide (task_inst = None) && bool_decide (args = None))) ;;;
        task_args <- match task_inst with
                     | Some task_inst =>
                         a <- lift_res (getitem "args" (t_args task_inst)) ;;
                         ret (Some a)
                     | None => ret args
                     end ;;
        wf <- gets workflow ;;
        step_name <- lift_res (getitem "name" (name step)) ;;
        let kwargs : gmap string pyval :=
          <["step" := VStr step_name]> (<["workflow_id" := VStr (_id wf)]> ∅) in
        step_task <- lift_res (getitem "task" (task step)) ;;
        on_app (send_task step_task task_args kwargs) ;;;
        ret {| resumed := true;
               restarted_step := Some {| rs_name := step_name;
                                         rs_task := step_task |} |}
      else ret {| resumed := false; restarted_step := None |}
  | None => ret {| resumed := false; restarted_step := None |}
  end.

(** [Workflow.update]: writes the workflow object to the store. *)
Definition update : M Workflow unit :=
  now <- on_app utcnow ;;
  modify (fun w => set_workflow (set_updated_at (Some now) (workflow w)) w) ;;;
  wf <- gets workflow ;;
  on_app (update_one (_id wf) wf).

(** [Workflow.on_step_start]: records the task id and start date of a
    new run of the step. *)
Definition on_step_start (step_name : string) (task_id : string) : M Workflow unit :=
  step <- get_step step_name ;;
  match step with
  | None => raise AttributeError
  | Some i =>
      s <- step_at i ;;
      (* step['task_runs'] = step.get('task_runs', []) *)
      let task_runs := dict_get (task_runs s) [] in
      set_step_at i (set_task_runs (from_option Val Null task_runs) s) ;;;
      match task_runs with
      | None => raise AttributeError
      | Some task_runs =>
          now <- on_app utcnow ;;
          set_step_at i
            (set_task_runs
               (Val (task_runs ++ [{| task_id := task_id;
                                      date_start := Some now;
                                      end_time := None |}])) s)
      end ;;;
      update
  end.

(** [Workflow.on_step_success]: calls the next step, if there is one, with
    the first element of [retval]. *)
Definition on_step_success (retval : list pyval) (step_name : string) : M Workflow unit :=
  next_step <- get_next_step step_name ;;
  match next_step with
  | Some next_step =>
      if step_truthy next_step then
        wf <- gets workflow ;;
        next_name <- lift_res (getitem "name" (name next_step)) ;;
        let kwargs : gmap string pyval :=
          <["step" := VStr next_name]> (<["workflow_id" := VStr (_id wf)]> ∅) in
        next_task <- lift_res (getitem "task" (task next_step)) ;;
        retval0 <- lift_res (first_item retval) ;;
        on_app (send_task next_task (Some [retval0]) kwargs)
      else ret tt
  | None => ret tt
  end.

(** [Workflow.update_step_end_time] *)
Definition update_step_end_time (step_name : string) : M Workflow unit :=
  step <- get_step step_name ;;
  match step with
  | None => raise AttributeError
  | Some i =>
      s <- step_at i ;;
      let task_runs := dict_get (task_runs s) [] in
      n <- lift_res (len task_runs) ;;
      (if (0 <? n)%nat then
         now <- on_app utcnow ;;
         set_step_at i
           (set_task_runs
              (Val (alter_last (set_end_time (Some now)) (default [] task_runs))) s)
       else ret tt) ;;;
      update
  end.

(** [Workflow.refresh] *)
Definition refresh : M Workflow unit :=
  wf <- gets workflow ;;
  let workflow_id := _id wf in
  res <- on_app (find_one workflow_id) ;;
  match res with
  | Some d => modify (set_workflow d)
  | None => raise (PyException (not_found_msg workflow_id))
  end.

(** The body of the loop of [get_embellished_workflow]. *)
Definition embellish_step (last_task_run prev_task_runs : bool) (step : Step)
    : M Workflow EmbStep :=
  step_name <- lift_res (getitem "name" (name step)) ;;
  step_task <- lift_res (getitem "task" (task step)) ;;
  status <- get_step_status step ;;
  last <- (if last_task_run
           then inst <- get_last_run_task_instance step ;; ret (Some inst)
           else ret None) ;;
  prev <- (if prev_task_runs
           then match dict_get (task_runs step) [] with
                | Some task_runs =>
                    l <- for_each (fun t => get_task_instance (task_id t) (date_start t))
                                  (all_but_last task_runs) ;;
                    ret (Some l)
                | None => raise TypeError
                end
           else ret None) ;;
  ret {| e_name := step_name; e_task := step_task; e_status := status;
         e_last_task_run := last; e_prev_task_runs := prev |}.

(** [Workflow.get_embellished_workflow] *)
Definition get_embellished_workflow (last_task_run prev_task_runs : bool)
    : M Workflow Embellished :=
  refresh ;;;
  status <- get_workflow_status ;;
  pending <- get_pending_step ;;
  let pending_step_idx := fst <$> pending in
  wf <- gets workflow ;;
  steps <- for_each (embellish_step last_task_run prev_task_runs) (steps wf) ;;
  ret {| v_id := _id wf;
         v_created_at := created_at wf;
         v_updated_at := updated_at wf;
         v_status := status;
         v_steps_done := default (length steps) pending_step_idx;
         v_total_steps := length steps;
         v_steps := steps |}.

End Engine.

(** ** Reading the model: pure views of a workflow *)

(** The run records of a step, [[]] when the key is missing. *)
Definition step_runs (s : Step) : list TaskRun :=
  match task_runs s with Val l => l | _ => [] end.

(** The status of a step as the backend reports it for the latest run. *)
Definition derived_status (a : App) (s : Step) : string :=
  match last (step_runs s) with
  | Some r => get_status a (task_id r)
  | None => PENDING
  end.

(** No step holds [None] under [task_runs]. *)
Definition runs_ok (l : list Step) : Prop :=
  Forall (fun s => task_runs s <> Null) l.

(** What the constructor demands of a step list. *)
Definition step_ok (s : Step) : Prop :=
  match name s with
  | Some n => n <> "" /\ is_Some (task s)
  | None => False
  end.
Definition valid_steps (l : list Step) : Prop :=
  l <> [] /\ Forall step_ok l /\ NoDup (omap name l).

#[global] Instance runs_ok_dec (l : list Step) : Decision (runs_ok l).
Proof.
  apply Forall_dec. intros s.
  destruct (task_runs s); [left|right|left]; congruence.
Defined.

#[global] Instance step_ok_dec (s : Step) : Decision (step_ok s).
Proof. unfold step_ok. destruct (name s); apply _. Defined.

#[global] Instance valid_steps_dec (l : list Step) : Decision (valid_steps l).
Proof.
  unfold valid_steps. apply and_dec; [|apply _].
  destruct l; [right|left]; congruence.
Defined.

(** Step [i] is the pending step of [w], with status [st]. *)
Definition pending_at (w : Workflow) (i : nat) (s : Step) (st : string) : Prop :=
  steps (workflow w) !! i = Some s /\
  derived_status (app w) s = st /\
  st <> SUCCESS /\
  forall j s', j < i -> steps (workflow w) !! j = Some s' ->
               derived_status (app w) s' = SUCCESS.

Definition all_succeeded (w : Workflow) : Prop :=
  Forall (fun s => derived_status (app w) s = SUCCESS) (steps (workflow w)).

(** The engine's document is the stored one. *)
Definition in_sync (w : Workflow) : Prop :=
  wf_col (app w) !! _id (workflow w) = Some (workflow w).

(** [w] after one more call of [send_task] or of [revoke]. *)
Definition dispatched (t : string) (args : option (list pyval))
    (kwargs : gmap string pyval) (w : Workflow) : Workflow :=
  set_app (set_sent (sent (app w) ++ [mkSendTask t args kwargs]) (app w)) w.
Definition cancelled (tid : string) (w : Workflow) : Workflow :=
  set_app (set_revoked (revoked (app w) ++ [mkRevoke tid true]) (app w)) w.

(** The correlation fields of a dispatch. *)
Definition correlation (wf : Doc) (step_name : string)
    (kwargs : gmap string pyval) : gmap string pyval :=
  <["step" := VStr step_name]> (<["workflow_id" := VStr (_id wf)]> kwargs).

Definition not_paused : PauseResult := {| paused := false; revoked_step := None |}.
Definition not_resumed : ResumeResult := {| resumed := false; restarted_step := None |}.

(** The statuses of the steps of [w], in order. *)
Definition statuses (w : Workflow) : list string :=
  map (derived_status (app w)) (steps (workflow w)).

Definition not_success (s : nat * string) : bool := negb (String.eqb s.2 SUCCESS).

Definition decode_failed (json_loads : string -> option pyval) (v : pyval) : Prop :=
  match v with
  | VNone => False
  | VStr s => json_loads s = None
  | _ => True
  end.


Definition resumed_step (n t : string) : ResumeResult :=
  {| resumed := true; restarted_step := Some {| rs_name := n; rs_task := t |} |}.

(** The number of times [k] occurs in [items]. *)
Definition occ (k : string) (items : list string) : nat :=
  count_occ String.eq_dec items k.

(** Documents are stored under their own identifier. *)
Definition store_ok (a : App) : Prop :=
  forall id d, wf_col a !! id = Some d -> _id d = id.

(** [w'] has the document of [w] and the same stored documents. *)
Definition same_docs (w w' : Workflow) : Prop :=
  workflow w' = workflow w /\ wf_col (app w') = wf_col (app w).

Definition keeps_docs {A} (m : M Workflow A) : Prop :=
  forall w, same_docs w (m w).2.

(** ** The methods as operations on the engine *)

(** Every method of the class but the constructor. *)
Inductive op : Type :=
| OpStart (args : list pyval) (kwargs : gmap string pyval)
| OpPause
| OpResume (force : bool) (args : option (list pyval))
| OpOnStepStart (step_name task_id : string)
| OpOnStepSuccess (retval : list pyval) (step_name : string)
| OpUpdate
| OpUpdateStepEndTime (step_name : string)
| OpGetStepStatus (step : Step)
| OpGetPendingStep
| OpGetWorkflowStatus
| OpGetStep (step_name : string)
| OpGetNextStep (step_name : string)
| OpGetTaskInstance (task_id : string) (date_start : option Z)
| OpGetLastRunTaskInstance (step : Step)
| OpRefresh
| OpGetEmbellishedWorkflow (last_task_run prev_task_runs : bool).

(** The engine after a call of a method, whether it returned or raised. *)
Definition run (json_loads : string -> option pyval) (o : op) (w : Workflow) : Workflow :=
  match o with
  | OpStart args kwargs => (start args kwargs w).2
  | OpPause => (pause w).2
  | OpResume force args => (resume json_loads force args w).2
  | OpOnStepStart step_name task_id => (on_step_start step_name task_id w).2
  | OpOnStepSuccess retval step_name => (on_step_success retval step_name w).2
  | OpUpdate => (update w).2
  | OpUpdateStepEndTime step_name => (update_step_end_time step_name w).2
  | OpGetStepStatus step => (get_step_status step w).2
  | OpGetPendingStep => (get_pending_step w).2
  | OpGetWorkflowStatus => (get_workflow_status w).2
  | OpGetStep step_name => (get_step step_name w).2
  | OpGetNextStep step_name => (get_next_step step_name w).2
  | OpGetTaskInstance task_id date_start =>
      (get_task_instance json_loads task_id date_start w).2
  | OpGetLastRunTaskInstance step => (get_last_run_task_instance json_loads step w).2
  | OpRefresh => (refresh w).2
  | OpGetEmbellishedWorkflow l p => (get_embellished_workflow json_loads l p w).2
  end.

(** How a call of [o] may change one step: never its name or task; its
    run records only by one more record at the end ([on_step_start]) or by
    the [end_time] of the last record ([update_step_end_time]). *)
Definition step_evolves (o : op) (s s' : Step) : Prop :=
  name s' = name s /\ task s' = task s /\
  match o with
  | OpOnStepStart _ tid =>
      step_runs s' = step_runs s \/
      exists r, task_id r = tid /\ step_runs s' = step_runs s ++ [r]
  | OpUpdateStepEndTime _ =>
      step_runs s' = step_runs s \/
      exists init r t, step_runs s = init ++ [r] /\
                       step_runs s' = init ++ [set_end_time t r]
  | _ => s' = s
  end.


(** How a call of [o] may change a document: same identifier, same steps
    in the same order, each evolved as above. *)
Definition doc_evolves (o : op) (d d' : Doc) : Prop :=
  _id d' = _id d /\
  Forall2 (step_evolves o) (steps d) (steps d').

(** After the call the stored document is the engine's, and the other
    stored documents are untouched. *)
Definition store_follows (w w' : Workflow) : Prop :=
  in_sync w' /\
  forall id, id <> _id (workflow w) -> wf_col (app w') !! id = wf_col (app w) !! id.

(** How a call of [o] may change the engine and the store: the engine's
    document evolves; and when it was the stored document before the
    call, it is the stored document after it, so that the stored history
    evolves in the same way. *)
Definition evolves (o : op) (w w' : Workflow) : Prop :=
  doc_evolves o (workflow w) (workflow w') /\
  (in_sync w -> store_follows w w').

(** ** A workflow of three steps, at several moments of its life *)

Module Examples.

(** A decoder of the JSON literals, which rejects every other string. *)
Definition json_literals (s : string) : option pyval :=
  if String.eqb s "null" then Some VNone
  else if String.eqb s "true" then Some (VBool true)
  else if String.eqb s "false" then Some (VBool false)
  else None.

Definition step_a : Step := {| name := Some "a"; task := Some "t1"; task_runs := Absent |}.
Definition step_b : Step := {| name := Some "b"; task := Some "t2"; task_runs := Absent |}.
Definition step_c : Step := {| name := Some "c"; task := Some "t3"; task_runs := Absent |}.

Definition run_a : TaskRun := {| task_id := "r0"; date_start := Some 10%Z; end_time := None |}.
Definition run_b1 : TaskRun := {| task_id := "r1"; date_start := Some 11%Z; end_time := None |}.
Definition run_b2 : TaskRun := {| task_id := "r2"; date_start := Some 12%Z; end_time := None |}.

(** What the backend answers: [r0] succeeded, [r1] failed, [r2] is
    running, and the backend knows nothing of [r3]. *)
Definition status_of (tid : string) : string :=
  if String.eqb tid "r0" then SUCCESS
  else if String.eqb tid "r1" then FAILURE
  else if String.eqb tid "r2" then STARTED
  else PENDING.

(** The record of [r1]: its arguments, and a result that is not JSON. *)
Definition rec_r1 : TaskDoc :=
  {| t_id := "r1"; t_args := Some [VInt 7]; t_result := Some (VStr "{");
     t_date_start := Absent |}.

Definition mk_doc (l : list Step) : Doc :=
  {| _id := "wf1"; created_at := Some 1%Z; updated_at := None;
     steps := l; wf_name := Some "demo" |}.

Definition mk_engine (l : list Step) : Workflow :=
  {| app := {| wf_col := {[ "wf1" := mk_doc l ]};
               backend_col := {[ "r1" := rec_r1 ]};
               get_status := status_of;
               sent := []; revoked := [];
               clock := fun n => Z.of_nat (100 + n); clock_n := 0;
               uuids := fun n => if (n =? 0)%nat then "wf2" else "wf3";
               uuids_n := 0 |};
     workflow := mk_doc l |}.

(** just created *)
Definition w_new : Workflow := mk_engine [step_a; step_b; step_c].
(** [a] succeeded, the only run of [b] failed *)
Definition step_b_failed : Step := set_task_runs (Val [run_b1]) step_b.
Definition w_failed : Workflow :=
  mk_engine [set_task_runs (Val [run_a]) step_a; step_b_failed; step_c].
(** [a] succeeded, [b] failed once and is running again *)
Definition step_b_running : Step := set_task_runs (Val [run_b1; run_b2]) step_b.
Definition w_running : Workflow :=
  mk_engine [set_task_runs (Val [run_a]) step_a; step_b_running; step_c].
(** a workflow of one step, which succeeded *)
Definition w_done : Workflow := mk_engine [set_task_runs (Val [run_a]) step_a].
(** an engine that was loaded before [a] and [b] ran, while the store has
    moved on to the document of [w_failed] *)
Definition w_stale : Workflow :=
  {| app := app w_failed; workflow := mk_doc [step_a; step_b; step_c] |}.
(** the run records of each step of the document stored under ["wf1"] *)
Definition stored_runs (w : Workflow) : option (list (list TaskRun)) :=
  (fun d => map step_runs (steps d)) <$> wf_col (app w) !! "wf1".

End Examples.

Import Examples.

(** ** Class WorkflowTask *)

(** A call [self.update_state(state=..., meta=...)]. *)
Record StateUpdate : Type := mkStateUpdate {
  su_state : string;
  su_meta : pyval
}.

(** An instance of class [WorkflowTask]: [self.app]; [self.workflow],
    which is [None] or a [Workflow] on the same application, kept here as
    its document; [self.request.called_directly]; and the log of the calls
    of [self.update_state], oldest first. *)
Record WorkflowTask : Type := mkWorkflowTask {
  wt_app : App;
  wt_workflow : option Doc;
  called_directly : bool;
  state_updates : list StateUpdate
}.

(** The keyword arguments of a task as the hooks read them: whether the
    keys [workflow_id] and [step] are there, and the strings they hold
    (identifiers and step names are strings throughout the model). *)
Record TaskKwargs : Type := mkTaskKwargs {
  kw_workflow_id : option string;
  kw_step : option string
}.

(** The string under a key that may be missing; undefined when the key
    holds something else than a string. *)
Definition str_under (v : option pyval) : option (option string) :=
  match v with
  | None => Some None
  | Some (VStr x) => Some (Some x)
  | Some _ => None
  end.

(** The reading of the keyword arguments of a sent task; it is undefined
    when a correlation key holds something else than a string. *)
Definition task_kwargs (kwargs : gmap string pyval) : option TaskKwargs :=
  match str_under (kwargs !! "workflow_id"), str_under (kwargs !! "step") with
  | Some wid, Some st => Some {| kw_workflow_id := wid; kw_step := st |}
  | _, _ => None
  end.

(** [WorkflowTask.__init__] on an application, run by a worker or called
    directly. *)
Definition new_WorkflowTask (celery_app : App) (directly : bool) : WorkflowTask :=
  {| wt_app := celery_app; wt_workflow := None; called_directly := directly;
     state_updates := [] |}.

(** [self.update_state(state=state, meta=meta)] *)
Definition update_state (state : string) (meta : pyval) : M WorkflowTask unit :=
  modify (fun t => {| wt_app := wt_app t; wt_workflow := wt_workflow t;
                      called_directly := called_directly t;
                      state_updates := state_updates t ++ [mkStateUpdate state meta] |}).

(** [WorkflowTask.update_progress] *)
Definition update_progress (progress_obj : pyval) : M WorkflowTask unit :=
  directly <- gets called_directly ;;
  if negb directly then update_state PROGRESS progress_obj else ret tt.

(** [self.workflow = Workflow(self.app, workflow_id)]: nothing is
    assigned when the constructor raises. *)
Definition load_workflow (workflow_id : string) : M WorkflowTask unit :=
  fun t => match new_Workflow (wt_app t) (Some workflow_id) None None with
           | (Ok w, a) =>
               (Ok tt, {| wt_app := a; wt_workflow := Some (workflow w);
                          called_directly := called_directly t;
                          state_updates := state_updates t |})
           | (Raise e, a) =>
               (Raise e, {| wt_app := a; wt_workflow := wt_workflow t;
                            called_directly := called_directly t;
                            state_updates := state_updates t |})
           end.

(** A call of a method of [self.workflow]: an [AttributeError] when
    [self.workflow] is [None]; otherwise the method runs on the task's
    application and leaves its effects there. *)
Definition on_workflow {A} (m : M Workflow A) : M WorkflowTask A :=
  fun t => match wt_workflow t with
           | None => (Raise AttributeError, t)
           | Some d =>
               match m {| app := wt_app t; workflow := d |} with
               | (r, w) =>
                   (r, {| wt_app := app w; wt_workflow := Some (workflow w);
                          called_directly := called_directly t;
                          state_updates := state_updates t |})
               end
           end.

(** [WorkflowTask.before_start] *)
Definition before_start (task_id : string) (args : list pyval)
    (kwargs : TaskKwargs) : M WorkflowTask unit :=
  update_progress (VDict []) ;;;
  match kw_workflow_id kwargs, kw_step kwargs with
  | Some workflow_id, Some step =>
      load_workflow workflow_id ;;;
      on_workflow (on_step_start step task_id)
  | _, _ => ret tt
  end.

(** [WorkflowTask.on_success] *)
Definition on_success (retval : list pyval) (task_id : string)
    (args : list pyval) (kwargs : TaskKwargs) : M WorkflowTask unit :=
  match kw_workflow_id kwargs, kw_step kwargs with
  | Some workflow_id, Some step =>
      on_workflow (on_step_success retval step)
  | _, _ => ret tt
  end.

(** ** More views of the model *)

(** A method that leaves the engine, its application included, exactly as
    it was. *)
Definition reads_only {A} (m : M Workflow A) : Prop :=
  forall w, (m w).2 = w.

(** The engine after a sequence of calls, in order. *)
Definition run_all (json_loads : string -> option pyval) (ops : list op)
    (w : Workflow) : Workflow :=
  fold_left (fun w o => run json_loads o w) ops w.

(** [rs'] continues the history [rs]: no record is lost, the records
    before the last of [rs] are the same in [rs'], and the last one keeps
    its task id and start date. *)
Definition history_extends (rs rs' : list TaskRun) : Prop :=
  length rs <= length rs' /\
  (forall j r, S j < length rs -> rs !! j = Some r -> rs' !! j = Some r) /\
  (forall j r, rs !! j = Some r ->
               exists r', rs' !! j = Some r' /\
                          task_id r' = task_id r /\ date_start r' = date_start r).

(** The same steps, by name and task, each with a continued history. *)
Definition steps_extend (l l' : list Step) : Prop :=
  Forall2 (fun s s' => name s' = name s /\ task s' = task s /\
                       history_extends (step_runs s) (step_runs s')) l l'.

(** The document of [w] with one more run record on step [i], as
    [on_step_start] leaves it when the clock reads [t1] then [t2]. *)
Definition with_new_run (d : Doc) (i : nat) (s : Step) (tid : string)
    (t1 t2 : Z) : Doc :=
  set_updated_at (Some t2)
    (set_steps (<[i := set_task_runs
                         (Val (step_runs s ++ [{| task_id := tid;
                                                  date_start := Some t1;
                                                  end_time := None |}])) s]>
                  (steps d)) d).

(** The document of [w] with the end time of the last run record of step
    [i] set, as [update_step_end_time] leaves it. *)
Definition with_end_time (d : Doc) (i : nat) (s : Step) (t1 t2 : Z) : Doc :=
  set_updated_at (Some t2)
    (set_steps (<[i := set_task_runs
                         (Val (alter_last (set_end_time (Some t1)) (step_runs s))) s]>
                  (steps d)) d).

(** What the loop of the view makes of one step. *)
Definition embellished (json_loads : string -> option pyval) (l p : bool)
    (w : Workflow) (s : Step) (e : EmbStep) : Prop :=
  Some (e_name e) = name s /\
  Some (e_task e) = task s /\
  e_status e = derived_status (app w) s /\
  (if l
   then exists o, get_last_run_task_instance json_loads s w = (Ok o, w) /\
                  e_last_task_run e = Some o
   else e_last_task_run e = None) /\
  (if p
   then exists prev, e_prev_task_runs e = Some prev /\
                     length prev = length (step_runs s) - 1
   else e_prev_task_runs e = None).

(** The application after [n] readings of the clock. *)
Definition after_ticks (n : nat) (a : App) : App := Nat.iter n tick_clock a.

(** The task ids of the run records of each step of a document. *)
Definition run_ids (d : Doc) : list (list string) :=
  map (fun s => map task_id (step_runs s)) (steps d).

(** ** More example engines and tasks *)

Module MoreExamples.

(** a step that holds [None] under [task_runs] *)
Definition w_null : Workflow := mk_engine [step_a; set_task_runs Null step_b].

(** The record of [r1] when the backend keeps no arguments, with a result
    that is JSON. *)
Definition rec_noargs : TaskDoc :=
  {| t_id := "r1"; t_args := None; t_result := Some (VStr "true");
     t_date_start := Absent |}.

(** [w_failed] on a backend that holds [rec_noargs] *)
Definition w_noargs : Workflow :=
  {| app := {| wf_col := wf_col (app w_failed);
               backend_col := {[ "r1" := rec_noargs ]};
               get_status := status_of;
               sent := []; revoked := [];
               clock := clock (app w_failed); clock_n := 0;
               uuids := uuids (app w_failed); uuids_n := 0 |};
     workflow := workflow w_failed |}.

(** an engine that was loaded before any step ran, while the store has
    moved on to the document of [w_running] *)
Definition w_behind : Workflow :=
  {| app := app w_running; workflow := mk_doc [step_a; step_b; step_c] |}.

(** an engine whose document is under no key of the store *)
Definition w_gone : Workflow :=
  {| app := app w_new;
     workflow := {| _id := "gone"; created_at := None; updated_at := None;
                    steps := [step_a]; wf_name := None |} |}.

(** the creation of a workflow of three steps on the application of
    [w_new], and what it returns *)
Definition creation : res Workflow * App :=
  new_Workflow (app w_new) None (Some [step_a; step_b; step_c]) (Some "two").
Definition a_created : App := creation.2.
Definition w_created : Workflow :=
  match creation.1 with
  | Ok w => w
  | Raise _ => w_new
  end.

(** a task object of a worker on the application of [w_failed], before
    any hook ran *)
Definition task_fresh : WorkflowTask := new_WorkflowTask (app w_failed) false.
(** a task object that holds the workflow of [w_new] *)
Definition task_new : WorkflowTask :=
  {| wt_app := app w_new; wt_workflow := Some (workflow w_new);
     called_directly := false; state_updates := [] |}.

End MoreExamples.

Import MoreExamples.

(** ** Basic facts *)

Lemma set_app_id (w : Workflow) : set_app (app w) w = w.
Proof. by destruct w. Qed.

Lemma set_workflow_id (w : Workflow) : set_workflow (workflow w) w = w.
Proof. by destruct w. Qed.

Lemma on_app_gets {A} (f : App -> A) (w : Workflow) :
  on_app (gets f) w = (Ok (f (app w)), w).
Proof. unfold on_app, gets. by rewrite set_app_id. Qed.

Lemma bind_ok {S A B} (m : M S A) (k : A -> M S B) (s s' : S) (a : A) :
  m s = (Ok a, s') -> bind m k s = k a s'.
Proof. intros H. unfold bind. by rewrite H. Qed.

Lemma bind_raise {S A B} (m : M S A) (k : A -> M S B) (s s' : S) (e : exn) :
  m s = (Raise e, s') -> bind m k s = (Raise e, s').
Proof. intros H. unfold bind. by rewrite H. Qed.

Lemma gets_eq {S A} (f : S -> A) (s : S) : gets f s = (Ok (f s), s).
Proof. done. Qed.

Lemma lift_res_ok {S A} (r : res A) (a : A) (s : S) :
  r = Ok a -> lift_res r s = (Ok a, s).
Proof. by intros ->. Qed.

Lemma getitem_some {S A} (key : string) (o : option A) (a : A) (s : S) :
  o = Some a -> lift_res (getitem key o) s = (Ok a, s).
Proof. by intros ->. Qed.

(** One statement of a method ran and returned: go on with the next. *)
Ltac mstep tac := erewrite bind_ok by tac; cbv beta iota.
Ltac mgets := rewrite (bind_ok _ _ _ _ _ (gets_eq _ _)); cbv beta iota.

Lemma str_eqb_false (x y : string) : x <> y -> String.eqb x y = false.
Proof. intros H. by apply String.eqb_neq. Qed.

Lemma last_item_snoc {A} (l : list A) (x : A) : last_item (l ++ [x]) = Ok x.
Proof. unfold last_item. by rewrite last_snoc. Qed.

Lemma length_snoc_pos {A} (l : list A) (x : A) : (0 <? length (l ++ [x]))%nat = true.
Proof. rewrite length_app. simpl. apply Nat.ltb_lt. lia. Qed.

Lemma for_each_pure {S A B} (f : A -> M S B) (g : A -> B) (l : list A) (s : S) :
  (forall x, x ∈ l -> f x s = (Ok (g x), s)) ->
  for_each f l s = (Ok (map g l), s).
Proof.
  induction l as [|x l IH]; intros Hf; simpl; [done|].
  unfold bind. rewrite Hf by left. rewrite IH; [done|].
  intros y Hy. apply Hf. by right.
Qed.

Lemma enumerate_from_map {A B} (g : A -> B) (k : nat) (l : list A) :
  map (fun p : nat * A => (p.1, g p.2)) (enumerate_from k l)
  = enumerate_from k (map g l).
Proof. revert k. induction l as [|x l IH]; intros k; simpl; [done|]. by rewrite IH. Qed.

Lemma elem_of_enumerate_from {A} (k : nat) (l : list A) (p : nat * A) :
  p ∈ enumerate_from k l -> p.2 ∈ l.
Proof.
  revert k. induction l as [|x l IH]; intros k; simpl.
  - by intros ?%elem_of_nil.
  - intros [->|H]%elem_of_cons; [left|right; eauto].
Qed.

Lemma find_enumerate_none (k : nat) (sts : list string) :
  Forall (fun st => st = SUCCESS) sts ->
  find not_success (enumerate_from k sts) = None.
Proof.
  revert k. induction sts as [|st sts IH]; intros k H; simpl; [done|].
  inversion H as [|? ? Hst Hrest]; subst. unfold not_success at 1. simpl.
  by rewrite IH.
Qed.

Lemma find_enumerate_first (k i : nat) (sts : list string) (st : string) :
  sts !! i = Some st -> st <> SUCCESS ->
  (forall j st', j < i -> sts !! j = Some st' -> st' = SUCCESS) ->
  find not_success (enumerate_from k sts) = Some (k + i, st).
Proof.
  revert k i. induction sts as [|x sts IH]; intros k i Hi Hne Hbefore; [done|].
  destruct i as [|i]; simpl in *.
  - injection Hi as ->. unfold not_success. simpl.
    rewrite str_eqb_false by done. simpl. by rewrite Nat.add_0_r.
  - assert (x = SUCCESS) as -> by (apply (Hbefore 0); [lia|done]).
    unfold not_success at 1. simpl.
    rewrite (IH (S k) i Hi Hne).
    + do 2 f_equal. lia.
    + intros j st' Hj Hl. apply (Hbefore (S j)); [lia|done].
Qed.

(** ** Status derivation *)

Lemma get_step_status_ok (w : Workflow) (s : Step) :
  task_runs s <> Null ->
  get_step_status s w = (Ok (derived_status (app w) s), w).
Proof.
  intros Hs. unfold get_step_status, derived_status, step_runs.
  destruct (task_runs s) as [| |rs] eqn:E; [done|done|]; simpl.
  - unfold bind, lift_res. simpl.
    destruct rs as [|r rs _] using rev_ind; [done|].
    rewrite length_snoc_pos, last_item_snoc, last_snoc.
    unfold backend_get_status. apply on_app_gets.
Qed.

Lemma get_step_status_null (w : Workflow) (s : Step) :
  task_runs s = Null -> get_step_status s w = (Raise TypeError, w).
Proof. intros Hs. unfold get_step_status. by rewrite Hs. Qed.

Lemma get_pending_step_find (w : Workflow) :
  runs_ok (steps (workflow w)) ->
  get_pending_step w = (Ok (find not_success (enumerate (statuses w))), w).
Proof.
  intros Hok. unfold get_pending_step, bind, gets.
  rewrite (for_each_pure _ (fun p => (p.1, derived_status (app w) p.2))).
  - unfold ret, enumerate, statuses. by rewrite enumerate_from_map.
  - intros [i s] Hin. unfold bind. rewrite get_step_status_ok; [done|].
    apply elem_of_enumerate_from in Hin. simpl in Hin.
    unfold runs_ok in Hok. rewrite Forall_forall in Hok. by apply Hok.
Qed.

Lemma get_pending_step_none (w : Workflow) :
  runs_ok (steps (workflow w)) -> all_succeeded w ->
  get_pending_step w = (Ok None, w).
Proof.
  intros Hok Hall. rewrite get_pending_step_find by done.
  unfold enumerate. rewrite find_enumerate_none; [done|].
  unfold statuses. by apply Forall_map.
Qed.

Lemma get_pending_step_at (w : Workflow) (i : nat) (s : Step) (st : string) :
  runs_ok (steps (workflow w)) -> pending_at w i s st ->
  get_pending_step w = (Ok (Some (i, st)), w).
Proof.
  intros Hok (Hi & Hst & Hne & Hbefore). rewrite get_pending_step_find by done.
  unfold enumerate. rewrite (find_enumerate_first 0 i _ st); [done| |done|].
  - unfold statuses. by rewrite list_lookup_fmap, Hi; simpl; rewrite Hst.
  - intros j st' Hj. unfold statuses. rewrite list_lookup_fmap.
    destruct (steps (workflow w) !! j) as [s'|] eqn:E; simpl; [|done].
    intros [= <-]. by apply (Hbefore j).
Qed.

Lemma str_in_true (x : string) (l : list string) : x ∈ l -> str_in x l = true.
Proof.
  intros H. unfold str_in. apply existsb_exists. exists x. split.
  - by apply list_elem_of_In.
  - apply String.eqb_refl.
Qed.

Lemma str_in_false (x : string) (l : list string) : x ∉ l -> str_in x l = false.
Proof.
  intros H. unfold str_in. apply not_true_is_false. intros E.
  apply existsb_exists in E as (y & Hy & Heq). apply String.eqb_eq in Heq as ->.
  by apply H, list_elem_of_In.
Qed.


(** ** Pause *)

Lemma step_at_lookup (w : Workflow) (i : nat) (s : Step) :
  steps (workflow w) !! i = Some s -> step_at i w = (Ok s, w).
Proof.
  intros H. unfold step_at, bind, gets, lift_res, list_getitem. by rewrite H.
Qed.

Lemma dict_get_runs (s : Step) :
  task_runs s <> Null -> dict_get (task_runs s) [] = Some (step_runs s).
Proof. unfold step_runs. by destruct (task_runs s). Qed.

Lemma pending_at_lookup (w : Workflow) i s st :
  pending_at w i s st -> steps (workflow w) !! i = Some s.
Proof. by intros (? & _). Qed.

Lemma pending_runs_ok (w : Workflow) i s st :
  runs_ok (steps (workflow w)) -> pending_at w i s st -> task_runs s <> Null.
Proof.
  intros Hok (Hi & _). unfold runs_ok in Hok. rewrite Forall_forall in Hok.
  apply Hok. by apply list_elem_of_lookup_2 in Hi.
Qed.

Lemma not_elem_of_pair (x a b : string) : x <> a -> x <> b -> x ∉ [a; b].
Proof.
  intros Ha Hb [->|H]%elem_of_cons; [done|].
  apply elem_of_cons in H as [->|H]; [done|]. by apply elem_of_nil in H.
Qed.

Lemma on_app_revoke (tid : string) (w : Workflow) :
  on_app (revoke tid true) w = (Ok tt, cancelled tid w).
Proof. done. Qed.

Lemma on_app_send_task t args kwargs (w : Workflow) :
  on_app (send_task t args kwargs) w = (Ok tt, dispatched t args kwargs w).
Proof. done. Qed.


(** ** Resume *)

Section ResumeFacts.

Variable json_loads : string -> option pyval.

Lemma get_task_instance_none (tid : string) (ds : option Z) (w : Workflow) :
  backend_col (app w) !! tid = None ->
  get_task_instance json_loads tid ds w = (Ok None, w).
Proof.
  intros H. unfold get_task_instance.
  mstep ltac:(apply on_app_gets). by rewrite H.
Qed.

Lemma get_task_instance_some (tid : string) (ds : option Z) (w : Workflow)
    (rec : TaskDoc) :
  backend_col (app w) !! tid = Some rec ->
  exists inst,
    get_task_instance json_loads tid ds w = (Ok (Some inst), w) /\
    t_id inst = t_id rec /\ t_args inst = t_args rec /\
    t_date_start inst = from_option Val Null ds.
Proof.
  intros H. unfold get_task_instance.
  mstep ltac:(apply on_app_gets). rewrite H. cbv beta iota zeta.
  cbn [t_result t_id t_args t_date_start].
  destruct (t_result rec) as [v|]; [|by eexists].
  destruct v as [|b|z|str|l|kv]; try by eexists.
  unfold try_except, json_loads_val, bind.
  destruct (json_loads str); by eexists.
Qed.

Lemma get_last_run_none (s : Step) (w : Workflow) :
  step_runs s = [] -> get_last_run_task_instance json_loads s w = (Ok None, w).
Proof.
  unfold step_runs, get_last_run_task_instance.
  destruct (task_runs s) as [| |rs]; [done|done|]. by intros ->.
Qed.

Lemma get_last_run_snoc (s : Step) (w : Workflow) rs r :
  step_runs s = rs ++ [r] ->
  get_last_run_task_instance json_loads s w
  = get_task_instance json_loads (task_id r) (date_start r) w.
Proof.
  unfold step_runs, get_last_run_task_instance.
  destruct (task_runs s) as [| |l]; simpl;
    [by destruct rs|by destruct rs|intros ->].
  rewrite length_snoc_pos.
  mstep ltac:(apply lift_res_ok, last_item_snoc). done.
Qed.


Lemma eligible_test (st : string) (force : bool) :
  st = FAILURE \/ st = REVOKED \/ force = true ->
  str_in st [FAILURE; REVOKED] || force = true.
Proof.
  intros [->|[->| ->]]; [done|done|apply orb_true_r].
Qed.

(** The run of [resume] once the pending step is eligible and its last
    run, if any, has been looked up. *)
Lemma resume_eligible (w : Workflow) (force : bool) (args : option (list pyval))
    i s st (inst : option TaskDoc) :
  runs_ok (steps (workflow w)) -> pending_at w i s st ->
  st = FAILURE \/ st = REVOKED \/ force = true ->
  get_last_run_task_instance json_loads s w = (Ok inst, w) ->
  resume json_loads force args w =
  (assert_ (negb (bool_decide (inst = None) && bool_decide (args = None))) ;;;
   task_args <- match inst with
                | Some task_inst =>
                    a <- lift_res (getitem "args" (t_args task_inst)) ;; ret (Some a)
                | None => ret args
                end ;;
   wf <- gets workflow ;;
   step_name <- lift_res (getitem "name" (name s)) ;;
   step_task <- lift_res (getitem "task" (task s)) ;;
   on_app (send_task step_task task_args (correlation wf step_name ∅)) ;;;
   ret (resumed_step step_name step_task)) w.
Proof.
  intros Hok Hp Hel Hinst. unfold resume at 1.
  mstep ltac:(by apply (get_pending_step_at w i s st)).
  rewrite eligible_test by done.
  mstep ltac:(by apply step_at_lookup, (pending_at_lookup w i s st)).
  mstep ltac:(exact Hinst). done.
Qed.

End ResumeFacts.



(** ** Start and the after-success hook *)

(** C8. [start(args, kwargs)] sends the task of the first step with
    [args] and with [kwargs] extended by [workflow_id] and by [step], the
    name of the first step. It does so whatever the backend reports about
    the steps (no status is read), and it leaves the document store and
    the engine's document as they were: the only change is the one call
    of [send_task]. *)
Theorem start_spec (w : Workflow) (args : list pyval) (kwargs : gmap string pyval)
    (s : Step) (rest : list Step) (n t : string) :
  steps (workflow w) = s :: rest ->
  name s = Some n -> task s = Some t ->
  start args kwargs w
  = (Ok tt, dispatched t (Some args) (correlation (workflow w) n kwargs) w) /\
  wf_col (app (start args kwargs w).2) = wf_col (app w) /\
  workflow (start args kwargs w).2 = workflow w /\
  sent (app (start args kwargs w).2)
  = sent (app w) ++ [mkSendTask t (Some args) (correlation (workflow w) n kwargs)].
Proof.
  intros Hsteps Hn Ht.
  assert (start args kwargs w
          = (Ok tt, dispatched t (Some args) (correlation (workflow w) n kwargs) w))
    as Heq.
  { unfold start. mgets. rewrite Hsteps.
    mstep ltac:(by apply lift_res_ok).
    mstep ltac:(by apply getitem_some). mstep ltac:(by apply getitem_some).
    apply on_app_send_task. }
  rewrite Heq. done.
Qed.

Lemma name_differs_ne (step_name n : string) (s : Step) :
  name s = Some n -> n <> step_name -> name_differs step_name s = Ok true.
Proof.
  intros Hn Hne. unfold name_differs. rewrite Hn. simpl.
  by rewrite str_eqb_false.
Qed.

Lemma name_differs_eq (step_name : string) (s : Step) :
  name s = Some step_name -> name_differs step_name s = Ok false.
Proof.
  intros Hn. unfold name_differs. rewrite Hn. simpl.
  by rewrite String.eqb_refl.
Qed.

Lemma dropwhile_name_at (l : list Step) (i : nat) (s : Step) (step_name : string) :
  Forall step_ok l -> NoDup (omap name l) ->
  l !! i = Some s -> name s = Some step_name ->
  dropwhile (name_differs step_name) l = Ok (drop i l).
Proof.
  revert i. induction l as [|x l IH]; intros i Hall Hnd Hi Hn; [done|].
  destruct i as [|i]; simpl in *.
  - injection Hi as ->. by rewrite name_differs_eq.
  - inversion Hall as [|? ? Hx Hl]; subst.
    unfold step_ok in Hx. destruct (name x) as [nx|] eqn:Ex; [|done].
    apply NoDup_cons in Hnd as [Hnotin Hnd].
    assert (nx <> step_name) as Hne.
    { intros ->. apply Hnotin, list_elem_of_omap. exists s.
      split; [by apply list_elem_of_lookup_2 in Hi|done]. }
    rewrite (name_differs_ne step_name nx) by done.
    by apply IH.
Qed.

Lemma get_next_step_at (w : Workflow) (i : nat) (s : Step) (step_name : string) :
  valid_steps (steps (workflow w)) ->
  steps (workflow w) !! i = Some s -> name s = Some step_name ->
  get_next_step step_name w = (Ok (steps (workflow w) !! S i), w).
Proof.
  intros (_ & Hall & Hnd) Hi Hn. unfold get_next_step. mgets.
  mstep ltac:(apply lift_res_ok; by apply (dropwhile_name_at _ i s)).
  unfold ret. rewrite drop_drop, head_lookup, lookup_drop.
  do 3 f_equal. lia.
Qed.

Lemma step_truthy_named (s : Step) (n : string) : name s = Some n -> step_truthy s = true.
Proof. unfold step_truthy. by intros ->. Qed.

(** C5. The after-success hook, called with the name of the step at
    position [i] and its return value: when a step follows, its task is
    sent with the first element of the return value as the only
    positional argument and with [workflow_id] and [step] (the name of
    that next step) as keyword arguments; when the step is the last one,
    nothing is sent. *)
Theorem on_step_success_spec (w : Workflow) (step_name : string) (i : nat) (s : Step) :
  valid_steps (steps (workflow w)) ->
  steps (workflow w) !! i = Some s ->
  name s = Some step_name ->
  (forall nxt n t v rest,
     steps (workflow w) !! S i = Some nxt ->
     name nxt = Some n -> task nxt = Some t ->
     on_step_success (v :: rest) step_name w
     = (Ok tt, dispatched t (Some [v]) (correlation (workflow w) n ∅) w)) /\
  (length (steps (workflow w)) = S i ->
   forall retval, on_step_success retval step_name w = (Ok tt, w)).
Proof.
  intros Hvalid Hi Hn. split.
  - intros nxt n t v rest Hnxt Hnn Hnt. unfold on_step_success.
    mstep ltac:(by apply (get_next_step_at w i s)). rewrite Hnxt.
    rewrite (step_truthy_named _ _ Hnn). mgets.
    mstep ltac:(by apply getitem_some). mstep ltac:(by apply getitem_some).
    mstep ltac:(by apply lift_res_ok).
    apply on_app_send_task.
  - intros Hlen retval. unfold on_step_success.
    mstep ltac:(by apply (get_next_step_at w i s)).
    rewrite lookup_ge_None_2 by lia. done.
Qed.

(** ** The helper [duplicates] *)

Lemma counter_get_incr (k k' : string) (c : list (string * nat)) :
  counter_get k (counter_incr k' c)
  = if String.eqb k k' then S (counter_get k c) else counter_get k c.
Proof.
  induction c as [|[k0 n] c IH]; simpl.
  - by destruct (String.eqb k k').
  - destruct (String.eqb k' k0) eqn:E0; simpl.
    + apply String.eqb_eq in E0 as ->. by destruct (String.eqb k k0).
    + rewrite IH. destruct (String.eqb k k0) eqn:E1; [|done].
      apply String.eqb_eq in E1 as ->.
      rewrite String.eqb_sym in E0. by rewrite E0.
Qed.

Lemma counter_get_fold (k : string) (items : list string) (c : list (string * nat)) :
  counter_get k (fold_left (fun c k => counter_incr k c) items c)
  = occ k items + counter_get k c.
Proof.
  revert c. induction items as [|x items IH]; intros c; simpl; [done|].
  rewrite IH, counter_get_incr. unfold occ. simpl.
  destruct (String.eq_dec x k) as [->|Hne].
  - rewrite String.eqb_refl. lia.
  - rewrite str_eqb_false by done. done.
Qed.

Lemma counter_get_Counter (k : string) (items : list string) :
  counter_get k (Counter items) = occ k items.
Proof. unfold Counter. rewrite counter_get_fold. simpl. lia. Qed.

Lemma counter_incr_keys (k : string) (c : list (string * nat)) :
  ((k ∈ map fst c) /\ map fst (counter_incr k c) = map fst c) \/
  ((k ∉ map fst c) /\ map fst (counter_incr k c) = map fst c ++ [k]).
Proof.
  induction c as [|[k0 n] c IH]; simpl.
  - right. split; [apply not_elem_of_nil|done].
  - destruct (String.eqb k k0) eqn:E; simpl.
    + apply String.eqb_eq in E as ->. left. split; [left|done].
    + apply String.eqb_neq in E.
      destruct IH as [[Hin Heq]|[Hnin Heq]]; rewrite Heq.
      * left. split; [by right|done].
      * right. split; [|done].
        intros [->|H]%elem_of_cons; [done|by apply Hnin].
Qed.

Lemma Counter_keys (items : list string) (c : list (string * nat)) :
  NoDup (map fst c) ->
  let c' := fold_left (fun c k => counter_incr k c) items c in
  NoDup (map fst c') /\
  forall k, k ∈ map fst c' <-> k ∈ items \/ k ∈ map fst c.
Proof.
  revert c. induction items as [|x items IH]; intros c Hnd; simpl.
  - split; [done|]. intros k. split; [by right|].
    intros [H|H]; [by apply elem_of_nil in H|done].
  - destruct (counter_incr_keys x c) as [[Hin Heq]|[Hnin Heq]].
    + destruct (IH (counter_incr x c)) as [Hnd' Hkeys];
        [by rewrite Heq|].
      split; [done|]. intros k. rewrite Hkeys, Heq, elem_of_cons.
      split; [tauto|]. intros [[->|H]|H]; tauto.
    + destruct (IH (counter_incr x c)) as [Hnd' Hkeys].
      { rewrite Heq. apply NoDup_app. split; [done|]. split.
        - intros y Hy Hy'. apply list_elem_of_singleton in Hy' as ->. done.
        - apply NoDup_singleton. }
      split; [done|]. intros k.
      rewrite Hkeys, Heq, elem_of_app, list_elem_of_singleton, elem_of_cons.
      tauto.
Qed.

Lemma counter_entry (c : list (string * nat)) (k : string) (n : nat) :
  NoDup (map fst c) ->
  (k, n) ∈ c <-> (k ∈ map fst c) /\ counter_get k c = n.
Proof.
  induction c as [|[k0 n0] c IH]; intros Hnd; simpl.
  - split; [by intros ?%elem_of_nil|by intros [?%elem_of_nil _]].
  - apply NoDup_cons in Hnd as [Hnotin Hnd]. specialize (IH Hnd).
    rewrite !elem_of_cons, IH.
    destruct (String.eqb k k0) eqn:E.
    + apply String.eqb_eq in E as ->. split.
      * intros [[= ->]|[Hin _]]; [by split; [left|]|done].
      * intros [_ ->]. by left.
    + apply String.eqb_neq in E. split.
      * intros [[= -> ->]|[Hin Hget]]; [done|]. split; [by right|done].
      * intros [[->|Hin] Hget]; [done|]. right. done.
Qed.

Lemma occ_pos (k : string) (items : list string) : k ∈ items <-> 0 < occ k items.
Proof. unfold occ. rewrite list_elem_of_In. apply count_occ_In. Qed.

Lemma occ_NoDup (k : string) (items : list string) :
  NoDup items -> k ∈ items -> occ k items = 1.
Proof.
  intros Hnd Hin. apply occ_pos in Hin.
  apply NoDup_ListNoDup in Hnd.
  pose proof (proj1 (NoDup_count_occ String.eq_dec items) Hnd k) as Hle.
  unfold occ in *. lia.
Qed.

(** [duplicates] lists the items that occur at least twice. *)
Lemma elem_of_duplicates (k : string) (items : list string) :
  k ∈ duplicates items <-> 2 <= occ k items.
Proof.
  unfold duplicates, counter_sub.
  destruct (Counter_keys items [] (NoDup_nil_2)) as [Hnd Hkeys].
  fold (Counter items) in Hnd, Hkeys.
  rewrite list_elem_of_fmap. split.
  - intros ([k' m] & -> & Hin). simpl.
    apply list_elem_of_filter in Hin as [Hpos Hin]. simpl in Hpos.
    apply list_elem_of_fmap in Hin as ([k0 n] & [= -> ->] & Hin). simpl in *.
    apply counter_entry in Hin as [Hkey Hget]; [|done].
    rewrite counter_get_Counter in Hget. subst n.
    assert (k0 ∈ items) as Hk0.
    { apply Hkeys in Hkey as [H|H]; [done|by apply elem_of_nil in H]. }
    rewrite counter_get_Counter in Hpos. unfold set_of in Hpos.
    rewrite (occ_NoDup k0 (remove_dups items)) in Hpos;
      [|apply NoDup_remove_dups|by apply elem_of_remove_dups].
    apply Is_true_true, Nat.ltb_lt in Hpos. lia.
  - intros Hocc.
    assert (k ∈ items) as Hin by (apply occ_pos; lia).
    exists (k, occ k items - counter_get k (Counter (set_of items))).
    split; [done|]. apply list_elem_of_filter. split.
    + simpl. rewrite counter_get_Counter. unfold set_of.
      rewrite (occ_NoDup k (remove_dups items));
        [|apply NoDup_remove_dups|by apply elem_of_remove_dups].
      apply Is_true_true, Nat.ltb_lt. lia.
    + apply list_elem_of_fmap. exists (k, occ k items). split; [done|].
      apply counter_entry; [done|]. split.
      * apply Hkeys. by left.
      * apply counter_get_Counter.
Qed.

Lemma duplicates_nil (items : list string) : duplicates items = [] <-> NoDup items.
Proof.
  split.
  - intros Hnil. apply NoDup_ListNoDup, (NoDup_count_occ String.eq_dec). intros k.
    destruct (le_lt_dec (count_occ String.eq_dec items k) 1) as [|Hgt]; [done|].
    assert (k ∈ duplicates items) as Hk by (apply elem_of_duplicates; unfold occ; lia).
    rewrite Hnil in Hk. by apply elem_of_nil in Hk.
  - intros Hnd. destruct (duplicates items) as [|k l] eqn:E; [done|].
    assert (k ∈ duplicates items) as Hk by (rewrite E; left).
    apply elem_of_duplicates in Hk. apply NoDup_ListNoDup in Hnd.
    pose proof (proj1 (NoDup_count_occ String.eq_dec items) Hnd k).
    unfold occ in Hk. lia.
Qed.

(** ** Construction *)

Lemma assert_true {S} (b : bool) (s : S) : b = true -> assert_ b s = (Ok tt, s).
Proof. by intros ->. Qed.

Lemma assert_false {S} (b : bool) (s : S) :
  b = false -> assert_ b s = (Raise AssertionError, s).
Proof. by intros ->. Qed.

Lemma nonempty_name (n : string) : (0 <? String.length n)%nat = true <-> n <> "".
Proof. destruct n; simpl; [split; [done|by intros []]|split; done]. Qed.

Lemma check_steps_ok {S} (l : list Step) (s : S) :
  Forall step_ok l -> check_steps l s = (Ok tt, s).
Proof.
  induction 1 as [|x l Hx Hl IH]; [done|]. simpl.
  unfold step_ok in Hx. destruct (name x) as [n|] eqn:En; [|done].
  destruct Hx as [Hne Ht].
  mstep ltac:(apply assert_true; by apply bool_decide_eq_true).
  mstep ltac:(by apply lift_res_ok).
  mstep ltac:(apply assert_true; by apply nonempty_name).
  mstep ltac:(apply assert_true; by apply bool_decide_eq_true).
  done.
Qed.

Lemma check_steps_bad {S} (l : list Step) (s : S) :
  ~ Forall step_ok l -> check_steps l s = (Raise AssertionError, s).
Proof.
  induction l as [|x l IH]; intros Hbad; [by destruct Hbad|]. simpl.
  destruct (name x) as [n|] eqn:En; [|done].
  mstep ltac:(by apply assert_true). mstep ltac:(by apply lift_res_ok).
  destruct (decide (n = "")) as [->|Hne]; [done|].
  mstep ltac:(apply assert_true; by apply nonempty_name).
  destruct (task x) as [t|] eqn:Et; [|done].
  mstep ltac:(by apply assert_true).
  apply IH. intros Hl. apply Hbad. constructor; [|done].
  unfold step_ok. rewrite En, Et. by split.
Qed.

Lemma step_names {S} (l : list Step) (s : S) :
  Forall step_ok l ->
  for_each (fun step => lift_res (getitem "name" (name step))) l s
  = (Ok (omap name l), s).
Proof.
  induction 1 as [|x l Hx Hl IH]; [done|]. simpl.
  unfold step_ok in Hx. destruct (name x) as [n|] eqn:En; [|done].
  mstep ltac:(by apply lift_res_ok). mstep ltac:(exact IH). done.
Qed.

Lemma create_invalid (a : App) (l : list Step) (name_ : option string) :
  ~ valid_steps l -> __init__ None (Some l) name_ a = (Raise AssertionError, a).
Proof.
  intros Hbad. unfold __init__.
  destruct l as [|x l']; [done|]. set (l := x :: l') in *.
  mstep ltac:(by apply assert_true).
  destruct (decide (Forall step_ok l)) as [Hall|Hnall];
    [|by erewrite bind_raise by (by apply check_steps_bad)].
  mstep ltac:(by apply check_steps_ok).
  mstep ltac:(by apply step_names).
  erewrite bind_raise; [done|]. apply assert_false.
  apply Nat.eqb_neq. intros Hlen. apply Hbad.
  split; [done|]. split; [done|].
  apply duplicates_nil. by apply length_zero_iff_nil.
Qed.

Lemma create_valid (a : App) (l : list Step) (name_ : option string) :
  valid_steps l ->
  wf_col a !! uuids a (uuids_n a) = None ->
  let d := {| _id := uuids a (uuids_n a);
              created_at := Some (clock a (clock_n a));
              updated_at := None; steps := l; wf_name := name_ |} in
  __init__ None (Some l) name_ a
  = (Ok d, set_wf_col (<[_id d := d]> (wf_col a)) (tick_clock (tick_uuids a))).
Proof.
  intros (Hne & Hall & Hnd) Hfresh d. unfold __init__.
  mstep ltac:(apply assert_true; by destruct l).
  mstep ltac:(by apply check_steps_ok).
  mstep ltac:(by apply step_names).
  mstep ltac:(apply assert_true, Nat.eqb_eq, length_zero_iff_nil;
              by apply duplicates_nil).
  unfold uuid4, utcnow, insert_one, bind. simpl. by rewrite Hfresh.
Qed.

(** C6. Creation raises AssertionError and leaves the store as it was
    when the step list is empty, when a step has no [name] or no [task]
    key or an empty name, and when two steps have the same name. For a
    non-empty step list whose steps all have a task and a non-empty name,
    the names being distinct, creation succeeds and the store holds the
    new document, with the steps as given, under its identifier. *)
Theorem create_spec (a : App) (l : list Step) (name_ : option string) :
  (l = [] \/
   Exists (fun s => name s = None \/ task s = None \/ name s = Some "") l \/
   ~ NoDup (omap name l) ->
   new_Workflow a None (Some l) name_ = (Raise AssertionError, a)) /\
  (valid_steps l ->
   wf_col a !! uuids a (uuids_n a) = None ->
   exists w a',
     new_Workflow a None (Some l) name_ = (Ok w, a') /\
     app w = a' /\
     steps (workflow w) = l /\ wf_name (workflow w) = name_ /\
     wf_col a' = <[_id (workflow w) := workflow w]> (wf_col a)).
Proof.
  split.
  - intros Hbad. unfold new_Workflow. rewrite create_invalid; [done|].
    intros (Hne & Hall & Hnd). destruct Hbad as [->|[Hex|Hdup]]; [done| |done].
    apply Exists_exists in Hex as (s & Hin & Hs).
    rewrite Forall_forall in Hall. specialize (Hall s Hin).
    unfold step_ok in Hall. destruct (name s) as [n|]; [|done].
    destruct Hall as [Hn [t Ht]].
    destruct Hs as [?|[?|[= ->]]]; congruence.
  - intros Hvalid Hfresh. unfold new_Workflow.
    rewrite create_valid by done. eexists _, _. split; [done|]. done.
Qed.

(** C10. With a [workflow_id] the constructor loads the stored document
    whether or not [steps] is given: the steps are not looked at, the
    store is not written, and an unknown id raises. With neither a
    [workflow_id] nor [steps] it raises and the store is not written. *)
Theorem construction_precedence (a : App) (workflow_id : string)
    (steps_ : option (list Step)) (name_ : option string) :
  new_Workflow a (Some workflow_id) steps_ name_
  = match wf_col a !! workflow_id with
    | Some d => (Ok {| app := a; workflow := d |}, a)
    | None => (Raise (PyException (not_found_msg workflow_id)), a)
    end /\
  new_Workflow a (Some workflow_id) steps_ name_
  = new_Workflow a (Some workflow_id) None name_ /\
  new_Workflow a None None name_
  = (Raise (PyException "Either workflow_id or steps should not be None"), a).
Proof.
  assert (forall st, new_Workflow a (Some workflow_id) st name_
          = match wf_col a !! workflow_id with
            | Some d => (Ok {| app := a; workflow := d |}, a)
            | None => (Raise (PyException (not_found_msg workflow_id)), a)
            end) as Hload.
  { intros st. unfold new_Workflow, __init__, bind, find_one, gets.
    by destruct (wf_col a !! workflow_id). }
  split; [apply Hload|]. split; [by rewrite !Hload|done].
Qed.

(** ** Methods that leave the documents alone *)

Lemma same_docs_refl (w : Workflow) : same_docs w w.
Proof. done. Qed.

Lemma same_docs_trans (w1 w2 w3 : Workflow) :
  same_docs w1 w2 -> same_docs w2 w3 -> same_docs w1 w3.
Proof. intros [H1 H2] [H3 H4]. split; congruence. Qed.

Lemma keeps_ret {A} (a : A) : keeps_docs (ret a).
Proof. intros w. apply same_docs_refl. Qed.

Lemma keeps_raise {A} (e : exn) : keeps_docs (@raise Workflow A e).
Proof. intros w. apply same_docs_refl. Qed.

Lemma keeps_gets {A} (f : Workflow -> A) : keeps_docs (gets f).
Proof. intros w. apply same_docs_refl. Qed.

Lemma keeps_lift_res {A} (r : res A) : keeps_docs (lift_res r).
Proof. intros w. apply same_docs_refl. Qed.

Lemma keeps_assert (b : bool) : keeps_docs (assert_ b).
Proof. intros w. destruct b; apply same_docs_refl. Qed.

Lemma keeps_bind {A B} (m : M Workflow A) (k : A -> M Workflow B) :
  keeps_docs m -> (forall a, keeps_docs (k a)) -> keeps_docs (bind m k).
Proof.
  intros Hm Hk w. unfold bind. specialize (Hm w).
  destruct (m w) as [[a|e] w1]; simpl in *; [|done].
  eapply same_docs_trans; [exact Hm|apply Hk].
Qed.

Lemma keeps_try_except {A} (m : M Workflow A) (h : exn -> M Workflow A) :
  keeps_docs m -> (forall e, keeps_docs (h e)) -> keeps_docs (try_except m h).
Proof.
  intros Hm Hh w. unfold try_except. specialize (Hm w).
  destruct (m w) as [[a|e] w1]; simpl in *; [done|].
  eapply same_docs_trans; [exact Hm|apply Hh].
Qed.

Lemma keeps_for_each {A B} (f : A -> M Workflow B) (l : list A) :
  (forall x, keeps_docs (f x)) -> keeps_docs (for_each f l).
Proof.
  intros Hf. induction l as [|x l IH]; simpl; [apply keeps_ret|].
  apply keeps_bind; [apply Hf|]. intros y.
  apply keeps_bind; [apply IH|]. intros ys. apply keeps_ret.
Qed.

Lemma keeps_on_app {A} (m : M App A) :
  (forall a, wf_col (m a).2 = wf_col a) -> keeps_docs (on_app m).
Proof.
  intros Hm w. unfold on_app. specialize (Hm (app w)).
  destruct (m (app w)) as [r a']. by split.
Qed.

Lemma keeps_backend_find_one tid : keeps_docs (on_app (backend_find_one tid)).
Proof. by apply keeps_on_app. Qed.
Lemma keeps_backend_get_status tid : keeps_docs (on_app (backend_get_status tid)).
Proof. by apply keeps_on_app. Qed.
Lemma keeps_send_task t args kwargs : keeps_docs (on_app (send_task t args kwargs)).
Proof. by apply keeps_on_app. Qed.
Lemma keeps_revoke tid b : keeps_docs (on_app (revoke tid b)).
Proof. by apply keeps_on_app. Qed.

Create HintDb keeps.
#[local] Hint Resolve keeps_ret keeps_raise keeps_gets keeps_lift_res keeps_assert
  keeps_backend_find_one keeps_backend_get_status keeps_send_task keeps_revoke
  : keeps.

(** Follows the text of a method statement by statement. *)
Ltac keeps :=
  repeat first
    [ solve [auto with keeps]
    | apply keeps_bind; [|intros ?]
    | apply keeps_try_except; [|intros ?]
    | apply keeps_for_each; intros ?
    | match goal with
      | |- keeps_docs (match ?x with _ => _ end) => destruct x
      end ].

Lemma keeps_get_step_status (s : Step) : keeps_docs (get_step_status s).
Proof. unfold get_step_status. keeps. Qed.
#[local] Hint Resolve keeps_get_step_status : keeps.

Lemma keeps_get_pending_step : keeps_docs get_pending_step.
Proof. unfold get_pending_step. keeps. Qed.
#[local] Hint Resolve keeps_get_pending_step : keeps.

Lemma keeps_get_workflow_status : keeps_docs get_workflow_status.
Proof. unfold get_workflow_status. keeps. Qed.

Lemma keeps_get_step (n : string) : keeps_docs (get_step n).
Proof. unfold get_step. keeps. Qed.

Lemma keeps_get_next_step (n : string) : keeps_docs (get_next_step n).
Proof. unfold get_next_step. keeps. Qed.

Lemma keeps_step_at (i : nat) : keeps_docs (step_at i).
Proof. unfold step_at. keeps. Qed.
#[local] Hint Resolve keeps_get_workflow_status keeps_get_step keeps_get_next_step
  keeps_step_at : keeps.

Lemma keeps_start args kwargs : keeps_docs (start args kwargs).
Proof. unfold start. keeps. Qed.

Lemma keeps_pause : keeps_docs pause.
Proof. unfold pause. keeps. Qed.

Lemma keeps_on_step_success retval n : keeps_docs (on_step_success retval n).
Proof. unfold on_step_success. keeps. Qed.

Section KeepsDecoding.

Variable json_loads : string -> option pyval.

Lemma keeps_json_loads_val (v : pyval) :
  keeps_docs (json_loads_val json_loads v).
Proof. unfold json_loads_val. keeps. Qed.
Hint Resolve keeps_json_loads_val : keeps.

Lemma keeps_get_task_instance tid ds :
  keeps_docs (get_task_instance json_loads tid ds).
Proof. unfold get_task_instance. keeps. Qed.
Hint Resolve keeps_get_task_instance : keeps.

Lemma keeps_get_last_run (s : Step) :
  keeps_docs (get_last_run_task_instance json_loads s).
Proof. unfold get_last_run_task_instance. keeps. Qed.
Hint Resolve keeps_get_last_run : keeps.

Lemma keeps_resume force args : keeps_docs (resume json_loads force args).
Proof. unfold resume. keeps. Qed.

Lemma keeps_embellish_step l p (s : Step) :
  keeps_docs (embellish_step json_loads l p s).
Proof. unfold embellish_step. keeps. Qed.

End KeepsDecoding.

(** ** Methods that write the document *)

Lemma step_evolves_refl (o : op) (s : Step) : step_evolves o s s.
Proof. unfold step_evolves. destruct o; auto. Qed.

Lemma steps_evolve_refl (o : op) (l : list Step) : Forall2 (step_evolves o) l l.
Proof. apply Forall_Forall2_diag, Forall_forall. intros s _. apply step_evolves_refl. Qed.

Lemma steps_evolve_insert (o : op) (l : list Step) (i : nat) (s s' : Step) :
  l !! i = Some s -> step_evolves o s s' ->
  Forall2 (step_evolves o) l (<[i := s']> l).
Proof.
  intros Hi Hs. rewrite <- (list_insert_id l i s Hi) at 1.
  apply Forall2_insert; [apply steps_evolve_refl|done].
Qed.

Lemma evolves_same_docs (o : op) (w w' : Workflow) :
  same_docs w w' -> evolves o w w'.
Proof.
  intros [Hwf Hcol]. unfold evolves, doc_evolves, store_follows, in_sync.
  rewrite Hwf, Hcol. repeat split; [apply steps_evolve_refl|done].
Qed.

(** [update] writes the engine's document over the stored one. *)
Lemma update_evolves (o : op) (w w1 : Workflow) :
  wf_col (app w1) = wf_col (app w) ->
  _id (workflow w1) = _id (workflow w) ->
  Forall2 (step_evolves o) (steps (workflow w)) (steps (workflow w1)) ->
  evolves o w (update w1).2.
Proof.
  intros Hcol Hid Hsteps.
  unfold update, bind, on_app, utcnow, modify, gets, update_one. simpl.
  rewrite Hcol, Hid. split.
  - by destruct (wf_col (app w) !! _id (workflow w)).
  - unfold in_sync. intros ->. unfold store_follows, in_sync. simpl.
    rewrite Hid. split; [apply lookup_insert_eq|].
    intros id Hne. by rewrite lookup_insert_ne.
Qed.

Lemma dropwhile_suffix {A} (p : A -> res bool) (l it : list A) :
  dropwhile p l = Ok it -> exists pre, l = pre ++ it.
Proof.
  revert it. induction l as [|x l IH]; intros it; simpl.
  - intros [= <-]. by exists [].
  - destruct (p x) as [[|]|e]; [|intros [= <-]; by exists []|done].
    intros H. destruct (IH it H) as [pre ->]. by exists (x :: pre).
Qed.

(** The position that [get_step] returns is that of the step that
    [dropwhile] stopped at. *)
Lemma get_step_position (n : string) (w : Workflow) (i : nat) :
  get_step n w = (Ok (Some i), w) ->
  exists s, steps (workflow w) !! i = Some s /\ name s = Some n.
Proof.
  unfold get_step, bind, gets, lift_res.
  destruct (dropwhile _ _) as [[|x it]|e] eqn:E; [done| |done].
  intros [= <-]. destruct (dropwhile_suffix _ _ _ E) as [pre Hpre].
  exists x. split.
  - rewrite Hpre, length_app. apply list_lookup_middle. simpl. lia.
  - clear Hpre. revert E. induction (steps (workflow w)) as [|y l IH]; [done|].
    simpl. unfold name_differs at 1.
    destruct (name y) as [ny|] eqn:Ey; simpl; [|done].
    destruct (String.eqb ny n) eqn:En; simpl.
    + intros [= -> ->]. apply String.eqb_eq in En as ->. done.
    + apply IH.
Qed.

Lemma get_step_state (n : string) (w : Workflow) : exists r, get_step n w = (r, w).
Proof.
  unfold get_step, bind, gets, lift_res.
  destruct (dropwhile _ _) as [[|x it]|e]; by eexists.
Qed.

Lemma set_task_runs_null (s : Step) : task_runs s = Null -> set_task_runs Null s = s.
Proof. destruct s. simpl. by intros ->. Qed.

Lemma dict_get_some_runs (s : Step) (rs : list TaskRun) :
  dict_get (task_runs s) [] = Some rs -> step_runs s = rs.
Proof. unfold step_runs. destruct (task_runs s); simpl; congruence. Qed.

Lemma dict_get_none_null (s : Step) :
  dict_get (task_runs s) [] = None -> task_runs s = Null.
Proof. by destruct (task_runs s). Qed.

Lemma set_steps_same (w : Workflow) (i : nat) (s : Step) :
  steps (workflow w) !! i = Some s ->
  set_workflow (set_steps (<[i := s]> (steps (workflow w))) (workflow w)) w = w.
Proof.
  intros Hi. rewrite list_insert_id by done. by destruct w as [a []].
Qed.

Lemma on_step_start_evolves (n tid : string) (w : Workflow) :
  evolves (OpOnStepStart n tid) w (on_step_start n tid w).2.
Proof.
  unfold on_step_start, bind at 1.
  destruct (get_step_state n w) as [r ->].
  destruct r as [[i|]|e]; try by apply evolves_same_docs.
  unfold bind at 1, step_at, bind at 1, gets, lift_res, list_getitem.
  destruct (steps (workflow w) !! i) as [s|] eqn:Hi;
    [|by apply evolves_same_docs].
  unfold bind at 1, bind at 1, set_step_at at 1, modify.
  destruct (dict_get (task_runs s) []) as [rs|] eqn:Hget.
  - unfold bind at 1, on_app at 1, utcnow. cbn [fst snd].
    unfold set_step_at, modify. apply update_evolves; try done. simpl.
    rewrite list_insert_insert_eq. apply (steps_evolve_insert _ _ _ s); [done|].
    repeat split. right. eexists. split; [|by rewrite (dict_get_some_runs s rs)].
    done.
  - simpl. rewrite set_task_runs_null by (by apply dict_get_none_null).
    rewrite set_steps_same by done. by apply evolves_same_docs.
Qed.

Lemma alter_last_snoc {A} (f : A -> A) (l : list A) (x : A) :
  alter_last f (l ++ [x]) = l ++ [f x].
Proof.
  induction l as [|y l IH]; [done|]. simpl. rewrite IH.
  by destruct (l ++ [x]) eqn:E; [destruct l|].
Qed.

Lemma update_step_end_time_evolves (n : string) (w : Workflow) :
  evolves (OpUpdateStepEndTime n) w (update_step_end_time n w).2.
Proof.
  unfold update_step_end_time, bind at 1.
  destruct (get_step_state n w) as [r ->].
  destruct r as [[i|]|e]; try by apply evolves_same_docs.
  unfold bind at 1, step_at, bind at 1, gets, lift_res, list_getitem.
  destruct (steps (workflow w) !! i) as [s|] eqn:Hi;
    [|by apply evolves_same_docs].
  unfold bind at 1.
  destruct (dict_get (task_runs s) []) as [rs|] eqn:Hget;
    [|by apply evolves_same_docs].
  simpl len. cbv iota beta. unfold bind at 1.
  destruct rs as [|r rs _] using rev_ind.
  - simpl. apply update_evolves; try done. apply steps_evolve_refl.
  - rewrite length_snoc_pos. unfold bind at 1, on_app at 1, utcnow.
    cbn [fst snd]. unfold set_step_at, modify. apply update_evolves; try done.
    simpl. apply (steps_evolve_insert _ _ _ s); [done|].
    repeat split. right. exists rs, r. eexists. split.
    + by apply dict_get_some_runs.
    + unfold step_runs. simpl. apply alter_last_snoc.
Qed.

Lemma refresh_in_sync (w : Workflow) : in_sync w -> refresh w = (Ok tt, w).
Proof.
  intros Hsync. unfold refresh. mgets.
  mstep ltac:(apply on_app_gets). unfold in_sync in Hsync. rewrite Hsync.
  unfold modify. by rewrite set_workflow_id.
Qed.

Lemma get_embellished_same_docs (json_loads : string -> option pyval)
    (l p : bool) (w : Workflow) :
  in_sync w -> same_docs w (get_embellished_workflow json_loads l p w).2.
Proof.
  intros Hsync. unfold get_embellished_workflow.
  mstep ltac:(by apply refresh_in_sync).
  match goal with
  | |- same_docs _ (?m _).2 => assert (keeps_docs m) as Hkeeps
  end.
  { pose proof (keeps_embellish_step json_loads l p).
    keeps. }
  apply Hkeeps.
Qed.



(** ** Results that cannot be decoded *)

Lemma for_each_total {S A B} (f : A -> M S B) (l : list A) (s : S) :
  (forall x, x ∈ l -> exists y, f x s = (Ok y, s)) ->
  exists ys, for_each f l s = (Ok ys, s).
Proof.
  induction l as [|x l IH]; intros Hf; simpl; [by eexists|].
  destruct (Hf x) as [y Hy]; [left|].
  destruct IH as [ys Hys]; [intros z Hz; apply Hf; by right|].
  exists (y :: ys). mstep ltac:(exact Hy). mstep ltac:(exact Hys). done.
Qed.

Section Decoding.

Variable json_loads : string -> option pyval.

Lemma get_task_instance_total (tid : string) (ds : option Z) (w : Workflow) :
  exists o, get_task_instance json_loads tid ds w = (Ok o, w).
Proof.
  destruct (backend_col (app w) !! tid) as [rec|] eqn:E.
  - destruct (get_task_instance_some json_loads tid ds w rec E) as (inst & H & _).
    by eexists.
  - eexists. by apply get_task_instance_none.
Qed.

Lemma get_last_run_total (s : Step) (w : Workflow) :
  exists o, get_last_run_task_instance json_loads s w = (Ok o, w).
Proof.
  destruct (step_runs s) as [|r rs _] eqn:E using rev_ind.
  - eexists. by apply get_last_run_none.
  - rewrite (get_last_run_snoc json_loads s w rs r E).
    apply get_task_instance_total.
Qed.

Lemma get_task_instance_raw (tid : string) (ds : option Z) (w : Workflow)
    (rec : TaskDoc) (v : pyval) :
  backend_col (app w) !! tid = Some rec ->
  t_result rec = Some v ->
  decode_failed json_loads v ->
  get_task_instance json_loads tid ds w
  = (Ok (Some {| t_id := t_id rec; t_args := t_args rec;
                 t_result := Some v;
                 t_date_start := from_option Val Null ds |}), w).
Proof.
  intros Hrec Hres Hfail. unfold get_task_instance.
  mstep ltac:(apply on_app_gets). rewrite Hrec. cbv beta iota zeta.
  cbn [t_result t_id t_args t_date_start]. rewrite Hres.
  destruct v as [|b|z|str|l|kv]; try done.
  unfold decode_failed in Hfail.
  unfold try_except, json_loads_val, bind. by rewrite Hfail.
Qed.

Lemma embellish_step_total (l p : bool) (s : Step) (w : Workflow) :
  is_Some (name s) -> is_Some (task s) -> task_runs s <> Null ->
  exists e, embellish_step json_loads l p s w = (Ok e, w).
Proof.
  intros [n Hn] [t Ht] Hruns. unfold embellish_step.
  mstep ltac:(by apply getitem_some). mstep ltac:(by apply getitem_some).
  mstep ltac:(by apply get_step_status_ok).
  assert (exists last,
    (if l then inst <- get_last_run_task_instance json_loads s ;; ret (Some inst)
     else ret None) w = (Ok last, w)) as [last Hlast].
  { destruct l; [|by eexists].
    destruct (get_last_run_total s w) as [o Ho].
    eexists. mstep ltac:(exact Ho). done. }
  mstep ltac:(exact Hlast).
  assert (exists prev,
    (if p
     then match dict_get (task_runs s) [] with
          | Some task_runs =>
              l <- for_each (fun t => get_task_instance json_loads (task_id t)
                                                        (date_start t))
                            (all_but_last task_runs) ;;
              ret (Some l)
          | None => raise TypeError
          end
     else ret None) w = (Ok prev, w)) as [prev Hprev].
  { destruct p; [|by eexists]. rewrite dict_get_runs by done.
    destruct (for_each_total
                (fun t => get_task_instance json_loads (task_id t) (date_start t))
                (all_but_last (step_runs s)) w) as [ys Hys].
    { intros x _. apply get_task_instance_total. }
    eexists. mstep ltac:(exact Hys). done. }
  mstep ltac:(exact Hprev). by eexists.
Qed.

End Decoding.

Lemma get_workflow_status_total (w : Workflow) :
  runs_ok (steps (workflow w)) -> exists st, get_workflow_status w = (Ok st, w).
Proof.
  intros Hok. unfold get_workflow_status.
  mstep ltac:(by apply get_pending_step_find).
  destruct (find not_success (enumerate (statuses w))) as [[i st]|]; [|by eexists].
  destruct ((i =? 0)%nat && String.eqb st PENDING); [by eexists|].
  destruct (str_in st [STARTED; RETRY; PENDING]); by eexists.
Qed.

(** C9, as the code has it. When the stored result of a task cannot be
    decoded, [get_task_instance] does not raise: it returns the record
    with [date_start] set and with the result as it is stored, undecoded
    (not [None]). The embellished view of a workflow whose stored steps
    have their name, task and run records is returned whatever the
    backend holds. *)
Theorem undecodable_result_kept (json_loads : string -> option pyval)
    (w : Workflow) (tid : string) (ds : option Z) (rec : TaskDoc) (v : pyval) :
  backend_col (app w) !! tid = Some rec ->
  t_result rec = Some v ->
  decode_failed json_loads v ->
  get_task_instance json_loads tid ds w
  = (Ok (Some {| t_id := t_id rec; t_args := t_args rec;
                 t_result := Some v;
                 t_date_start := from_option Val Null ds |}), w) /\
  forall d l p,
    wf_col (app w) !! _id (workflow w) = Some d ->
    Forall (fun s => is_Some (name s) /\ is_Some (task s)) (steps d) ->
    runs_ok (steps d) ->
    exists view,
      get_embellished_workflow json_loads l p w = (Ok view, set_workflow d w).
Proof.
  intros Hrec Hres Hfail. split; [by apply get_task_instance_raw|].
  intros d l p Hd Hkeys Hok. unfold get_embellished_workflow.
  assert (refresh w = (Ok tt, set_workflow d w)) as Hrefresh.
  { unfold refresh. mgets. mstep ltac:(apply on_app_gets). by rewrite Hd. }
  mstep ltac:(exact Hrefresh). set (w1 := set_workflow d w).
  destruct (get_workflow_status_total w1) as [st Hst]; [done|].
  mstep ltac:(exact Hst).
  mstep ltac:(by apply get_pending_step_find). mgets.
  destruct (for_each_total (embellish_step json_loads l p) (steps (workflow w1)) w1)
    as [es Hes].
  { intros s Hs. simpl in Hs.
    rewrite Forall_forall in Hkeys. destruct (Hkeys s Hs) as [Hn Ht].
    unfold runs_ok in Hok. rewrite Forall_forall in Hok.
    apply embellish_step_total; auto. }
  mstep ltac:(exact Hes). by eexists.
Qed.

(** ** The constructor leaves the engine in step with the store *)

Lemma create_taken (a : App) (l : list Step) (name_ : option string) :
  valid_steps l ->
  is_Some (wf_col a !! uuids a (uuids_n a)) ->
  __init__ None (Some l) name_ a
  = (Raise DuplicateKeyError, tick_clock (tick_uuids a)).
Proof.
  intros (Hne & Hall & Hnd) [d Htaken]. unfold __init__.
  mstep ltac:(apply assert_true; by destruct l).
  mstep ltac:(by apply check_steps_ok).
  mstep ltac:(by apply step_names).
  mstep ltac:(apply assert_true, Nat.eqb_eq, length_zero_iff_nil;
              by apply duplicates_nil).
  unfold uuid4, utcnow, insert_one, bind. simpl. by rewrite Htaken.
Qed.

Lemma new_Workflow_in_sync (a a' : App) (workflow_id : option string)
    (steps_ : option (list Step)) (name_ : option string) (w : Workflow) :
  store_ok a ->
  new_Workflow a workflow_id steps_ name_ = (Ok w, a') ->
  in_sync w /\ app w = a' /\ store_ok a'.
Proof.
  intros Hstore. unfold new_Workflow.
  destruct (__init__ workflow_id steps_ name_ a) as [[d|e] a1] eqn:E; [|done].
  intros [= <- <-]. simpl. unfold in_sync. simpl.
  destruct workflow_id as [id|].
  - unfold __init__, bind, find_one, gets in E.
    destruct (wf_col a !! id) as [d'|] eqn:Hd; [|done].
    injection E as <- <-. rewrite (Hstore id d' Hd). done.
  - destruct steps_ as [l|]; [|done].
    destruct (decide (valid_steps l)) as [Hvalid|Hbad];
      [|by rewrite create_invalid in E].
    destruct (wf_col a !! uuids a (uuids_n a)) as [d'|] eqn:Hfresh.
    + rewrite create_taken in E by done. done.
    + rewrite create_valid in E by done. injection E as <- <-. simpl.
      split; [apply lookup_insert_eq|]. split; [done|].
      intros id d'. unfold store_ok in Hstore. simpl.
      destruct (decide (uuids a (uuids_n a) = id)) as [<-|Hne].
      * rewrite lookup_insert_eq. by intros [= <-].
      * rewrite lookup_insert_ne by done. apply Hstore.
Qed.

(** ** The theorems at the example workflows *)

Ltac runs_ok_ex := repeat constructor; discriminate.
Ltac before_ex :=
  let j := fresh "j" in
  intros j ? ?; do 3 (try destruct j as [|j]); simpl; try lia; intros [= <-];
  reflexivity.
Ltac pending_ex :=
  split; [reflexivity|split; [reflexivity|split; [discriminate|before_ex]]].

Lemma valid_steps_ex : valid_steps [step_a; step_b; step_c].
Proof.
  split; [discriminate|]. split.
  - repeat constructor; try discriminate; by eexists.
  - simpl. repeat (apply NoDup_cons; split);
      [| |apply not_elem_of_nil|apply NoDup_nil_2];
      intros H; repeat (apply elem_of_cons in H as [H|H]; [discriminate|]);
      by apply elem_of_nil in H.
Defined.

Lemma in_sync_ex (l : list Step) : in_sync (mk_engine l).
Proof. apply lookup_singleton_eq. Defined.







(** C5 at the example workflow: after [a] the task of [b] is sent with
    42; after [c], the last step, nothing is sent. *)
Lemma on_step_success_spec_witness :
  (valid_steps (steps (workflow w_new)) /\
   on_step_success [VInt 42; VInt 43] "a" w_new
   = (Ok tt, dispatched "t2" (Some [VInt 42])
                        (correlation (workflow w_new) "b" ∅) w_new)) /\
  (length (steps (workflow w_new)) = 3 /\
   on_step_success [VInt 42] "c" w_new = (Ok tt, w_new)).
Proof.
  split.
  - split; [exact valid_steps_ex|].
    destruct (on_step_success_spec w_new "a" 0 step_a valid_steps_ex
                eq_refl eq_refl) as [Hcase _].
    by apply (Hcase step_b "b" "t2").
  - split; [reflexivity|].
    destruct (on_step_success_spec w_new "c" 2 step_c valid_steps_ex
                eq_refl eq_refl) as [_ Hcase].
    by apply Hcase.
Defined.

(** C6 at example step lists: an empty list and a repeated name are
    refused; three well-formed steps are stored under the fresh id. *)
Lemma create_spec_witness :
  (new_Workflow (app w_new) None (Some []) None = (Raise AssertionError, app w_new)) /\
  (~ NoDup (omap name [step_a; step_b; step_a]) /\
   new_Workflow (app w_new) None (Some [step_a; step_b; step_a]) None
   = (Raise AssertionError, app w_new)) /\
  (valid_steps [step_a; step_b; step_c] /\
   wf_col (app w_new) !! "wf2" = None /\
   exists w a',
     new_Workflow (app w_new) None (Some [step_a; step_b; step_c]) (Some "two")
     = (Ok w, a') /\
     app w = a' /\ steps (workflow w) = [step_a; step_b; step_c] /\
     wf_name (workflow w) = Some "two" /\
     wf_col a' = <[_id (workflow w) := workflow w]> (wf_col (app w_new))).
Proof.
  assert (~ NoDup (omap name [step_a; step_b; step_a])) as Hdup.
  { simpl. intros H. apply NoDup_cons in H as [H _]. apply H. right. left. }
  split; [|split].
  - apply (proj1 (create_spec (app w_new) [] None)). by left.
  - split; [done|].
    apply (proj1 (create_spec (app w_new) [step_a; step_b; step_a] None)).
    by do 2 right.
  - split; [exact valid_steps_ex|]. split; [reflexivity|].
    apply (proj2 (create_spec (app w_new) [step_a; step_b; step_c] (Some "two")));
      [exact valid_steps_ex|reflexivity].
Defined.



(** C8 at the example workflow, with a keyword argument of the caller. *)
Lemma start_spec_witness :
  steps (workflow w_new) = step_a :: [step_b; step_c] /\
  start [VInt 1] {[ "dry_run" := VBool true ]} w_new
  = (Ok tt, dispatched "t1" (Some [VInt 1])
                       (correlation (workflow w_new) "a" {[ "dry_run" := VBool true ]})
                       w_new).
Proof.
  split; [reflexivity|].
  apply (start_spec w_new [VInt 1] {[ "dry_run" := VBool true ]} step_a
                    [step_b; step_c] "a" "t1" eq_refl eq_refl eq_refl).
Defined.

(** C9, as the code has it, at the record of run [r1]. *)
Lemma undecodable_result_kept_witness :
  backend_col (app w_failed) !! "r1" = Some rec_r1 /\
  decode_failed json_literals (VStr "{") /\
  get_task_instance json_literals "r1" (Some 11%Z) w_failed
  = (Ok (Some {| t_id := "r1"; t_args := Some [VInt 7];
                 t_result := Some (VStr "{"); t_date_start := Val 11%Z |}),
     w_failed) /\
  exists view,
    get_embellished_workflow json_literals true true w_failed
    = (Ok view, set_workflow (workflow w_failed) w_failed).
Proof.
  split; [reflexivity|]. split; [reflexivity|].
  destruct (undecodable_result_kept json_literals w_failed "r1" (Some 11%Z)
              rec_r1 (VStr "{") eq_refl eq_refl eq_refl) as [Hraw Hview].
  split; [exact Hraw|].
  apply (Hview (workflow w_failed) true true); [apply in_sync_ex| |runs_ok_ex].
  repeat constructor; by eexists.
Defined.

(** C9 as stated fails: the record of run [r1] holds the result "{",
    which is not JSON; [get_task_instance] returns the record with that
    result as stored, neither [None] nor missing. *)
Lemma undecodable_result_counterexample :
  backend_col (app w_failed) !! "r1" = Some rec_r1 /\
  t_result rec_r1 = Some (VStr "{") /\
  json_literals "{" = None /\
  exists inst,
    get_task_instance json_literals "r1" (Some 11%Z) w_failed
    = (Ok (Some inst), w_failed) /\
    t_result inst = Some (VStr "{") /\
    t_result inst <> Some VNone /\ t_result inst <> None.
Proof.
  split; [reflexivity|]. split; [reflexivity|]. split; [reflexivity|].
  eexists. split; [reflexivity|]. split; [reflexivity|]. split; discriminate.
Qed.

(** ** Runs of the model *)

Example duplicates_ex : duplicates ["a"; "b"; "a"; "c"; "b"; "a"] = ["a"; "b"].
Proof. reflexivity. Qed.

Example start_ex :
  sent (app (start [VInt 1] ∅ w_new).2)
  = [mkSendTask "t1" (Some [VInt 1])
                (<["step" := VStr "a"]> (<["workflow_id" := VStr "wf1"]> ∅))].
Proof. reflexivity. Qed.

Example on_step_start_ex :
  map step_runs (steps (workflow (on_step_start "b" "r2" w_failed).2))
  = [[run_a];
     [run_b1; {| task_id := "r2"; date_start := Some 100%Z; end_time := None |}];
     []] /\
  stored_runs (on_step_start "b" "r2" w_failed).2
  = Some [[run_a];
          [run_b1; {| task_id := "r2"; date_start := Some 100%Z; end_time := None |}];
          []].
Proof. split; reflexivity. Qed.

Example update_step_end_time_ex :
  map step_runs (steps (workflow (update_step_end_time "b" w_running).2))
  = [[run_a]; [run_b1; set_end_time (Some 100%Z) run_b2]; []].
Proof. reflexivity. Qed.

Example on_step_start_null_ex :
  on_step_start "a" "r9" (mk_engine [set_task_runs Null step_a])
  = (Raise AttributeError, mk_engine [set_task_runs Null step_a]).
Proof. reflexivity. Qed.

Example get_workflow_status_null_ex :
  get_workflow_status (mk_engine [step_a; set_task_runs Null step_b])
  = (Raise TypeError, mk_engine [step_a; set_task_runs Null step_b]).
Proof. reflexivity. Qed.

(** The store is written with the engine's document as a whole: an
    engine that is not in step with the store puts its own view of the
    history over the stored one. *)
Example stale_engine_ex :
  ~ in_sync w_stale /\
  stored_runs w_stale = Some [[run_a]; [run_b1]; []] /\
  stored_runs (on_step_start "b" "r2" w_stale).2
  = Some [[];
          [{| task_id := "r2"; date_start := Some 100%Z; end_time := None |}];
          []].
Proof.
  split; [|split; reflexivity].
  unfold in_sync. simpl. rewrite lookup_singleton_eq. discriminate.
Qed.

(** ** Methods that only read *)

Lemma ro_ret {A} (a : A) : reads_only (ret a).
Proof. done. Qed.

Lemma ro_raise {A} (e : exn) : reads_only (@raise Workflow A e).
Proof. done. Qed.

Lemma ro_gets {A} (f : Workflow -> A) : reads_only (gets f).
Proof. done. Qed.

Lemma ro_lift_res {A} (r : res A) : reads_only (lift_res r).
Proof. done. Qed.

Lemma ro_assert (b : bool) : reads_only (assert_ b).
Proof. by destruct b. Qed.

Lemma ro_bind {A B} (m : M Workflow A) (k : A -> M Workflow B) :
  reads_only m -> (forall a, reads_only (k a)) -> reads_only (bind m k).
Proof.
  intros Hm Hk w. unfold bind. specialize (Hm w).
  destruct (m w) as [[a|e] w1]; simpl in *; subst; [apply Hk|done].
Qed.

Lemma ro_try_except {A} (m : M Workflow A) (h : exn -> M Workflow A) :
  reads_only m -> (forall e, reads_only (h e)) -> reads_only (try_except m h).
Proof.
  intros Hm Hh w. unfold try_except. specialize (Hm w).
  destruct (m w) as [[a|e] w1]; simpl in *; subst; [done|apply Hh].
Qed.

Lemma ro_for_each {A B} (f : A -> M Workflow B) (l : list A) :
  (forall x, reads_only (f x)) -> reads_only (for_each f l).
Proof.
  intros Hf. induction l as [|x l IH]; simpl; [apply ro_ret|].
  apply ro_bind; [apply Hf|]. intros y.
  apply ro_bind; [apply IH|]. intros ys. apply ro_ret.
Qed.

Lemma ro_on_app_gets {A} (f : App -> A) : reads_only (on_app (gets f)).
Proof. intros w. by rewrite on_app_gets. Qed.

Lemma ro_backend_find_one tid : reads_only (on_app (backend_find_one tid)).
Proof. apply ro_on_app_gets. Qed.

Lemma ro_backend_get_status tid : reads_only (on_app (backend_get_status tid)).
Proof. apply ro_on_app_gets. Qed.

Lemma ro_find_one id : reads_only (on_app (find_one id)).
Proof. apply ro_on_app_gets. Qed.

Create HintDb reads.
#[local] Hint Resolve ro_ret ro_raise ro_gets ro_lift_res ro_assert
  ro_backend_find_one ro_backend_get_status ro_find_one : reads.

Ltac reads :=
  repeat first
    [ solve [auto with reads]
    | apply ro_bind; [|intros ?]
    | apply ro_try_except; [|intros ?]
    | apply ro_for_each; intros ?
    | match goal with
      | |- reads_only (match ?x with _ => _ end) => destruct x
      end ].

Lemma ro_get_step_status (s : Step) : reads_only (get_step_status s).
Proof. unfold get_step_status. reads. Qed.
#[local] Hint Resolve ro_get_step_status : reads.

Lemma ro_get_pending_step : reads_only get_pending_step.
Proof. unfold get_pending_step. reads. Qed.
#[local] Hint Resolve ro_get_pending_step : reads.

Lemma ro_get_workflow_status : reads_only get_workflow_status.
Proof. unfold get_workflow_status. reads. Qed.

Lemma ro_get_step (n : string) : reads_only (get_step n).
Proof. unfold get_step. reads. Qed.

Lemma ro_get_next_step (n : string) : reads_only (get_next_step n).
Proof. unfold get_next_step. reads. Qed.

Lemma ro_step_at (i : nat) : reads_only (step_at i).
Proof. unfold step_at. reads. Qed.
#[local] Hint Resolve ro_get_workflow_status ro_get_step ro_get_next_step
  ro_step_at : reads.

Lemma ro_get_task_instance json_loads tid ds :
  reads_only (get_task_instance json_loads tid ds).
Proof. unfold get_task_instance, json_loads_val. reads. Qed.
#[local] Hint Resolve ro_get_task_instance : reads.

Lemma ro_get_last_run json_loads (s : Step) :
  reads_only (get_last_run_task_instance json_loads s).
Proof. unfold get_last_run_task_instance. reads. Qed.
#[local] Hint Resolve ro_get_last_run : reads.

(** What a method that only reads returns, at the engine it ran on. *)
Lemma reads_only_run {A} (m : M Workflow A) (w : Workflow) :
  reads_only m -> m w = ((m w).1, w).
Proof. intros H. specialize (H w). destruct (m w). simpl in *. by subst. Qed.

(** X1. The status and lookup methods ([get_step_status],
    [get_pending_step], [get_workflow_status], [get_step],
    [get_next_step], [get_task_instance],
    [get_last_run_task_instance]) leave the engine and its application
    exactly as they were, on every input and whether they return or
    raise: no document is written, nothing is sent or revoked, the clock
    is not read. *)
Theorem reads_change_nothing (json_loads : string -> option pyval) (w : Workflow) :
  (forall s, (get_step_status s w).2 = w) /\
  (get_pending_step w).2 = w /\
  (get_workflow_status w).2 = w /\
  (forall n, (get_step n w).2 = w) /\
  (forall n, (get_next_step n w).2 = w) /\
  (forall tid ds, (get_task_instance json_loads tid ds w).2 = w) /\
  (forall s, (get_last_run_task_instance json_loads s w).2 = w).
Proof.
  repeat split; intros.
  - apply ro_get_step_status.
  - apply ro_get_pending_step.
  - apply ro_get_workflow_status.
  - apply ro_get_step.
  - apply ro_get_next_step.
  - apply ro_get_task_instance.
  - apply ro_get_last_run.
Qed.

(** ** What a call did, read off what it returned *)

Lemma bind_reads {A B} (m : M Workflow A) (k : A -> M Workflow B) (w : Workflow) :
  reads_only m ->
  bind m k w = match (m w).1 with
               | Ok a => k a w
               | Raise e => (Raise e, w)
               end.
Proof.
  intros Hm. unfold bind. rewrite (reads_only_run m w Hm). simpl.
  by destruct ((m w).1).
Qed.

(** Runs the next statement of a method when it only reads, and splits
    on what it returned. *)
Ltac read_next :=
  rewrite bind_reads by (auto with reads);
  match goal with
  | |- context [match ?r with Ok _ => _ | Raise _ => _ end] =>
      let E := fresh "E" in destruct r eqn:E
  end.

(** X2. [pause] tells what it did. When it returns [{paused: true}], the
    engine differs from what it was by exactly one call
    [revoke(task_id, terminate=True)], for the task id it reports; when it
    returns [{paused: false}], the engine is exactly as it was. A
    [pause] that raises has made at most that one call. In no case does
    [pause] send a task or write a document. *)
Theorem pause_reports (w : Workflow) :
  match pause w with
  | (Ok r, w') =>
      if paused r
      then exists rv, revoked_step r = Some rv /\ w' = cancelled (rv_task_id rv) w
      else r = not_paused /\ w' = w
  | (Raise e, w') => w' = w \/ exists tid, w' = cancelled tid w
  end /\
  sent (app (pause w).2) = sent (app w) /\
  wf_col (app (pause w).2) = wf_col (app w) /\
  workflow (pause w).2 = workflow w.
Proof.
  assert (match pause w with
          | (Ok r, w') =>
              if paused r
              then exists rv, revoked_step r = Some rv /\
                              w' = cancelled (rv_task_id rv) w
              else r = not_paused /\ w' = w
          | (Raise e, w') => w' = w \/ exists tid, w' = cancelled tid w
          end) as Hmain.
  { unfold pause. read_next; [|by left].
    destruct a as [[i st]|]; [|done].
    destruct (negb (str_in st [SUCCESS; FAILURE])); [|done].
    read_next; [|by left]. rename a into s.
    destruct (dict_get (task_runs s) []) as [rs|]; [|done].
    destruct (0 <? length rs)%nat; [|done].
    read_next; [|by left]. rename a into r.
    rewrite (bind_ok _ _ _ _ _ (on_app_revoke (task_id r) w)).
    unfold bind, lift_res.
    destruct (name s) as [n|]; simpl; [|right; by eexists].
    destruct (task s) as [t|]; simpl; [|right; by eexists].
    by eexists. }
  split; [exact Hmain|].
  destruct (pause w) as [[r|e] w'].
  - destruct (paused r).
    + by destruct Hmain as (rv & _ & ->).
    + by destruct Hmain as (_ & ->).
  - by destruct Hmain as [->|[tid ->]].
Qed.

(** X3. [resume] tells what it did. When it returns [{resumed: true}],
    the engine differs from what it was by exactly one call of
    [send_task], for the task and step it reports, with [workflow_id] and
    [step] as the only keyword arguments; when it returns
    [{resumed: false}] or raises, the engine is exactly as it was. *)
Theorem resume_reports (json_loads : string -> option pyval) (force : bool)
    (args : option (list pyval)) (w : Workflow) :
  match resume json_loads force args w with
  | (Ok r, w') =>
      if resumed r
      then exists rs a,
             restarted_step r = Some rs /\
             w' = dispatched (rs_task rs) a
                             (correlation (workflow w) (rs_name rs) ∅) w
      else r = not_resumed /\ w' = w
  | (Raise e, w') => w' = w
  end.
Proof.
  unfold resume. read_next; [|done].
  destruct a as [[i st]|]; [|done].
  destruct (str_in st [FAILURE; REVOKED] || force); [|done].
  read_next; [|done]. rename a into s.
  read_next; [|done]. rename a into inst.
  read_next; [|done].
  assert (exists ta,
    (match inst with
     | Some task_inst =>
         a <- lift_res (getitem "args" (t_args task_inst)) ;; ret (Some a)
     | None => ret args
     end : M Workflow _) w = (ta, w)) as [ta Hta].
  { destruct inst as [ti|]; [|by eexists].
    unfold bind, lift_res. destruct (t_args ti); by eexists. }
  unfold bind at 1. rewrite Hta. destruct ta as [ta|e]; [|done].
  unfold bind, gets, lift_res.
  destruct (name s) as [n|]; simpl; [|done].
  destruct (task s) as [t|]; simpl; [|done].
  by eexists _, _.
Qed.

(** X4. [on_step_success] sends at most one task: when it returns, the
    engine is as it was or differs by one call of [send_task] whose only
    positional argument is the first element of the return value; when it
    raises, nothing was sent. It never writes a document. *)
Theorem on_step_success_sends_at_most_one (retval : list pyval) (n : string)
    (w : Workflow) :
  match on_step_success retval n w with
  | (Ok _, w') =>
      w' = w \/
      exists t nxt v rest,
        retval = v :: rest /\
        w' = dispatched t (Some [v]) (correlation (workflow w) nxt ∅) w
  | (Raise e, w') => w' = w
  end.
Proof.
  unfold on_step_success. read_next; [|done].
  destruct a as [nxt|]; [|by left].
  destruct (step_truthy nxt); [|by left].
  unfold bind, gets, lift_res.
  destruct (name nxt) as [nn|]; simpl; [|done].
  destruct (task nxt) as [t|]; simpl; [|done].
  destruct retval as [|v rest]; simpl; [done|].
  right. by eexists _, _, _, _.
Qed.

(** ** Status: what can and cannot come out *)

Lemma status_scan_null (w : Workflow) (k : nat) (l : list Step) :
  ~ runs_ok l ->
  for_each (fun '(i, step) => status <- get_step_status step ;; ret (i, status))
           (enumerate_from k l) w = (Raise TypeError, w).
Proof.
  revert k. induction l as [|s l IH]; intros k Hbad.
  - destruct Hbad. constructor.
  - simpl.
    assert (task_runs s = Null \/ task_runs s <> Null) as [Hnull|Hok]
      by (destruct (task_runs s); [right|left|right]; congruence).
    + erewrite bind_raise; [done|].
      erewrite bind_raise; [done|]. by apply get_step_status_null.
    + mstep ltac:(mstep ltac:(by apply get_step_status_ok); done).
      erewrite bind_raise; [done|]. apply IH.
      intros H. apply Hbad. by constructor.
Qed.

Lemma get_pending_step_null (w : Workflow) :
  ~ runs_ok (steps (workflow w)) -> get_pending_step w = (Raise TypeError, w).
Proof.
  intros Hbad. unfold get_pending_step. mgets.
  erewrite bind_raise; [done|]. by apply status_scan_null.
Qed.

(** X5. A step that holds [None] under [task_runs], wherever it is in the
    workflow and whatever the other steps are, makes every method that
    derives statuses raise TypeError: [get_pending_step],
    [get_workflow_status], [pause] and [resume]. Nothing is revoked or
    sent. *)
Theorem null_task_runs_raise (json_loads : string -> option pyval) (w : Workflow) :
  ~ runs_ok (steps (workflow w)) ->
  get_pending_step w = (Raise TypeError, w) /\
  get_workflow_status w = (Raise TypeError, w) /\
  pause w = (Raise TypeError, w) /\
  forall force args, resume json_loads force args w = (Raise TypeError, w).
Proof.
  intros Hbad. pose proof (get_pending_step_null w Hbad) as Hp.
  repeat split; intros.
  - done.
  - unfold get_workflow_status. by erewrite bind_raise.
  - unfold pause. by erewrite bind_raise.
  - unfold resume. by erewrite bind_raise.
Qed.

Lemma find_not_success_some (k : nat) (sts : list string) (i : nat) (st : string) :
  find not_success (enumerate_from k sts) = Some (i, st) ->
  k <= i /\ sts !! (i - k) = Some st /\ st <> SUCCESS /\
  forall j st', j < i - k -> sts !! j = Some st' -> st' = SUCCESS.
Proof.
  revert k. induction sts as [|x sts IH]; intros k; [done|]. simpl.
  unfold not_success at 1. simpl.
  destruct (String.eqb x SUCCESS) eqn:Ex; simpl.
  - apply String.eqb_eq in Ex as ->. intros H.
    destruct (IH (S k) H) as (Hle & Hi & Hne & Hbefore).
    split; [lia|]. replace (i - k) with (S (i - S k)) by lia.
    split; [done|]. split; [done|].
    intros [|j] st' Hj; simpl; [by intros [= <-]|].
    apply Hbefore. lia.
  - apply String.eqb_neq in Ex. intros [= <- <-].
    rewrite Nat.sub_diag. split; [lia|]. split; [done|]. split; [done|].
    intros j st' Hj. lia.
Qed.

Lemma find_not_success_none (k : nat) (sts : list string) :
  find not_success (enumerate_from k sts) = None ->
  Forall (fun st => st = SUCCESS) sts.
Proof.
  revert k. induction sts as [|x sts IH]; intros k; [constructor|]. simpl.
  unfold not_success at 1. simpl.
  destruct (String.eqb x SUCCESS) eqn:Ex; simpl; [|done].
  apply String.eqb_eq in Ex as ->. intros H. constructor; [done|by apply (IH (S k))].
Qed.

(** What [get_pending_step] returned, in terms of the steps. *)
Lemma get_pending_step_inv (w : Workflow) (p : option (nat * string)) :
  (get_pending_step w).1 = Ok p ->
  runs_ok (steps (workflow w)) /\
  match p with
  | Some (i, st) => exists s, pending_at w i s st
  | None => all_succeeded w
  end.
Proof.
  intros Hp.
  destruct (decide (runs_ok (steps (workflow w)))) as [Hok|Hbad];
    [|by rewrite get_pending_step_null in Hp].
  split; [done|]. rewrite get_pending_step_find in Hp by done.
  simpl in Hp. injection Hp as <-. unfold enumerate.
  destruct (find not_success (enumerate_from 0 (statuses w))) as [[i st]|] eqn:E.
  - apply find_not_success_some in E as (_ & Hi & Hne & Hbefore).
    rewrite Nat.sub_0_r in Hi, Hbefore. unfold statuses in Hi.
    rewrite list_lookup_fmap in Hi.
    destruct (steps (workflow w) !! i) as [s|] eqn:Hs; [|done].
    injection Hi as Hst. exists s. split; [done|]. split; [done|]. split; [done|].
    intros j s' Hj Hs'. apply (Hbefore j); [done|].
    unfold statuses. by rewrite list_lookup_fmap, Hs'.
  - apply find_not_success_none in E. unfold all_succeeded, statuses in *.
    by apply Forall_map in E.
Qed.

(** X6. The status of a workflow is never RETRY. It is SUCCESS exactly
    when every step has status SUCCESS, and PENDING exactly when the
    first step has status PENDING. *)
Theorem workflow_status_range (w : Workflow) (st : string) :
  (get_workflow_status w).1 = Ok st ->
  st <> RETRY /\
  (st = SUCCESS <-> all_succeeded w) /\
  (st = PENDING <->
   exists s rest, steps (workflow w) = s :: rest /\
                  derived_status (app w) s = PENDING).
Proof.
  unfold get_workflow_status. rewrite bind_reads by auto with reads.
  destruct ((get_pending_step w).1) as [p|e] eqn:Ep; [|done].
  destruct (get_pending_step_inv w p Ep) as [Hok Hp].
  destruct p as [[i ps]|].
  - destruct Hp as (s & Hi & Hst & Hne & Hbefore).
    assert (~ all_succeeded w) as Hnot.
    { intros Hall. unfold all_succeeded in Hall. rewrite Forall_forall in Hall.
      apply Hne. rewrite <- Hst. apply Hall. by apply list_elem_of_lookup_2 in Hi. }
    assert ((exists s0 rest, steps (workflow w) = s0 :: rest /\
                             derived_status (app w) s0 = PENDING)
            <-> i = 0 /\ ps = PENDING) as Hfirst.
    { split.
      - intros (s0 & rest & Hsteps & Hs0). destruct i as [|i].
        + rewrite Hsteps in Hi. injection Hi as <-. split; [done|by rewrite <- Hst].
        + specialize (Hbefore 0 s0 ltac:(lia)). rewrite Hsteps in Hbefore.
          specialize (Hbefore eq_refl). rewrite Hs0 in Hbefore. discriminate.
      - intros [-> ->]. destruct (steps (workflow w)) as [|s0 rest]; [done|].
        injection Hi as ->. by exists s, rest. }
    destruct ((i =? 0)%nat && String.eqb ps PENDING) eqn:Efirst.
    + apply andb_true_iff in Efirst as [Hi0%Nat.eqb_eq Hps%String.eqb_eq].
      simpl. intros [= <-]. split; [done|]. split.
      * split; [done|]. intros Hall. by destruct Hnot.
      * split; [intros _; apply Hfirst; by split|done].
    + assert (~ (i = 0 /\ ps = PENDING)) as Hnf.
      { intros [-> ->]. by rewrite String.eqb_refl in Efirst. }
      destruct (str_in ps [STARTED; RETRY; PENDING]) eqn:Ein; simpl; intros [= <-].
      * split; [done|]. split; [split; [done|by intros ?]|].
        split; [done|]. intros H. by apply Hfirst in H.
      * assert (ps ∉ [STARTED; RETRY; PENDING]) as Hnin.
        { intros Hin. by rewrite (str_in_true _ _ Hin) in Ein. }
        split; [intros ->; apply Hnin; right; left|].
        split; [split; [done|by intros ?]|].
        split; [intros ->; destruct Hnin; do 2 right; left|].
        intros H. by apply Hfirst in H.
  - simpl. intros [= <-]. split; [done|]. split; [done|].
    split; [done|]. intros (s & rest & Hsteps & Hs).
    unfold all_succeeded in Hp. rewrite Hsteps in Hp.
    apply Forall_cons in Hp as [Hp _]. rewrite Hs in Hp. discriminate.
Qed.

(** ** More on resume *)

(** X7. The status gate of [resume] cannot be passed by arguments: without
    [force], a pending step whose status is neither FAILURE nor REVOKED
    is not resumed whatever [args] is; and when all steps have succeeded,
    nothing is resumed even with [force]. Nothing is sent in either case. *)
Theorem resume_gate (json_loads : string -> option pyval) (w : Workflow) :
  runs_ok (steps (workflow w)) ->
  (all_succeeded w ->
   forall force args, resume json_loads force args w = (Ok not_resumed, w)) /\
  (forall i s st args,
     pending_at w i s st -> st <> FAILURE -> st <> REVOKED ->
     resume json_loads false args w = (Ok not_resumed, w)).
Proof.
  intros Hok. split.
  - intros Hall force args. unfold resume.
    mstep ltac:(by apply get_pending_step_none). done.
  - intros i s st args Hp Hf Hr. unfold resume.
    mstep ltac:(by apply (get_pending_step_at w i s st)).
    rewrite str_in_false by (by apply not_elem_of_pair). done.
Qed.

(** X8. When the backend has the record of the latest run of an eligible
    pending step but that record holds no [args], [resume] raises
    KeyError('args') and sends nothing, also when the caller gave
    [args]: the caller's arguments are only used when no record is found. *)
Theorem resume_record_without_args (json_loads : string -> option pyval)
    (w : Workflow) (force : bool) (args : option (list pyval))
    (i : nat) (s : Step) (st : string) (rs : list TaskRun) (r : TaskRun)
    (rec : TaskDoc) :
  runs_ok (steps (workflow w)) ->
  pending_at w i s st ->
  st = FAILURE \/ st = REVOKED \/ force = true ->
  step_runs s = rs ++ [r] ->
  backend_col (app w) !! task_id r = Some rec ->
  t_args rec = None ->
  resume json_loads force args w = (Raise (KeyError "args"), w).
Proof.
  intros Hok Hp Hel Hruns Hrec Hargs.
  destruct (get_task_instance_some json_loads (task_id r) (date_start r) w rec Hrec)
    as (inst & Hinst & _ & Hia & _).
  rewrite (resume_eligible json_loads w force args i s st (Some inst))
    by (try done; by rewrite (get_last_run_snoc _ _ _ _ _ Hruns)).
  mstep ltac:(done). rewrite Hia, Hargs. done.
Qed.

(** ** More on [duplicates] *)

Lemma keys_of_filtered (P : string * nat -> bool) (f : string * nat -> nat)
    (c : list (string * nat)) :
  NoDup (map fst c) ->
  NoDup (map fst (filter (fun p => P p) (map (fun p => (p.1, f p)) c))).
Proof.
  induction c as [|[k n] c IH]; intros Hnd; [constructor|].
  simpl in Hnd. apply NoDup_cons in Hnd as [Hnotin Hnd].
  simpl. rewrite filter_cons. destruct (decide (P (k, f (k, n)))); [|by apply IH].
  simpl. apply NoDup_cons. split; [|by apply IH].
  intros Hin. apply Hnotin.
  apply list_elem_of_fmap in Hin as ([k' m] & -> & Hin).
  apply list_elem_of_filter in Hin as [_ Hin].
  apply list_elem_of_fmap in Hin as ([k0 n0] & [= -> ->] & Hin).
  apply list_elem_of_fmap. by exists (k0, n0).
Qed.

(** X9. [duplicates(items)] lists exactly the items that occur at least
    twice in [items], each of them once; it is empty exactly when no item
    is repeated. *)
Theorem duplicates_spec (items : list string) :
  NoDup (duplicates items) /\
  (forall k, k ∈ duplicates items <-> 2 <= occ k items) /\
  (duplicates items = [] <-> NoDup items).
Proof.
  split; [|split].
  - unfold duplicates, counter_sub. apply keys_of_filtered.
    apply (Counter_keys items [] NoDup_nil_2).
  - intros k. apply elem_of_duplicates.
  - apply duplicates_nil.
Qed.

(** ** Looking a step up by name *)

Lemma dropwhile_name_unknown (l : list Step) (n : string) :
  Forall (fun s => is_Some (name s)) l ->
  n ∉ omap name l ->
  dropwhile (name_differs n) l = Ok [].
Proof.
  induction 1 as [|x l [nx Hx] Hl IH]; intros Hnotin; [done|]. simpl in *.
  rewrite Hx in Hnotin. apply not_elem_of_cons in Hnotin as [Hne Hnotin].
  rewrite (name_differs_ne n nx) by done. by apply IH.
Qed.

Lemma get_step_unknown (w : Workflow) (n : string) :
  Forall (fun s => is_Some (name s)) (steps (workflow w)) ->
  n ∉ omap name (steps (workflow w)) ->
  get_step n w = (Ok None, w).
Proof.
  intros Hnamed Hnotin. unfold get_step. mgets.
  mstep ltac:(apply lift_res_ok; by apply dropwhile_name_unknown). done.
Qed.

Lemma get_next_step_unknown (w : Workflow) (n : string) :
  Forall (fun s => is_Some (name s)) (steps (workflow w)) ->
  n ∉ omap name (steps (workflow w)) ->
  get_next_step n w = (Ok None, w).
Proof.
  intros Hnamed Hnotin. unfold get_next_step. mgets.
  mstep ltac:(apply lift_res_ok; by apply dropwhile_name_unknown). done.
Qed.

Lemma on_step_start_unknown (w : Workflow) (n tid : string) :
  Forall (fun s => is_Some (name s)) (steps (workflow w)) ->
  n ∉ omap name (steps (workflow w)) ->
  on_step_start n tid w = (Raise AttributeError, w).
Proof.
  intros Hnamed Hnotin. unfold on_step_start.
  by mstep ltac:(by apply get_step_unknown).
Qed.

(** X10. A step name that no step of the workflow has: [get_step] and
    [get_next_step] return [None]; [on_step_start] and
    [update_step_end_time] raise AttributeError before they change
    anything; [on_step_success] returns without sending anything. The
    engine is as it was in each case. *)
Theorem unknown_step_name (w : Workflow) (n : string) :
  Forall (fun s => is_Some (name s)) (steps (workflow w)) ->
  n ∉ omap name (steps (workflow w)) ->
  get_step n w = (Ok None, w) /\
  get_next_step n w = (Ok None, w) /\
  (forall tid, on_step_start n tid w = (Raise AttributeError, w)) /\
  update_step_end_time n w = (Raise AttributeError, w) /\
  (forall retval, on_step_success retval n w = (Ok tt, w)).
Proof.
  intros Hnamed Hnotin.
  pose proof (get_step_unknown w n Hnamed Hnotin) as Hget.
  pose proof (get_next_step_unknown w n Hnamed Hnotin) as Hnext.
  repeat split; try done; intros.
  - unfold on_step_start. by mstep ltac:(exact Hget).
  - unfold update_step_end_time. by mstep ltac:(exact Hget).
  - unfold on_step_success. by mstep ltac:(exact Hnext).
Qed.

(** ** What the writing methods write *)

Lemma get_step_at (w : Workflow) (i : nat) (s : Step) (n : string) :
  Forall step_ok (steps (workflow w)) ->
  NoDup (omap name (steps (workflow w))) ->
  steps (workflow w) !! i = Some s -> name s = Some n ->
  get_step n w = (Ok (Some i), w).
Proof.
  intros Hall Hnd Hi Hn. unfold get_step. mgets.
  mstep ltac:(apply lift_res_ok; by apply (dropwhile_name_at _ i s)).
  pose proof (lookup_lt_Some _ _ _ Hi) as Hlt.
  destruct (drop i (steps (workflow w))) as [|x it] eqn:E.
  - apply (f_equal length) in E. rewrite length_drop in E. simpl in E. lia.
  - rewrite <- E, length_drop. unfold ret. do 3 f_equal. lia.
Qed.

(** The engine after [update]: the document with [updated_at] set, and
    the store with that document over the stored one, if there is one. *)
Lemma update_run (w : Workflow) :
  let d' := set_updated_at (Some (clock (app w) (clock_n (app w)))) (workflow w) in
  update w
  = (Ok tt,
     {| app := (update_one (_id d') d' (tick_clock (app w))).2;
        workflow := d' |}).
Proof.
  unfold update, bind, on_app, utcnow, modify, gets, update_one. simpl.
  by destruct (wf_col (app w) !! _id (workflow w)).
Qed.

Lemma on_step_start_run (w : Workflow) (i : nat) (s : Step) (n tid : string) :
  Forall step_ok (steps (workflow w)) ->
  NoDup (omap name (steps (workflow w))) ->
  steps (workflow w) !! i = Some s -> name s = Some n ->
  task_runs s <> Null ->
  let a := app w in
  let d' := with_new_run (workflow w) i s tid (clock a (clock_n a))
                         (clock a (S (clock_n a))) in
  on_step_start n tid w
  = (Ok tt,
     {| app := (update_one (_id d') d' (after_ticks 2 a)).2; workflow := d' |}).
Proof.
  intros Hall Hnd Hi Hn Hruns a d'. unfold on_step_start.
  mstep ltac:(by apply (get_step_at w i s n)).
  mstep ltac:(by apply step_at_lookup).
  rewrite dict_get_runs by done. cbv zeta.
  cbv beta iota delta [bind on_app utcnow set_step_at modify].
  rewrite update_run. simpl. rewrite list_insert_insert_eq. done.
Qed.

(** X11. [on_step_start], called with the name of step [i] of a workflow
    whose steps are well formed: the step gets one more run record, after
    the ones it had, with the given task id, the time of the call as
    [date_start] and no [end_time]; no other step changes; [updated_at]
    is set; and the stored document, if there is one under this id,
    becomes the engine's document. Nothing is sent or revoked. *)
Theorem on_step_start_exact (w : Workflow) (i : nat) (s : Step) (n tid : string) :
  Forall step_ok (steps (workflow w)) ->
  NoDup (omap name (steps (workflow w))) ->
  steps (workflow w) !! i = Some s -> name s = Some n ->
  task_runs s <> Null ->
  exists w',
    on_step_start n tid w = (Ok tt, w') /\
    steps (workflow w') !! i
    = Some (set_task_runs
              (Val (step_runs s ++
                    [{| task_id := tid;
                        date_start := Some (clock (app w) (clock_n (app w)));
                        end_time := None |}])) s) /\
    (forall j, j <> i -> steps (workflow w') !! j = steps (workflow w) !! j) /\
    length (steps (workflow w')) = length (steps (workflow w)) /\
    updated_at (workflow w') = Some (clock (app w) (S (clock_n (app w)))) /\
    (is_Some (wf_col (app w) !! _id (workflow w)) ->
     wf_col (app w') = <[_id (workflow w) := workflow w']> (wf_col (app w))) /\
    (wf_col (app w) !! _id (workflow w) = None ->
     wf_col (app w') = wf_col (app w)) /\
    sent (app w') = sent (app w) /\ revoked (app w') = revoked (app w).
Proof.
  intros Hall Hnd Hi Hn Hruns. eexists. split; [by apply (on_step_start_run w i s)|].
  pose proof (lookup_lt_Some _ _ _ Hi) as Hlt. simpl.
  split; [by apply list_lookup_insert_eq|].
  split; [intros j Hj; by apply list_lookup_insert_ne|].
  split; [apply length_insert|]. split; [done|].
  unfold update_one. simpl.
  destruct (wf_col (app w) !! _id (workflow w)) as [d|] eqn:Hd; simpl;
    repeat split; try done; by intros [? ?].
Qed.

Lemma update_step_end_time_run (w : Workflow) (i : nat) (s : Step) (n : string)
    (rs : list TaskRun) (r : TaskRun) :
  Forall step_ok (steps (workflow w)) ->
  NoDup (omap name (steps (workflow w))) ->
  steps (workflow w) !! i = Some s -> name s = Some n ->
  step_runs s = rs ++ [r] ->
  let a := app w in
  let d' := with_end_time (workflow w) i s (clock a (clock_n a))
                          (clock a (S (clock_n a))) in
  update_step_end_time n w
  = (Ok tt,
     {| app := (update_one (_id d') d' (after_ticks 2 a)).2; workflow := d' |}).
Proof.
  intros Hall Hnd Hi Hn Hruns a d'. unfold update_step_end_time.
  mstep ltac:(by apply (get_step_at w i s n)).
  mstep ltac:(by apply step_at_lookup).
  assert (task_runs s <> Null) as Hnn.
  { unfold step_runs in Hruns. destruct (task_runs s); try done. by destruct rs. }
  rewrite dict_get_runs by done. cbv zeta. simpl len. rewrite Hruns.
  mstep ltac:(by apply lift_res_ok). rewrite length_snoc_pos.
  cbv beta iota delta [bind on_app utcnow set_step_at modify].
  rewrite update_run. simpl. unfold d', with_end_time. by rewrite Hruns.
Qed.

(** X12. [update_step_end_time], called with the name of step [i] of a
    workflow whose steps are well formed: when the step has run records,
    the last one gets the time of the call as [end_time] and keeps its
    task id and start date, the records before it and the other steps are
    unchanged; when the step has no run record, only [updated_at]
    changes. The document is written to the store either way. *)
Theorem update_step_end_time_exact (w : Workflow) (i : nat) (s : Step) (n : string) :
  Forall step_ok (steps (workflow w)) ->
  NoDup (omap name (steps (workflow w))) ->
  steps (workflow w) !! i = Some s -> name s = Some n ->
  task_runs s <> Null ->
  exists w',
    update_step_end_time n w = (Ok tt, w') /\
    (forall rs r,
       step_runs s = rs ++ [r] ->
       (step_runs <$> steps (workflow w') !! i)
       = Some (rs ++ [set_end_time (Some (clock (app w) (clock_n (app w)))) r])) /\
    (step_runs s = [] -> steps (workflow w') = steps (workflow w)) /\
    (forall j, j <> i -> steps (workflow w') !! j = steps (workflow w) !! j) /\
    (is_Some (wf_col (app w) !! _id (workflow w)) ->
     wf_col (app w') = <[_id (workflow w) := workflow w']> (wf_col (app w))).
Proof.
  intros Hall Hnd Hi Hn Hnn.
  pose proof (lookup_lt_Some _ _ _ Hi) as Hlt.
  destruct (step_runs s) as [|r rs _] eqn:Hruns using rev_ind.
  - exists (update w).2. split.
    + unfold update_step_end_time.
      mstep ltac:(by apply (get_step_at w i s n)).
      mstep ltac:(by apply step_at_lookup).
      rewrite dict_get_runs, Hruns by done. cbv zeta. simpl len.
      mstep ltac:(by apply lift_res_ok). simpl.
      mstep ltac:(done). by rewrite update_run.
    + rewrite update_run. simpl. split; [by intros [|? ?] ?|].
      split; [done|]. split; [done|].
      intros [d Hd]. unfold update_one. simpl. by rewrite Hd.
  - eexists. split; [by apply (update_step_end_time_run w i s n rs r)|]. simpl.
    split.
    + intros rs' r' Heq. apply app_inj_tail in Heq as [<- <-].
      rewrite list_lookup_insert_eq by done. simpl.
      rewrite Hruns, alter_last_snoc. done.
    + split; [intros Hnil; try rewrite Hruns in Hnil; by destruct rs|].
      split; [intros j Hj; by apply list_lookup_insert_ne|].
      intros [d Hd]. unfold update_one. simpl. by rewrite Hd.
Qed.

(** ** Writing, then reading *)

(** What a creation that returned was given, and what it left. *)
Lemma create_ok_inv (a a' : App) (l : list Step) (name_ : option string)
    (w : Workflow) :
  new_Workflow a None (Some l) name_ = (Ok w, a') ->
  valid_steps l /\
  wf_col a !! uuids a (uuids_n a) = None /\
  app w = a' /\
  workflow w = {| _id := uuids a (uuids_n a);
                  created_at := Some (clock a (clock_n a));
                  updated_at := None; steps := l; wf_name := name_ |} /\
  wf_col a' = <[uuids a (uuids_n a) := workflow w]> (wf_col a).
Proof.
  unfold new_Workflow.
  destruct (decide (valid_steps l)) as [Hvalid|Hbad];
    [|by rewrite create_invalid].
  destruct (wf_col a !! uuids a (uuids_n a)) as [d|] eqn:Hfresh.
  - by rewrite create_taken.
  - rewrite create_valid by done. intros [= <- <-]. done.
Qed.

(** X13. Creation and loading round-trip: when creation returns an
    engine, loading by its identifier from the application it left
    returns and writes nothing, whatever [steps] and [name] are passed
    along; the loaded engine has the identifier and the name of the
    created one, and the steps given at creation in the same order, by
    name and by task. A creation that returned was given valid steps, and
    the created engine holds them. *)
Theorem create_then_load (a a' : App) (l : list Step) (name_ : option string)
    (w : Workflow) :
  new_Workflow a None (Some l) name_ = (Ok w, a') ->
  valid_steps l /\
  steps (workflow w) = l /\
  forall steps' name',
    exists w2,
      new_Workflow a' (Some (_id (workflow w))) steps' name' = (Ok w2, a') /\
      _id (workflow w2) = _id (workflow w) /\
      wf_name (workflow w2) = name_ /\
      map name (steps (workflow w2)) = map name l /\
      map task (steps (workflow w2)) = map task l.
Proof.
  intros Hcreate.
  destruct (create_ok_inv a a' l name_ w Hcreate) as (Hvalid & _ & Happ & Hwf & Hcol).
  assert (wf_col a' !! _id (workflow w) = Some (workflow w)) as Hstored.
  { rewrite Hcol, Hwf. simpl. apply lookup_insert_eq. }
  split; [done|]. split; [by rewrite Hwf|].
  intros steps' name'. exists {| app := a'; workflow := workflow w |}.
  split.
  - unfold new_Workflow, __init__, bind, find_one, gets.
    by rewrite Hstored.
  - simpl. by rewrite Hwf.
Qed.

Lemma derived_status_no_runs (a : App) (s : Step) :
  task_runs s = Absent -> derived_status a s = PENDING.
Proof. intros H. unfold derived_status, step_runs. by rewrite H. Qed.

(** X14. A workflow created from steps that carry no run records is not
    started: straight after creation its status is PENDING, its pending
    step is the first one, [pause] has nothing to revoke and [resume]
    without [force] resumes nothing. *)
Theorem created_is_pending (json_loads : string -> option pyval) (a a' : App)
    (l : list Step) (name_ : option string) (w : Workflow) :
  new_Workflow a None (Some l) name_ = (Ok w, a') ->
  Forall (fun s => task_runs s = Absent) l ->
  get_workflow_status w = (Ok PENDING, w) /\
  get_pending_step w = (Ok (Some (0, PENDING)), w) /\
  pause w = (Ok not_paused, w) /\
  forall args, resume json_loads false args w = (Ok not_resumed, w).
Proof.
  intros Hcreate Hplain.
  destruct (create_ok_inv a a' l name_ w Hcreate) as (Hvalid & _ & _ & Hwf & _).
  destruct Hvalid as (Hne & _ & _).
  destruct l as [|s rest]; [done|].
  assert (steps (workflow w) = s :: rest) as Hsteps by (by rewrite Hwf).
  assert (runs_ok (steps (workflow w))) as Hok.
  { rewrite Hsteps. eapply Forall_impl; [exact Hplain|]. simpl. congruence. }
  assert (task_runs s = Absent) as Hs by (by apply Forall_cons in Hplain as [? _]).
  assert (pending_at w 0 s PENDING) as Hp.
  { split; [by rewrite Hsteps|]. split; [by apply derived_status_no_runs|].
    split; [done|]. intros j s' Hj. lia. }
  pose proof (get_pending_step_at w 0 s PENDING Hok Hp) as Hpend.
  split; [|split; [done|split]].
  - unfold get_workflow_status. by mstep ltac:(exact Hpend).
  - unfold pause. mstep ltac:(exact Hpend).
    rewrite (str_in_false PENDING [SUCCESS; FAILURE]) by (by apply not_elem_of_pair).
    cbn [negb].
    mstep ltac:(apply step_at_lookup, (pending_at_lookup w 0 s PENDING Hp)).
    by rewrite Hs.
  - intros args. unfold resume. by mstep ltac:(exact Hpend).
Qed.

(** X15. What [update] writes can be loaded: when a document is stored
    under the engine's identifier, whatever that document is, loading by
    that identifier after [update] returns an engine with the identifier
    and the name of the updating engine and with its steps in the same
    order, by name, by task and by the task ids of their run records.
    [update] never inserts: when no document is stored under the
    identifier, the store is left as it was and loading still raises. *)
Theorem update_then_load (w : Workflow) :
  (is_Some (wf_col (app w) !! _id (workflow w)) ->
   exists w2,
     new_Workflow (app (update w).2) (Some (_id (workflow w))) None None
     = (Ok w2, app (update w).2) /\
     _id (workflow w2) = _id (workflow w) /\
     wf_name (workflow w2) = wf_name (workflow w) /\
     map name (steps (workflow w2)) = map name (steps (workflow w)) /\
     map task (steps (workflow w2)) = map task (steps (workflow w)) /\
     run_ids (workflow w2) = run_ids (workflow w)) /\
  (wf_col (app w) !! _id (workflow w) = None ->
   wf_col (app (update w).2) = wf_col (app w) /\
   new_Workflow (app (update w).2) (Some (_id (workflow w))) None None
   = (Raise (PyException (not_found_msg (_id (workflow w)))), app (update w).2)).
Proof.
  rewrite update_run. simpl. unfold update_one. simpl. split.
  - intros [d Hd]. rewrite Hd. simpl. eexists. split.
    + unfold new_Workflow, __init__, bind, find_one, gets. simpl.
      by rewrite lookup_insert_eq.
    + done.
  - intros Hd. rewrite Hd. simpl. split; [done|].
    unfold new_Workflow, __init__, bind, find_one, gets. simpl. by rewrite Hd.
Qed.

(** X16. [refresh] brings an engine back in step with the store: in a
    store that keeps documents under their own identifier, whatever the
    engine's document was, after [refresh] it is the stored one and the
    application is untouched. When no document is stored under the
    engine's identifier, [refresh] raises and the engine keeps its
    document. *)
Theorem refresh_syncs (w : Workflow) :
  (forall d,
     store_ok (app w) ->
     wf_col (app w) !! _id (workflow w) = Some d ->
     refresh w = (Ok tt, {| app := app w; workflow := d |}) /\
     in_sync {| app := app w; workflow := d |}) /\
  (wf_col (app w) !! _id (workflow w) = None ->
   refresh w = (Raise (PyException (not_found_msg (_id (workflow w)))), w)).
Proof.
  split.
  - intros d Hstore Hd. split.
    + unfold refresh. mgets. mstep ltac:(apply on_app_gets). by rewrite Hd.
    + unfold in_sync. simpl. by rewrite (Hstore _ _ Hd).
  - intros Hd. unfold refresh. mgets. mstep ltac:(apply on_app_gets).
    by rewrite Hd.
Qed.

(** X17. [get_task_instance] on a task the backend has a record of: the
    record comes back with its id and arguments, with [date_start] set to
    the given one ([None] when none is given), and with the result
    decoded when it is a string that [json.loads] accepts; a result that
    is missing or [None] is left alone. On a task the backend has no
    record of, it returns [None]. The backend's collection is not
    written. *)
Theorem get_task_instance_decodes (json_loads : string -> option pyval)
    (w : Workflow) (tid : string) (ds : option Z) :
  (backend_col (app w) !! tid = None ->
   get_task_instance json_loads tid ds w = (Ok None, w)) /\
  (forall rec,
     backend_col (app w) !! tid = Some rec ->
     (forall str j,
        t_result rec = Some (VStr str) -> json_loads str = Some j ->
        get_task_instance json_loads tid ds w
        = (Ok (Some {| t_id := t_id rec; t_args := t_args rec;
                       t_result := Some j;
                       t_date_start := from_option Val Null ds |}), w)) /\
     (t_result rec = None \/ t_result rec = Some VNone ->
      get_task_instance json_loads tid ds w
      = (Ok (Some {| t_id := t_id rec; t_args := t_args rec;
                     t_result := t_result rec;
                     t_date_start := from_option Val Null ds |}), w))).
Proof.
  split; [apply get_task_instance_none|].
  intros rec Hrec. split.
  - intros str j Hres Hj. unfold get_task_instance.
    mstep ltac:(apply on_app_gets). rewrite Hrec. cbv beta iota zeta.
    cbn [t_result t_id t_args t_date_start]. rewrite Hres.
    unfold try_except, json_loads_val, bind. by rewrite Hj.
  - intros Hres. unfold get_task_instance.
    mstep ltac:(apply on_app_gets). rewrite Hrec. cbv beta iota zeta.
    cbn [t_result t_id t_args t_date_start]. by destruct Hres as [-> | ->].
Qed.

(** ** The embellished view *)

Lemma for_each_spec {S A B} (P : A -> B -> Prop) (f : A -> M S B) (l : list A)
    (s : S) :
  (forall x, x ∈ l -> exists y, f x s = (Ok y, s) /\ P x y) ->
  exists ys, for_each f l s = (Ok ys, s) /\ Forall2 P l ys.
Proof.
  induction l as [|x l IH]; intros Hf; simpl; [by exists []|].
  destruct (Hf x) as (y & Hy & HP); [left|].
  destruct IH as (ys & Hys & HPs); [intros z Hz; apply Hf; by right|].
  exists (y :: ys). split; [|by constructor].
  mstep ltac:(exact Hy). mstep ltac:(exact Hys). done.
Qed.

Lemma Forall2_map_eq {A B C} (f : B -> C) (g : A -> C) (l : list A) (ys : list B) :
  Forall2 (fun x y => f y = g x) l ys -> map f ys = map g l.
Proof. induction 1 as [|x y l ys H _ IH]; simpl; [done|]. by rewrite H, IH. Qed.

Lemma embellish_step_fields (json_loads : string -> option pyval) (l p : bool)
    (s : Step) (w : Workflow) :
  is_Some (name s) -> is_Some (task s) -> task_runs s <> Null ->
  exists e, embellish_step json_loads l p s w = (Ok e, w) /\
            embellished json_loads l p w s e.
Proof.
  intros [n Hn] [t Ht] Hruns. unfold embellish_step.
  mstep ltac:(by apply getitem_some). mstep ltac:(by apply getitem_some).
  mstep ltac:(by apply get_step_status_ok).
  assert (exists last,
    (if l then inst <- get_last_run_task_instance json_loads s ;; ret (Some inst)
     else ret None) w = (Ok last, w) /\
    (if l
     then exists o, get_last_run_task_instance json_loads s w = (Ok o, w) /\
                    last = Some o
     else last = None)) as (last & Hlast & Hlastv).
  { destruct l; [|by eexists].
    destruct (get_last_run_total json_loads s w) as [o Ho].
    exists (Some o). split; [by mstep ltac:(exact Ho)|]. by exists o. }
  mstep ltac:(exact Hlast).
  assert (exists prev,
    (if p
     then match dict_get (task_runs s) [] with
          | Some task_runs =>
              l <- for_each (fun t => get_task_instance json_loads (task_id t)
                                                        (date_start t))
                            (all_but_last task_runs) ;;
              ret (Some l)
          | None => raise TypeError
          end
     else ret None) w = (Ok prev, w) /\
    (if p
     then exists pr, prev = Some pr /\ length pr = length (step_runs s) - 1
     else prev = None)) as (prev & Hprev & Hprevv).
  { destruct p; [|by eexists]. rewrite dict_get_runs by done.
    destruct (for_each_spec (fun _ _ => True)
                (fun t => get_task_instance json_loads (task_id t) (date_start t))
                (all_but_last (step_runs s)) w) as (ys & Hys & Hlen).
    { intros x _. destruct (get_task_instance_total json_loads (task_id x)
                              (date_start x) w) as [o Ho]. by exists o. }
    exists (Some ys). split; [by mstep ltac:(exact Hys)|].
    exists ys. split; [done|]. apply Forall2_length in Hlen.
    rewrite <- Hlen. unfold all_but_last.
    destruct (step_runs s) as [|r rs _] using rev_ind; [done|].
    rewrite removelast_last, length_app. simpl. lia. }
  mstep ltac:(exact Hprev). eexists. split; [done|].
  unfold embellished. simpl. by rewrite Hn, Ht.
Qed.

(** X18. The embellished view of a stored workflow whose steps have
    their name, task and run records: it is computed on the stored
    document, which becomes the engine's; it has one entry per step, in
    order, with the step's name, task and derived status; [status] is the
    workflow status; [total_steps] is the number of steps and
    [steps_done] the position of the pending step, or the number of steps
    when all succeeded, so that it never exceeds [total_steps]; the keys
    [last_task_run] and [prev_task_runs] are there exactly when asked
    for, [prev_task_runs] holding one entry per run record but the last. *)
Theorem embellished_view_summary (json_loads : string -> option pyval)
    (w : Workflow) (d : Doc) (l p : bool) :
  wf_col (app w) !! _id (workflow w) = Some d ->
  Forall (fun s => is_Some (name s) /\ is_Some (task s)) (steps d) ->
  runs_ok (steps d) ->
  let w1 := set_workflow d w in
  exists view,
    get_embellished_workflow json_loads l p w = (Ok view, w1) /\
    v_id view = _id d /\
    v_total_steps view = length (steps d) /\
    (get_workflow_status w1).1 = Ok (v_status view) /\
    Forall2 (embellished json_loads l p w1) (steps d) (v_steps view) /\
    map e_status (v_steps view) = statuses w1 /\
    (all_succeeded w1 -> v_steps_done view = length (steps d)) /\
    (forall i s st, pending_at w1 i s st -> v_steps_done view = i) /\
    v_steps_done view <= v_total_steps view.
Proof.
  intros Hd Hkeys Hok w1. unfold get_embellished_workflow.
  assert (refresh w = (Ok tt, w1)) as Hrefresh.
  { unfold refresh. mgets. mstep ltac:(apply on_app_gets). by rewrite Hd. }
  mstep ltac:(exact Hrefresh).
  assert (runs_ok (steps (workflow w1))) as Hok1 by done.
  destruct (get_workflow_status_total w1 Hok1) as [st Hst].
  mstep ltac:(exact Hst).
  pose proof (get_pending_step_find w1 Hok1) as Hfind.
  mstep ltac:(exact Hfind). mgets.
  destruct (for_each_spec (embellished json_loads l p w1)
              (embellish_step json_loads l p) (steps (workflow w1)) w1)
    as (es & Hes & HP).
  { intros s Hs. simpl in Hs.
    rewrite Forall_forall in Hkeys. destruct (Hkeys s Hs) as [Hn Ht].
    unfold runs_ok in Hok. rewrite Forall_forall in Hok.
    apply embellish_step_fields; auto. }
  mstep ltac:(exact Hes). eexists. split; [done|]. simpl.
  pose proof (Forall2_length _ _ _ HP) as Hlen. simpl in Hlen.
  split; [done|]. split; [done|]. split; [by rewrite Hst|].
  split; [done|]. split.
  { unfold statuses. apply Forall2_map_eq.
    eapply Forall2_impl; [exact HP|]. by intros s e (_ & _ & ? & _). }
  split; [|split].
  - intros Hall. pose proof (get_pending_step_none w1 Hok1 Hall) as Hnone.
    rewrite Hfind in Hnone. injection Hnone as ->. done.
  - intros i s ps Hp. pose proof (get_pending_step_at w1 i s ps Hok1 Hp) as Hat.
    rewrite Hfind in Hat. injection Hat as ->. done.
  - unfold enumerate.
    destruct (find not_success (enumerate_from 0 (statuses w1)))
      as [[i ps]|] eqn:E; simpl; [|lia].
    apply find_not_success_some in E as (_ & Hi & _).
    apply lookup_lt_Some in Hi. unfold statuses in Hi.
    rewrite length_map in Hi. simpl in Hi. lia.
Qed.

(** ** Start, seen from the worker *)

Lemma correlation_reads (wf : Doc) (n : string) (kwargs : gmap string pyval) :
  task_kwargs (correlation wf n kwargs)
  = Some {| kw_workflow_id := Some (_id wf); kw_step := Some n |}.
Proof.
  unfold task_kwargs, correlation.
  rewrite lookup_insert_ne by done. by rewrite !lookup_insert_eq.
Qed.

(** X19. The keyword arguments [start] sends: [workflow_id] is the
    identifier of the workflow and [step] the name of the first step,
    also when the caller passed other values under these keys; every
    other key of the caller is sent as given. The hooks of the task read
    both correlation fields from them. *)
Theorem start_kwargs (w : Workflow) (args : list pyval)
    (kwargs : gmap string pyval) (s : Step) (rest : list Step) (n t : string) :
  steps (workflow w) = s :: rest ->
  name s = Some n -> task s = Some t ->
  exists call,
    sent (app (start args kwargs w).2) = sent (app w) ++ [call] /\
    s_task call = t /\ s_args call = Some args /\
    s_kwargs call !! "workflow_id" = Some (VStr (_id (workflow w))) /\
    s_kwargs call !! "step" = Some (VStr n) /\
    (forall k, k <> "workflow_id" -> k <> "step" ->
               s_kwargs call !! k = kwargs !! k) /\
    task_kwargs (s_kwargs call)
    = Some {| kw_workflow_id := Some (_id (workflow w)); kw_step := Some n |}.
Proof.
  intros Hsteps Hn Ht.
  assert (start args kwargs w
          = (Ok tt, dispatched t (Some args) (correlation (workflow w) n kwargs) w))
    as Heq.
  { unfold start. mgets. rewrite Hsteps.
    mstep ltac:(by apply lift_res_ok).
    mstep ltac:(by apply getitem_some). mstep ltac:(by apply getitem_some).
    apply on_app_send_task. }
  rewrite Heq. eexists. split; [done|]. simpl.
  split; [done|]. split; [done|].
  split; [unfold correlation; rewrite lookup_insert_ne by done;
          apply lookup_insert_eq|].
  split; [apply lookup_insert_eq|].
  split; [|apply correlation_reads].
  intros k Hk1 Hk2. unfold correlation. by rewrite !lookup_insert_ne.
Qed.

(** ** The hooks of WorkflowTask *)

(** The task after [update_progress]: one more state update, unless the
    task was called directly. *)
Lemma update_progress_run (v : pyval) (t : WorkflowTask) :
  update_progress v t
  = (Ok tt,
     {| wt_app := wt_app t; wt_workflow := wt_workflow t;
        called_directly := called_directly t;
        state_updates := if called_directly t then state_updates t
                         else state_updates t ++ [mkStateUpdate PROGRESS v] |}).
Proof.
  unfold update_progress, bind, gets, update_state, modify.
  destruct t as [a d [|] u]; done.
Qed.

(** X20. A task run without both correlation fields is left alone by the
    hooks: [before_start] only reports progress (one state update
    PROGRESS with empty meta, and none when the task was called
    directly); it loads no workflow and writes, sends and revokes
    nothing. [on_success] does nothing at all. *)
Theorem hooks_uncorrelated (t : WorkflowTask) (tid : string)
    (args retval : list pyval) (kwargs : TaskKwargs) :
  kw_workflow_id kwargs = None \/ kw_step kwargs = None ->
  (exists t',
     before_start tid args kwargs t = (Ok tt, t') /\
     wt_app t' = wt_app t /\ wt_workflow t' = wt_workflow t /\
     state_updates t'
     = if called_directly t then state_updates t
       else state_updates t ++ [mkStateUpdate PROGRESS (VDict [])]) /\
  on_success retval tid args kwargs t = (Ok tt, t).
Proof.
  intros Hmissing. split.
  - eexists. split.
    + unfold before_start. mstep ltac:(apply update_progress_run).
      destruct Hmissing as [-> | ->]; [done|]. by destruct (kw_workflow_id kwargs).
    + done.
  - unfold on_success.
    destruct Hmissing as [-> | ->]; [done|]. by destruct (kw_workflow_id kwargs).
Qed.

Lemma load_workflow_found (t : WorkflowTask) (wid : string) (d : Doc) :
  wf_col (wt_app t) !! wid = Some d ->
  load_workflow wid t
  = (Ok tt, {| wt_app := wt_app t; wt_workflow := Some d;
               called_directly := called_directly t;
               state_updates := state_updates t |}).
Proof.
  intros Hd. unfold load_workflow, new_Workflow, __init__, bind, find_one, gets.
  by rewrite Hd.
Qed.

Lemma load_workflow_missing (t : WorkflowTask) (wid : string) :
  wf_col (wt_app t) !! wid = None ->
  load_workflow wid t = (Raise (PyException (not_found_msg wid)), t).
Proof.
  intros Hd. unfold load_workflow, new_Workflow, __init__, bind, find_one, gets.
  rewrite Hd. by destruct t.
Qed.

(** The task after a [before_start] that found its workflow and step. *)
Lemma before_start_run (t : WorkflowTask) (tid wid n : string)
    (args : list pyval) (d : Doc) (i : nat) (s : Step) :
  wf_col (wt_app t) !! wid = Some d -> _id d = wid ->
  Forall step_ok (steps d) -> NoDup (omap name (steps d)) ->
  steps d !! i = Some s -> name s = Some n -> task_runs s <> Null ->
  let a := wt_app t in
  let d' := with_new_run d i s tid (clock a (clock_n a)) (clock a (S (clock_n a))) in
  before_start tid args {| kw_workflow_id := Some wid; kw_step := Some n |} t
  = (Ok tt,
     {| wt_app := set_wf_col (<[wid := d']> (wf_col a)) (after_ticks 2 a);
        wt_workflow := Some d';
        called_directly := called_directly t;
        state_updates := if called_directly t then state_updates t
                         else state_updates t ++ [mkStateUpdate PROGRESS (VDict [])] |}).
Proof.
  intros Hd Hid Hall Hnd Hi Hn Hruns a d'. unfold before_start.
  mstep ltac:(apply update_progress_run). cbn [kw_workflow_id kw_step].
  mstep ltac:(by apply load_workflow_found).
  unfold on_workflow. cbn [wt_workflow wt_app called_directly state_updates].
  rewrite (on_step_start_run _ i s n tid) by done.
  cbn [app workflow]. unfold update_one. simpl. subst a d'.
  rewrite Hid, Hd. done.
Qed.

(** X21. [before_start] of a task that carries both correlation fields,
    in a store that has the workflow with a step of that name: the
    workflow is loaded afresh (whatever workflow the task object held
    before), the step gets one more run record with the task id and the
    time of the call, and the stored document is the one the task now
    holds. Nothing is sent or revoked. *)
Theorem before_start_records_run (t : WorkflowTask) (tid wid n : string)
    (args : list pyval) (d : Doc) (i : nat) (s : Step) :
  wf_col (wt_app t) !! wid = Some d -> _id d = wid ->
  Forall step_ok (steps d) -> NoDup (omap name (steps d)) ->
  steps d !! i = Some s -> name s = Some n -> task_runs s <> Null ->
  exists t' d',
    before_start tid args {| kw_workflow_id := Some wid; kw_step := Some n |} t
    = (Ok tt, t') /\
    wt_workflow t' = Some d' /\
    wf_col (wt_app t') = <[wid := d']> (wf_col (wt_app t)) /\
    (step_runs <$> steps d' !! i)
    = Some (step_runs s ++
            [{| task_id := tid;
                date_start := Some (clock (wt_app t) (clock_n (wt_app t)));
                end_time := None |}]) /\
    (forall j, j <> i -> steps d' !! j = steps d !! j) /\
    sent (wt_app t') = sent (wt_app t) /\ revoked (wt_app t') = revoked (wt_app t).
Proof.
  intros Hd Hid Hall Hnd Hi Hn Hruns. eexists _, _.
  split; [by apply (before_start_run t tid wid n args d i s)|]. simpl.
  pose proof (lookup_lt_Some _ _ _ Hi) as Hlt.
  split; [done|]. split; [done|]. unfold with_new_run. simpl.
  split; [by rewrite list_lookup_insert_eq|].
  split; [intros j Hj; by apply list_lookup_insert_ne|]. done.
Qed.

(** X22. [before_start] that cannot record its run. When the store has no
    workflow under the given id, it raises, and the task keeps the
    workflow it held; when the workflow is there but has no step of that
    name, it raises AttributeError after the task has taken the loaded
    workflow. The store is not written in either case. *)
Theorem before_start_failures (t : WorkflowTask) (tid wid n : string)
    (args : list pyval) :
  let kwargs := {| kw_workflow_id := Some wid; kw_step := Some n |} in
  (wf_col (wt_app t) !! wid = None ->
   exists t',
     before_start tid args kwargs t = (Raise (PyException (not_found_msg wid)), t') /\
     wt_workflow t' = wt_workflow t /\ wt_app t' = wt_app t) /\
  (forall d,
     wf_col (wt_app t) !! wid = Some d ->
     Forall (fun s => is_Some (name s)) (steps d) ->
     n ∉ omap name (steps d) ->
     exists t',
       before_start tid args kwargs t = (Raise AttributeError, t') /\
       wt_workflow t' = Some d /\ wt_app t' = wt_app t).
Proof.
  intros kwargs. split.
  - intros Hd. eexists. split.
    + unfold before_start. mstep ltac:(apply update_progress_run).
      cbn [kwargs kw_workflow_id kw_step].
      erewrite bind_raise; [done|]. by apply load_workflow_missing.
    + done.
  - intros d Hd Hnamed Hnotin. eexists. split.
    + unfold before_start. mstep ltac:(apply update_progress_run).
      cbn [kwargs kw_workflow_id kw_step].
      mstep ltac:(by apply load_workflow_found).
      unfold on_workflow. cbn [wt_workflow wt_app called_directly state_updates].
      by rewrite on_step_start_unknown.
    + done.
Qed.

Lemma on_step_success_next (w : Workflow) (n nn tn : string) (i : nat)
    (s nxt : Step) (v : pyval) (rest : list pyval) :
  Forall step_ok (steps (workflow w)) ->
  NoDup (omap name (steps (workflow w))) ->
  steps (workflow w) !! i = Some s -> name s = Some n ->
  steps (workflow w) !! S i = Some nxt ->
  name nxt = Some nn -> task nxt = Some tn ->
  on_step_success (v :: rest) n w
  = (Ok tt, dispatched tn (Some [v]) (correlation (workflow w) nn ∅) w).
Proof.
  intros Hall Hnd Hi Hn Hnxt Hnn Hnt.
  assert (valid_steps (steps (workflow w))) as Hvalid.
  { split; [|done]. intros Hnil. by rewrite Hnil in Hi. }
  unfold on_step_success.
  mstep ltac:(by apply (get_next_step_at w i s)). rewrite Hnxt.
  rewrite (step_truthy_named _ _ Hnn). mgets.
  mstep ltac:(by apply getitem_some). mstep ltac:(by apply getitem_some).
  mstep ltac:(by apply lift_res_ok).
  apply on_app_send_task.
Qed.

Lemma on_step_success_last (w : Workflow) (n : string) (i : nat) (s : Step)
    (retval : list pyval) :
  Forall step_ok (steps (workflow w)) ->
  NoDup (omap name (steps (workflow w))) ->
  steps (workflow w) !! i = Some s -> name s = Some n ->
  length (steps (workflow w)) = S i ->
  on_step_success retval n w = (Ok tt, w).
Proof.
  intros Hall Hnd Hi Hn Hlen.
  assert (valid_steps (steps (workflow w))) as Hvalid.
  { split; [|done]. intros Hnil. by rewrite Hnil in Hi. }
  unfold on_step_success.
  mstep ltac:(by apply (get_next_step_at w i s)).
  rewrite lookup_ge_None_2 by lia. done.
Qed.

(** X23. [on_success] works on the workflow the task object holds, which
    [before_start] puts there. On a task object that holds none, a task
    with both correlation fields raises AttributeError. On one that holds
    a well-formed workflow, the task of the step after the named one is
    sent with the first element of the return value, and the keyword
    arguments sent carry both correlation fields for the next task's
    hooks; after the last step nothing is sent. The store is not written. *)
Theorem on_success_spec (t : WorkflowTask) (tid wid n : string)
    (args : list pyval) :
  let kwargs := {| kw_workflow_id := Some wid; kw_step := Some n |} in
  (wt_workflow t = None ->
   forall retval, on_success retval tid args kwargs t = (Raise AttributeError, t)) /\
  (forall d i s,
     wt_workflow t = Some d ->
     Forall step_ok (steps d) -> NoDup (omap name (steps d)) ->
     steps d !! i = Some s -> name s = Some n ->
     (forall nxt nn tn v rest,
        steps d !! S i = Some nxt -> name nxt = Some nn -> task nxt = Some tn ->
        exists t' call,
          on_success (v :: rest) tid args kwargs t = (Ok tt, t') /\
          sent (wt_app t') = sent (wt_app t) ++ [call] /\
          s_task call = tn /\ s_args call = Some [v] /\
          task_kwargs (s_kwargs call)
          = Some {| kw_workflow_id := Some (_id d); kw_step := Some nn |} /\
          wf_col (wt_app t') = wf_col (wt_app t) /\
          wt_workflow t' = Some d) /\
     (length (steps d) = S i ->
      forall retval, on_success retval tid args kwargs t = (Ok tt, t))).
Proof.
  intros kwargs. split.
  - intros Hnone retval. unfold on_success, on_workflow. simpl. by rewrite Hnone.
  - intros d i s Hd Hall Hnd Hi Hn. split.
    + intros nxt nn tn v rest Hnxt Hnn Hnt. eexists _, _. split.
      * unfold on_success, on_workflow. simpl. rewrite Hd.
        by rewrite (on_step_success_next _ n nn tn i s nxt).
      * simpl. split; [done|]. split; [done|]. split; [done|].
        split; [apply correlation_reads|done].
    + intros Hlen retval. unfold on_success, on_workflow. simpl. rewrite Hd.
      rewrite (on_step_success_last _ n i s) by done. simpl.
      destruct t; simpl in *; by subst.
Qed.

Lemma step_ok_same (s s' : Step) :
  name s' = name s -> task s' = task s -> step_ok s -> step_ok s'.
Proof. unfold step_ok. by intros -> ->. Qed.

Lemma insert_keeps_names (l : list Step) (i : nat) (s s' : Step) :
  l !! i = Some s -> name s' = name s -> task s' = task s ->
  Forall step_ok l ->
  Forall step_ok (<[i := s']> l) /\ omap name (<[i := s']> l) = omap name l.
Proof.
  revert i. induction l as [|x l IH]; intros i Hi Hn Ht Hall; [done|].
  apply Forall_cons in Hall as [Hx Hl]. destruct i as [|i]; simpl in *.
  - injection Hi as ->. split.
    + constructor; [by apply (step_ok_same s)|done].
    + by rewrite Hn.
  - destruct (IH i Hi Hn Ht Hl) as [Hall' Hnames]. split.
    + by constructor.
    + change (list_omap Step string name) with (@omap list _ Step string name).
      by rewrite Hnames.
Qed.

(** X24. The hooks chain the steps. For a task that carries both
    correlation fields, in a store that has the workflow with the named
    step followed by another one: [before_start] records the run, and
    [on_success] on the same task object then sends the task of the next
    step with the first element of the return value, with keyword
    arguments from which the hooks of that next task read the same
    workflow id and the name of the next step; the run recorded by
    [before_start] is still the last record of the step in the store. *)
Theorem hooks_chain (t : WorkflowTask) (tid wid n nn tn : string)
    (args rest : list pyval) (v : pyval) (d : Doc) (i : nat) (s nxt : Step) :
  wf_col (wt_app t) !! wid = Some d -> _id d = wid ->
  Forall step_ok (steps d) -> NoDup (omap name (steps d)) ->
  steps d !! i = Some s -> name s = Some n -> task_runs s <> Null ->
  steps d !! S i = Some nxt -> name nxt = Some nn -> task nxt = Some tn ->
  let kwargs := {| kw_workflow_id := Some wid; kw_step := Some n |} in
  exists t' t'' call d',
    before_start tid args kwargs t = (Ok tt, t') /\
    on_success (v :: rest) tid args kwargs t' = (Ok tt, t'') /\
    sent (wt_app t'') = sent (wt_app t) ++ [call] /\
    s_task call = tn /\ s_args call = Some [v] /\
    task_kwargs (s_kwargs call)
    = Some {| kw_workflow_id := Some wid; kw_step := Some nn |} /\
    wf_col (wt_app t'') !! wid = Some d' /\
    (last <$> (step_runs <$> steps d' !! i))
    = Some (Some {| task_id := tid;
                    date_start := Some (clock (wt_app t) (clock_n (wt_app t)));
                    end_time := None |}).
Proof.
  intros Hd Hid Hall Hnd Hi Hn Hruns Hnxt Hnn Hnt kwargs.
  pose proof (lookup_lt_Some _ _ _ Hi) as Hlt.
  set (s' := set_task_runs
               (Val (step_runs s ++
                     [{| task_id := tid;
                         date_start := Some (clock (wt_app t) (clock_n (wt_app t)));
                         end_time := None |}])) s).
  destruct (insert_keeps_names (steps d) i s s' Hi eq_refl eq_refl Hall)
    as [Hall' Hnames].
  eexists _, _, _, _.
  split; [by apply (before_start_run t tid wid n args d i s)|].
  split.
  - assert (NoDup (omap name (<[i := s']> (steps d)))) as Hnd'
      by (by rewrite Hnames).
    assert (<[i := s']> (steps d) !! i = Some s') as Hi'
      by (by apply list_lookup_insert_eq).
    assert (<[i := s']> (steps d) !! S i = Some nxt) as Hnxt'
      by (by rewrite list_lookup_insert_ne by lia).
    unfold on_success, on_workflow.
    cbn [kwargs kw_workflow_id kw_step wt_workflow wt_app called_directly
         state_updates].
    rewrite (on_step_success_next _ n nn tn i s' nxt);
      [done|exact Hall'|exact Hnd'|exact Hi'|done|exact Hnxt'|done|done].
  - simpl. split; [done|]. split; [done|]. split; [done|].
    split; [cbn [s_kwargs]; rewrite correlation_reads; simpl; by rewrite Hid|].
    split; [apply lookup_insert_eq|]. unfold with_new_run. simpl.
    rewrite list_lookup_insert_eq by done. simpl.
    unfold step_runs at 1. simpl. by rewrite last_snoc.
Qed.

(** ** The history over any sequence of calls *)

Lemma history_extends_refl (rs : list TaskRun) : history_extends rs rs.
Proof. split; [done|]. split; [done|]. intros j r Hj. by exists r. Qed.

Lemma history_extends_trans (rs1 rs2 rs3 : list TaskRun) :
  history_extends rs1 rs2 -> history_extends rs2 rs3 -> history_extends rs1 rs3.
Proof.
  intros (Hlen1 & Hinit1 & Hall1) (Hlen2 & Hinit2 & Hall2).
  split; [lia|]. split.
  - intros j r Hj Hr. apply Hinit2; [lia|]. by apply Hinit1.
  - intros j r Hr. destruct (Hall1 j r Hr) as (r' & Hr' & Hid & Hds).
    destruct (Hall2 j r' Hr') as (r'' & Hr'' & Hid' & Hds').
    exists r''. split; [done|]. split; congruence.
Qed.

Lemma history_extends_snoc (rs : list TaskRun) (r : TaskRun) :
  history_extends rs (rs ++ [r]).
Proof.
  split; [rewrite length_app; lia|]. split.
  - intros j x Hj Hx. by apply lookup_app_l_Some.
  - intros j x Hx. exists x. split; [by apply lookup_app_l_Some|done].
Qed.

Lemma history_extends_end_time (init : list TaskRun) (r : TaskRun) (t : option Z) :
  history_extends (init ++ [r]) (init ++ [set_end_time t r]).
Proof.
  split; [by rewrite !length_app|]. split.
  - intros j x Hj Hx. rewrite length_app in Hj. simpl in Hj.
    rewrite lookup_app_l in Hx by lia. by rewrite lookup_app_l by lia.
  - intros j x Hx. destruct (decide (j < length init)) as [Hlt|Hge].
    + rewrite lookup_app_l in Hx by done. exists x.
      by rewrite lookup_app_l by done.
    + pose proof (lookup_lt_Some _ _ _ Hx) as Hj.
      rewrite length_app in Hj. simpl in Hj.
      assert (j = length init) as -> by lia.
      rewrite list_lookup_middle in Hx by done. injection Hx as <-.
      exists (set_end_time t r). by rewrite list_lookup_middle.
Qed.

Lemma step_evolves_extends (o : op) (s s' : Step) :
  step_evolves o s s' ->
  name s' = name s /\ task s' = task s /\
  history_extends (step_runs s) (step_runs s').
Proof.
  intros (Hn & Ht & Hruns). split; [done|]. split; [done|].
  destruct o;
    try (rewrite Hruns; apply history_extends_refl).
  - destruct Hruns as [-> |(r & _ & ->)];
      [apply history_extends_refl|apply history_extends_snoc].
  - destruct Hruns as [-> |(init & r & t & -> & ->)];
      [apply history_extends_refl|apply history_extends_end_time].
Qed.

Lemma steps_extend_refl (l : list Step) : steps_extend l l.
Proof.
  apply Forall_Forall2_diag, Forall_forall. intros s _.
  split; [done|]. split; [done|]. apply history_extends_refl.
Qed.

Lemma steps_extend_trans (l1 l2 l3 : list Step) :
  steps_extend l1 l2 -> steps_extend l2 l3 -> steps_extend l1 l3.
Proof.
  unfold steps_extend. intros H12. revert l3.
  induction H12 as [|s1 s2 l1 l2 Hs _ IH]; intros l3 H23.
  - inversion H23. constructor.
  - inversion H23 as [|? s3 ? l3' Hs' Hl3]; subst.
    constructor; [|by apply IH].
    destruct Hs as (Hn & Ht & Hh). destruct Hs' as (Hn' & Ht' & Hh').
    split; [congruence|]. split; [congruence|].
    by apply (history_extends_trans _ (step_runs s2)).
Qed.

(** One call on an engine in step with the store. *)
Lemma run_evolves (json_loads : string -> option pyval) (o : op) (w : Workflow) :
  in_sync w -> evolves o w (run json_loads o w).
Proof.
  intros Hsync. destruct o; simpl;
    try (apply evolves_same_docs;
         first [apply keeps_start | apply keeps_pause | apply keeps_resume
               | apply keeps_on_step_success | apply keeps_get_step_status
               | apply keeps_get_pending_step | apply keeps_get_workflow_status
               | apply keeps_get_step | apply keeps_get_next_step
               | apply keeps_get_task_instance | apply keeps_get_last_run]).
  - apply on_step_start_evolves.
  - apply update_evolves; try done. apply steps_evolve_refl.
  - apply update_step_end_time_evolves.
  - rewrite refresh_in_sync by done. by apply evolves_same_docs.
  - by apply evolves_same_docs, get_embellished_same_docs.
Qed.

(** X25. The run history is append-only over any sequence of calls of
    the methods of the engine, in any order and whether they return or
    raise, on an engine that starts in step with the store: the steps
    stay the same in number, order, name and task; no run record is ever
    removed; the records that were not the last of their step are the
    same at the end; and every record keeps its task id and start date.
    The engine ends in step with the store. *)
Theorem history_append_only (json_loads : string -> option pyval)
    (ops : list op) (w : Workflow) :
  in_sync w ->
  let w' := run_all json_loads ops w in
  in_sync w' /\
  _id (workflow w') = _id (workflow w) /\
  steps_extend (steps (workflow w)) (steps (workflow w')).
Proof.
  revert w. induction ops as [|o ops IH]; intros w Hsync; simpl.
  - split; [done|]. split; [done|]. apply steps_extend_refl.
  - destruct (run_evolves json_loads o w Hsync) as [[Hid Hsteps] Hstore].
    destruct (Hstore Hsync) as [Hsync' _].
    destruct (IH _ Hsync') as (Hs & Hi & He).
    split; [done|]. split; [congruence|].
    eapply steps_extend_trans; [|exact He].
    eapply Forall2_impl; [exact Hsteps|].
    intros s s' Hss. by apply (step_evolves_extends o).
Qed.

(** X26. [start] and [pause] keep no trace of having been called: a
    second [start] sends the first step's task again, and a second
    [pause], while the backend still reports the same statuses, revokes
    the same run again. *)
Theorem start_and_pause_repeat (w : Workflow) (args : list pyval)
    (kwargs : gmap string pyval) :
  (forall s rest n t,
     steps (workflow w) = s :: rest -> name s = Some n -> task s = Some t ->
     let call := mkSendTask t (Some args) (correlation (workflow w) n kwargs) in
     sent (app (start args kwargs (start args kwargs w).2).2)
     = sent (app w) ++ [call; call]) /\
  (forall i s st rs r n t,
     runs_ok (steps (workflow w)) -> pending_at w i s st ->
     st <> FAILURE -> step_runs s = rs ++ [r] ->
     name s = Some n -> task s = Some t ->
     revoked (app (pause (pause w).2).2)
     = revoked (app w) ++ [mkRevoke (task_id r) true; mkRevoke (task_id r) true]).
Proof.
  split.
  - intros s rest n t Hsteps Hn Ht call.
    assert (forall w0, steps (workflow w0) = s :: rest ->
              start args kwargs w0
              = (Ok tt, dispatched t (Some args)
                                   (correlation (workflow w0) n kwargs) w0))
      as Hstart.
    { intros w0 Hs0. unfold start. mgets. rewrite Hs0.
      mstep ltac:(by apply lift_res_ok).
      mstep ltac:(by apply getitem_some). mstep ltac:(by apply getitem_some).
      apply on_app_send_task. }
    rewrite (Hstart w Hsteps). simpl. rewrite Hstart by done. simpl.
    by rewrite <- app_assoc.
  - intros i s st rs r n t Hok Hp Hnf Hruns Hn Ht.
    assert (forall w0, runs_ok (steps (workflow w0)) -> pending_at w0 i s st ->
              pause w0
              = (Ok {| paused := true;
                       revoked_step := Some {| rv_task_id := task_id r;
                                               rv_task := t; rv_name := n |} |},
                 cancelled (task_id r) w0)) as Hpause.
    { intros w0 Hok0 Hp0. pose proof Hp0 as (_ & _ & Hns & _). unfold pause.
      mstep ltac:(by apply (get_pending_step_at w0 i s st)).
      rewrite str_in_false by (by apply not_elem_of_pair). cbn [negb].
      mstep ltac:(by apply step_at_lookup, (pending_at_lookup w0 i s st)).
      rewrite dict_get_runs, Hruns, length_snoc_pos
        by (by apply (pending_runs_ok w0 i s st)).
      mstep ltac:(apply lift_res_ok, last_item_snoc).
      mstep ltac:(apply on_app_revoke).
      mstep ltac:(by apply getitem_some).
      mstep ltac:(by apply getitem_some).
      mstep ltac:(by apply getitem_some).
      done. }
    rewrite (Hpause w Hok Hp). simpl. rewrite Hpause by done. simpl.
    by rewrite <- app_assoc.
Qed.

(** ** The further theorems at the example workflows *)

Ltac steps_ok_ex := repeat constructor; try discriminate; by eexists.
Ltac named_ex := repeat constructor; by eexists.

Lemma nodup_abc : NoDup ["a"; "b"; "c"].
Proof.
  repeat (apply NoDup_cons; split);
    [| |apply not_elem_of_nil|apply NoDup_nil_2];
    intros H; repeat (apply elem_of_cons in H as [H|H]; [discriminate|]);
    by apply elem_of_nil in H.
Defined.

Lemma not_a_step_ex : "zz" ∉ ["a"; "b"; "c"].
Proof.
  intros H. repeat (apply elem_of_cons in H as [H|H]; [discriminate|]).
  by apply elem_of_nil in H.
Defined.

Lemma store_ok_ex (l : list Step) : store_ok (app (mk_engine l)).
Proof.
  intros id d Hd. simpl in Hd. apply lookup_singleton_Some in Hd as [<- <-]. done.
Defined.

Lemma creation_ex : creation = (Ok w_created, a_created).
Proof. reflexivity. Defined.

(** X5 at a workflow whose second step holds [None] under [task_runs]. *)
Lemma null_task_runs_raise_witness :
  ~ runs_ok (steps (workflow w_null)) /\
  get_workflow_status w_null = (Raise TypeError, w_null) /\
  pause w_null = (Raise TypeError, w_null) /\
  resume json_literals true (Some []) w_null = (Raise TypeError, w_null).
Proof.
  assert (~ runs_ok (steps (workflow w_null))) as Hbad.
  { intros H. inversion H as [|? ? _ H2]. inversion H2 as [|? ? Hb _]. by apply Hb. }
  split; [done|].
  destruct (null_task_runs_raise json_literals w_null Hbad)
    as (_ & Hstatus & Hpause & Hresume).
  split; [done|]. split; [done|]. apply Hresume.
Defined.

(** X6 at the workflow whose second step is running again. *)
Lemma workflow_status_range_witness :
  (get_workflow_status w_running).1 = Ok STARTED /\
  STARTED <> RETRY /\
  (STARTED = SUCCESS <-> all_succeeded w_running).
Proof.
  split; [reflexivity|].
  destruct (workflow_status_range w_running STARTED eq_refl) as (H1 & H2 & _).
  by split.
Defined.

(** X7 at a finished workflow, with [force], and at a running one, with
    arguments. *)
Lemma resume_gate_witness :
  (all_succeeded w_done /\
   resume json_literals true (Some [VInt 1]) w_done = (Ok not_resumed, w_done)) /\
  (pending_at w_running 1 step_b_running STARTED /\
   resume json_literals false (Some [VInt 1]) w_running
   = (Ok not_resumed, w_running)).
Proof.
  assert (all_succeeded w_done) as Hdone by (repeat constructor).
  assert (pending_at w_running 1 step_b_running STARTED) as Hrun by pending_ex.
  split; (split; [done|]).
  - apply (proj1 (resume_gate json_literals w_done ltac:(runs_ok_ex)) Hdone).
  - apply (proj2 (resume_gate json_literals w_running ltac:(runs_ok_ex))
                 1 step_b_running STARTED (Some [VInt 1]) Hrun); discriminate.
Defined.

(** X8 at the failed workflow, on a backend that keeps no arguments. *)
Lemma resume_record_without_args_witness :
  pending_at w_noargs 1 step_b_failed FAILURE /\
  backend_col (app w_noargs) !! "r1" = Some rec_noargs /\
  resume json_literals false (Some [VInt 1]) w_noargs
  = (Raise (KeyError "args"), w_noargs).
Proof.
  assert (pending_at w_noargs 1 step_b_failed FAILURE) as Hp by pending_ex.
  split; [done|]. split; [reflexivity|].
  apply (resume_record_without_args json_literals w_noargs false (Some [VInt 1])
           1 step_b_failed FAILURE [] run_b1 rec_noargs);
    [runs_ok_ex|done|by left|reflexivity|reflexivity|reflexivity].
Defined.

(** X10 at the new workflow, for a name it does not have. *)
Lemma unknown_step_name_witness :
  ("zz" ∉ omap name (steps (workflow w_new))) /\
  on_step_start "zz" "r9" w_new = (Raise AttributeError, w_new) /\
  on_step_success [VInt 1] "zz" w_new = (Ok tt, w_new).
Proof.
  split; [exact not_a_step_ex|].
  destruct (unknown_step_name w_new "zz" ltac:(named_ex) not_a_step_ex)
    as (_ & _ & Hstart & _ & Hsuccess).
  split; [apply Hstart|apply Hsuccess].
Defined.

(** X11 at the failed workflow: a second run of step [b]. *)
Lemma on_step_start_exact_witness :
  exists w',
    on_step_start "b" "r2" w_failed = (Ok tt, w') /\
    (step_runs <$> steps (workflow w') !! 1)
    = Some [run_b1; {| task_id := "r2"; date_start := Some 100%Z;
                       end_time := None |}] /\
    wf_col (app w') = <[ "wf1" := workflow w' ]> (wf_col (app w_failed)).
Proof.
  destruct (on_step_start_exact w_failed 1 step_b_failed "b" "r2")
    as (w' & Hrun & Hstep & _ & _ & _ & Hstore & _);
    [steps_ok_ex|exact nodup_abc|reflexivity|reflexivity|discriminate|].
  exists w'. split; [done|]. split; [by rewrite Hstep|].
  apply Hstore. by eexists.
Defined.

(** X12 at the running workflow: the end time of the second run of [b]. *)
Lemma update_step_end_time_exact_witness :
  exists w',
    update_step_end_time "b" w_running = (Ok tt, w') /\
    (step_runs <$> steps (workflow w') !! 1)
    = Some [run_b1; set_end_time (Some 100%Z) run_b2].
Proof.
  destruct (update_step_end_time_exact w_running 1 step_b_running "b")
    as (w' & Hrun & Hlast & _);
    [steps_ok_ex|exact nodup_abc|reflexivity|reflexivity|discriminate|].
  exists w'. split; [done|]. by apply (Hlast [run_b1] run_b2).
Defined.

(** X13 at the creation of a workflow of three steps. *)
Lemma create_then_load_witness :
  creation = (Ok w_created, a_created) /\
  steps (workflow w_created) = [step_a; step_b; step_c] /\
  exists w2,
    new_Workflow a_created (Some (_id (workflow w_created))) None None
    = (Ok w2, a_created) /\
    _id (workflow w2) = "wf2" /\
    map name (steps (workflow w2)) = [Some "a"; Some "b"; Some "c"].
Proof.
  split; [exact creation_ex|].
  destruct (create_then_load (app w_new) a_created [step_a; step_b; step_c]
              (Some "two") w_created creation_ex) as (_ & Hsteps & Hload).
  split; [done|].
  destruct (Hload None None) as (w2 & Hw2 & Hid & _ & Hnames & _).
  exists w2. split; [done|]. split; [|done]. by rewrite Hid.
Defined.

(** X14 at the same creation. *)
Lemma created_is_pending_witness :
  get_workflow_status w_created = (Ok PENDING, w_created) /\
  pause w_created = (Ok not_paused, w_created).
Proof.
  destruct (created_is_pending json_literals (app w_new) a_created
              [step_a; step_b; step_c] (Some "two") w_created creation_ex)
    as (Hstatus & _ & Hpause & _); [by repeat constructor|].
  by split.
Defined.

(** X15 at an engine that holds the stored document, at one that does
    not, and at one that is not in the store. *)
Lemma update_then_load_witness :
  (exists w2,
     new_Workflow (app (update w_new).2) (Some "wf1") None None
     = (Ok w2, app (update w_new).2) /\
     run_ids (workflow w2) = [[]; []; []]) /\
  stored_runs w_behind = Some [[run_a]; [run_b1; run_b2]; []] /\
  (exists w2,
     new_Workflow (app (update w_behind).2) (Some "wf1") None None
     = (Ok w2, app (update w_behind).2) /\
     run_ids (workflow w2) = [[]; []; []]) /\
  wf_col (app w_gone) !! "gone" = None /\
  wf_col (app (update w_gone).2) = wf_col (app w_gone).
Proof.
  split; [|split; [reflexivity|split; [|split; [reflexivity|]]]].
  - destruct (proj1 (update_then_load w_new)) as (w2 & Hw2 & _ & _ & _ & _ & Hids);
      [by eexists|].
    exists w2. by split.
  - destruct (proj1 (update_then_load w_behind))
      as (w2 & Hw2 & _ & _ & _ & _ & Hids); [by eexists|].
    exists w2. by split.
  - by destruct (proj2 (update_then_load w_gone) eq_refl).
Defined.

(** X16 at the engine that fell behind the store. *)
Lemma refresh_syncs_witness :
  ~ in_sync w_stale /\
  refresh w_stale = (Ok tt, w_failed) /\
  refresh w_gone = (Raise (PyException (not_found_msg "gone")), w_gone).
Proof.
  split; [|split].
  - unfold in_sync. simpl. rewrite lookup_singleton_eq. discriminate.
  - destruct (proj1 (refresh_syncs w_stale) (workflow w_failed)) as [Hrun _];
      [exact (store_ok_ex [set_task_runs (Val [run_a]) step_a; step_b_failed;
                           step_c])
      |reflexivity|exact Hrun].
  - apply (proj2 (refresh_syncs w_gone)). reflexivity.
Defined.

(** X17 at the record whose result is the JSON text [true], and at a
    task the backend does not know. *)
Lemma get_task_instance_decodes_witness :
  get_task_instance json_literals "r1" (Some 11%Z) w_noargs
  = (Ok (Some {| t_id := "r1"; t_args := None; t_result := Some (VBool true);
                 t_date_start := Val 11%Z |}), w_noargs) /\
  get_task_instance json_literals "r9" None w_noargs = (Ok None, w_noargs).
Proof.
  destruct (get_task_instance_decodes json_literals w_noargs "r1" (Some 11%Z))
    as [_ Hfound].
  destruct (get_task_instance_decodes json_literals w_noargs "r9" None)
    as [Hmissing _].
  split.
  - by apply (proj1 (Hfound rec_noargs eq_refl) "true" (VBool true)).
  - by apply Hmissing.
Defined.

(** X18 at the failed workflow: one step done out of three. *)
Lemma embellished_view_summary_witness :
  exists view,
    get_embellished_workflow json_literals true true w_failed
    = (Ok view, w_failed) /\
    v_total_steps view = 3 /\ v_steps_done view = 1 /\
    map e_status (v_steps view) = [SUCCESS; FAILURE; PENDING].
Proof.
  destruct (embellished_view_summary json_literals w_failed (workflow w_failed)
              true true) as (view & Hrun & _ & Htotal & _ & _ & Hst & _ & Hdone & _);
    [apply in_sync_ex|repeat constructor; by eexists|runs_ok_ex|].
  exists view. split; [exact Hrun|]. split; [exact Htotal|].
  split; [|exact Hst].
  apply (Hdone 1 step_b_failed FAILURE). pending_ex.
Defined.

(** X19 at the new workflow, when the caller passes its own
    [workflow_id] and another key. *)
Lemma start_kwargs_witness :
  exists call,
    sent (app (start [VInt 1]
                     (<["workflow_id" := VInt 5]> {[ "dry_run" := VBool true ]})
                     w_new).2) = [call] /\
    s_kwargs call !! "workflow_id" = Some (VStr "wf1") /\
    s_kwargs call !! "dry_run" = Some (VBool true) /\
    task_kwargs (s_kwargs call)
    = Some {| kw_workflow_id := Some "wf1"; kw_step := Some "a" |}.
Proof.
  destruct (start_kwargs w_new [VInt 1]
              (<["workflow_id" := VInt 5]> {[ "dry_run" := VBool true ]})
              step_a [step_b; step_c] "a" "t1" eq_refl eq_refl eq_refl)
    as (call & Hsent & _ & _ & Hwid & _ & Hother & Hread).
  exists call. split; [exact Hsent|]. split; [exact Hwid|]. split; [|exact Hread].
  by rewrite Hother.
Defined.

(** X20 at a task of a worker that carries only the [step] field. *)
Lemma hooks_uncorrelated_witness :
  (exists t',
     before_start "r5" [] {| kw_workflow_id := None; kw_step := Some "a" |} task_fresh
     = (Ok tt, t') /\
     wt_app t' = wt_app task_fresh /\ wt_workflow t' = None /\
     state_updates t' = [mkStateUpdate PROGRESS (VDict [])]) /\
  on_success [VInt 1] "r5" [] {| kw_workflow_id := None; kw_step := Some "a" |}
             task_fresh = (Ok tt, task_fresh).
Proof.
  destruct (hooks_uncorrelated task_fresh "r5" [] [VInt 1]
              {| kw_workflow_id := None; kw_step := Some "a" |})
    as [(t' & Hrun & Happ & Hwf & Hupd) Hsuccess]; [by left|].
  split; [|exact Hsuccess]. by exists t'.
Defined.

(** X21 at a fresh task object for a second run of step [b]. *)
Lemma before_start_records_run_witness :
  exists t' d',
    before_start "r2" [] {| kw_workflow_id := Some "wf1"; kw_step := Some "b" |}
                 task_fresh = (Ok tt, t') /\
    wt_workflow t' = Some d' /\
    wf_col (wt_app t') = <[ "wf1" := d' ]> (wf_col (wt_app task_fresh)) /\
    (step_runs <$> steps d' !! 1)
    = Some [run_b1; {| task_id := "r2"; date_start := Some 100%Z;
                       end_time := None |}].
Proof.
  destruct (before_start_records_run task_fresh "r2" "wf1" "b" []
              (workflow w_failed) 1 step_b_failed)
    as (t' & d' & Hrun & Hwf & Hcol & Hstep & _);
    [reflexivity|reflexivity|steps_ok_ex|exact nodup_abc|reflexivity|reflexivity
    |discriminate|].
  by exists t', d'.
Defined.

(** X22 at a fresh task object, for an unknown workflow and for an
    unknown step. *)
Lemma before_start_failures_witness :
  (exists t',
     before_start "r2" [] {| kw_workflow_id := Some "nope"; kw_step := Some "b" |}
                  task_fresh
     = (Raise (PyException (not_found_msg "nope")), t') /\
     wt_workflow t' = None) /\
  (exists t',
     before_start "r2" [] {| kw_workflow_id := Some "wf1"; kw_step := Some "zz" |}
                  task_fresh = (Raise AttributeError, t') /\
     wt_workflow t' = Some (workflow w_failed)).
Proof.
  split.
  - destruct (proj1 (before_start_failures task_fresh "r2" "nope" "b" []))
      as (t' & Hrun & Hwf & _); [reflexivity|].
    by exists t'.
  - destruct (proj2 (before_start_failures task_fresh "r2" "wf1" "zz" [])
                    (workflow w_failed))
      as (t' & Hrun & Hwf & _); [reflexivity|named_ex|exact not_a_step_ex|].
    by exists t'.
Defined.

(** X23 at a task object that holds no workflow and at one that holds the
    new workflow. *)
Lemma on_success_spec_witness :
  on_success [VInt 42] "r0" [] {| kw_workflow_id := Some "wf1"; kw_step := Some "a" |}
             task_fresh = (Raise AttributeError, task_fresh) /\
  (exists t' call,
     on_success [VInt 42] "r0" []
                {| kw_workflow_id := Some "wf1"; kw_step := Some "a" |} task_new
     = (Ok tt, t') /\
     sent (wt_app t') = [call] /\ s_task call = "t2" /\
     s_args call = Some [VInt 42]) /\
  on_success [VInt 42] "r0" [] {| kw_workflow_id := Some "wf1"; kw_step := Some "c" |}
             task_new = (Ok tt, task_new).
Proof.
  split; [|split].
  - by apply (proj1 (on_success_spec task_fresh "r0" "wf1" "a" [])).
  - destruct (proj2 (on_success_spec task_new "r0" "wf1" "a" [])
                    (workflow w_new) 0 step_a eq_refl)
      as [Hnext _]; [steps_ok_ex|exact nodup_abc|reflexivity|reflexivity|].
    destruct (Hnext step_b "b" "t2" (VInt 42) [] eq_refl eq_refl eq_refl)
      as (t' & call & Hrun & Hsent & Htask & Hargs & _).
    by exists t', call.
  - destruct (proj2 (on_success_spec task_new "r0" "wf1" "c" [])
                    (workflow w_new) 2 step_c eq_refl)
      as [_ Hlast]; [steps_ok_ex|exact nodup_abc|reflexivity|reflexivity|].
    by apply Hlast.
Defined.

(** X24 at a fresh task object: step [b] runs again and hands over to
    step [c]. *)
Lemma hooks_chain_witness :
  exists t' t'' call d',
    before_start "r2" [] {| kw_workflow_id := Some "wf1"; kw_step := Some "b" |}
                 task_fresh = (Ok tt, t') /\
    on_success [VInt 42] "r2" [] {| kw_workflow_id := Some "wf1"; kw_step := Some "b" |}
               t' = (Ok tt, t'') /\
    sent (wt_app t'') = [call] /\ s_task call = "t3" /\
    task_kwargs (s_kwargs call)
    = Some {| kw_workflow_id := Some "wf1"; kw_step := Some "c" |} /\
    wf_col (wt_app t'') !! "wf1" = Some d'.
Proof.
  destruct (hooks_chain task_fresh "r2" "wf1" "b" "c" "t3" [] [] (VInt 42)
              (workflow w_failed) 1 step_b_failed step_c)
    as (t' & t'' & call & d' & Hb & Hs & Hsent & Htask & _ & Hread & Hstore & _);
    [reflexivity|reflexivity|steps_ok_ex|exact nodup_abc|reflexivity|reflexivity
    |discriminate|reflexivity|reflexivity|reflexivity|].
  by exists t', t'', call, d'.
Defined.

(** X25 at the failed workflow, for a sequence of calls that appends a
    run, revokes, sets an end time, reloads and resumes. *)
Lemma history_append_only_witness :
  in_sync w_failed /\
  let w' := run_all json_literals
                    [OpOnStepStart "b" "r2"; OpPause; OpUpdateStepEndTime "b";
                     OpRefresh; OpResume true None] w_failed in
  in_sync w' /\
  _id (workflow w') = "wf1" /\
  steps_extend (steps (workflow w_failed)) (steps (workflow w')).
Proof.
  split; [apply in_sync_ex|].
  apply (history_append_only json_literals
           [OpOnStepStart "b" "r2"; OpPause; OpUpdateStepEndTime "b";
            OpRefresh; OpResume true None] w_failed).
  apply in_sync_ex.
Defined.

(** X26 at the new workflow, started twice, and at the running one,
    paused twice. *)
Lemma start_and_pause_repeat_witness :
  length (sent (app (start [] ∅ (start [] ∅ w_new).2).2)) = 2 /\
  revoked (app (pause (pause w_running).2).2)
  = [mkRevoke "r2" true; mkRevoke "r2" true].
Proof.
  split.
  - rewrite (proj1 (start_and_pause_repeat w_new [] ∅) step_a [step_b; step_c]
                   "a" "t1" eq_refl eq_refl eq_refl). done.
  - apply (proj2 (start_and_pause_repeat w_running [] ∅) 1 step_b_running STARTED
                 [run_b1] run_b2 "b" "t2"); try done; [runs_ok_ex|pending_ex].
Defined.

(** ** Only the latest run of a step counts *)

Lemma derived_status_last (a a' : App) (s s' : Step) :
  (forall tid, get_status a' tid = get_status a tid) ->
  last (step_runs s) = last (step_runs s') ->
  derived_status a s = derived_status a' s'.
Proof.
  intros Hst Hlast. unfold derived_status. rewrite Hlast.
  destruct (last (step_runs s')); [by rewrite Hst|done].
Qed.

Lemma workflow_status_of_find (w : Workflow) :
  runs_ok (steps (workflow w)) ->
  (get_workflow_status w).1
  = match find not_success (enumerate (statuses w)) with
    | Some (i, st) =>
        if (i =? 0)%nat && String.eqb st PENDING then Ok PENDING
        else if str_in st [STARTED; RETRY; PENDING] then Ok STARTED
        else Ok st
    | None => Ok SUCCESS
    end.
Proof.
  intros Hok. unfold get_workflow_status.
  mstep ltac:(by apply get_pending_step_find).
  destruct (find not_success (enumerate (statuses w))) as [[i st]|]; [|done].
  destruct ((i =? 0)%nat && String.eqb st PENDING); [done|].
  by destruct (str_in st [STARTED; RETRY; PENDING]).
Qed.

(** X27. Only the latest run record of each step counts for the status:
    two workflows on backends that report the same statuses, whose steps
    have pairwise the same last run record, have the same pending step
    and the same workflow status, however long the history of each step
    is. *)
Theorem status_depends_on_latest_runs (w w' : Workflow) :
  (forall tid, get_status (app w') tid = get_status (app w) tid) ->
  runs_ok (steps (workflow w)) -> runs_ok (steps (workflow w')) ->
  Forall2 (fun s s' => last (step_runs s) = last (step_runs s'))
          (steps (workflow w)) (steps (workflow w')) ->
  (get_pending_step w).1 = (get_pending_step w').1 /\
  (get_workflow_status w).1 = (get_workflow_status w').1.
Proof.
  intros Hst Hok Hok' Hlast.
  assert (statuses w = statuses w') as Heq.
  { unfold statuses. symmetry. apply Forall2_map_eq.
    eapply Forall2_impl; [exact Hlast|]. intros s s' Hs. simpl in Hs.
    symmetry. by apply derived_status_last. }
  split.
  - rewrite !get_pending_step_find by done. simpl. by rewrite Heq.
  - rewrite !workflow_status_of_find by done. by rewrite Heq.
Qed.

(** X28. The run that [on_step_start] records is the one that counts
    from then on: after [on_step_start] on step [i] with task id [tid],
    the status of that step is what the backend reports for [tid], and
    the last run whose record [resume] would look up is [tid]. *)
Theorem new_run_decides_status (json_loads : string -> option pyval)
    (w : Workflow) (i : nat) (s : Step) (n tid : string) :
  Forall step_ok (steps (workflow w)) ->
  NoDup (omap name (steps (workflow w))) ->
  steps (workflow w) !! i = Some s -> name s = Some n ->
  task_runs s <> Null ->
  exists w' s',
    on_step_start n tid w = (Ok tt, w') /\
    steps (workflow w') !! i = Some s' /\
    get_step_status s' w' = (Ok (get_status (app w) tid), w') /\
    get_last_run_task_instance json_loads s' w'
    = get_task_instance json_loads tid
                        (Some (clock (app w) (clock_n (app w)))) w'.
Proof.
  intros Hall Hnd Hi Hn Hruns.
  pose proof (lookup_lt_Some _ _ _ Hi) as Hlt.
  eexists _, _. split; [by apply (on_step_start_run w i s)|].
  split; [simpl; by apply list_lookup_insert_eq|]. split.
  - rewrite get_step_status_ok by done.
    unfold derived_status, step_runs. simpl. rewrite last_snoc. simpl.
    unfold update_one. simpl.
    by destruct (wf_col (app w) !! _id (workflow w)).
  - by rewrite (get_last_run_snoc json_loads _ _ (step_runs s)
                  {| task_id := tid;
                     date_start := Some (clock (app w) (clock_n (app w)));
                     end_time := None |}).
Qed.

(** X27 at two histories of step [b], of two runs and of one, with the
    same latest run. *)
Lemma status_depends_on_latest_runs_witness :
  (get_workflow_status w_running).1
  = (get_workflow_status
       (mk_engine [set_task_runs (Val [run_a]) step_a;
                   set_task_runs (Val [run_b2]) step_b; step_c])).1.
Proof.
  apply (status_depends_on_latest_runs w_running
           (mk_engine [set_task_runs (Val [run_a]) step_a;
                       set_task_runs (Val [run_b2]) step_b; step_c]));
    [done|runs_ok_ex|runs_ok_ex|by repeat constructor].
Defined.

(** X28 at the failed workflow: after the second run of [b] starts, the
    status of [b] is that of run [r2]. *)
Lemma new_run_decides_status_witness :
  exists w' s',
    on_step_start "b" "r2" w_failed = (Ok tt, w') /\
    steps (workflow w') !! 1 = Some s' /\
    get_step_status s' w' = (Ok STARTED, w').
Proof.
  destruct (new_run_decides_status json_literals w_failed 1 step_b_failed "b" "r2")
    as (w' & s' & Hrun & Hstep & Hstatus & _);
    [steps_ok_ex|exact nodup_abc|reflexivity|reflexivity|discriminate|].
  by exists w', s'.
Defined.
